(** * RET: Recursive Embedded Test engine (ret.c, ret.h)

    A shallow embedding of the engine of ret.c: the tag path builder
    (retAddTag, retRemoveTag, retFindTagToken), the list executor
    (retExecuteList, retEnter, retExit) with its setjmp/longjmp unwinding,
    the assertion routine (retAssert) and the report formatter and buffer
    (retFormatLine, retTestLineFormat, retPutChar, retSendBuffer).

    Conventions of the embedding.
    - The static objects [ret], [ret_buf] and [ret_env] of ret.c, the
      caller's [ret_param_t] and the two collaborators (tick source, byte
      sink) are the fields of one record [engine], threaded through every
      function.
    - A C string is a [string] holding the characters before its terminator.
      A [char*] into [ret.tag_str] is its offset from [ret.tag_str].
    - [uint32_t] values are [Z] reduced by [u32]; [int32_t] by [s32].
    - setjmp/longjmp: a [jmp_buf] of [ret_env[k]] is identified with the
      index [k]; a longjmp in flight is the outcome [Longjmp k v], caught by
      the innermost executor frame whose last setjmp used slot [k]. *)

From Stdlib Require Import ZArith List String Ascii Bool Lia.
Import ListNotations.
Open Scope string_scope.
Open Scope Z_scope.

(** ** Machine integers *)

Definition u32 (z : Z) : Z := z mod 4294967296.

Definition s32 (z : Z) : Z := (z + 2147483648) mod 4294967296 - 2147483648.

(** ** C strings *)

Definition NUL : ascii := Ascii.zero.

Definition LF : ascii := ascii_of_nat 10.

Definition strlen (s : string) : Z := Z.of_nat (String.length s).

(** [strstr hay needle]: offset of the first occurrence, [None] for NULL. *)
Fixpoint strstr (hay needle : string) : option nat :=
  if String.prefix needle hay then Some O
  else match hay with
       | EmptyString => None
       | String _ rest => option_map S (strstr rest needle)
       end.

(** [char_at s i]: the character [s[i]], the terminator at [i = strlen s]. *)
Definition char_at (s : string) (i : nat) : ascii :=
  match String.get i s with
  | Some c => c
  | None => NUL
  end.

(** The string left in a buffer holding [s] after [s[n] = 0]. *)
Fixpoint truncate (n : nat) (s : string) : string :=
  match n, s with
  | S m, String c rest => String c (truncate m rest)
  | _, _ => EmptyString
  end.

(** [s] with [s[i] = c] for [i] inside the string. *)
Fixpoint set_char (i : nat) (c : ascii) (s : string) : string :=
  match s with
  | EmptyString => EmptyString
  | String d rest =>
      match i with
      | O => String c rest
      | S j => String d (set_char j c rest)
      end
  end.

Fixpoint blanks (n : nat) : string :=
  match n with
  | O => EmptyString
  | S m => String " " (blanks m)
  end.

Definition string_rev (s : string) : string :=
  string_of_list_ascii (rev (list_ascii_of_string s)).

(** ** ret.h *)

Definition RET_REPORT_BUF_SIZE : Z := 4096.
Definition RET_MAX_TAG_STRING_SIZE : Z := 256.
Definition RET_MAX_NEST_SIZE : Z := 6.
Definition RET_ROOT_TAG : string := "ROOT".
Definition RET_PAUSE : bool := true.
Definition RET_NO_PAUSE : bool := false.

Inductive ret_val_t : Type :=
| RET_PASS
| RET_FAIL
| RET_ERR_TIMEOUT
| RET_ERR_TAG.

Inductive ret_mode_t : Type :=
| RET_MODE_SEARCH
| RET_MODE_EXE
| RET_MODE_SKIP.

Record ret_param_t : Type := {
  mode : ret_mode_t;
  test_tag : string;
  tag_found : Z;
  retval : Z
}.

Definition ret_val_eqb (a b : ret_val_t) : bool :=
  match a, b with
  | RET_PASS, RET_PASS | RET_FAIL, RET_FAIL
  | RET_ERR_TIMEOUT, RET_ERR_TIMEOUT | RET_ERR_TAG, RET_ERR_TAG => true
  | _, _ => false
  end.

Definition ret_mode_eqb (a b : ret_mode_t) : bool :=
  match a, b with
  | RET_MODE_SEARCH, RET_MODE_SEARCH | RET_MODE_EXE, RET_MODE_EXE
  | RET_MODE_SKIP, RET_MODE_SKIP => true
  | _, _ => false
  end.

(** The enumerator's integer value. *)
Definition ret_val_int (v : ret_val_t) : Z :=
  match v with
  | RET_PASS => 0
  | RET_FAIL => 1
  | RET_ERR_TIMEOUT => 2
  | RET_ERR_TAG => 3
  end.

(** ** Test functions

    A test function is user code.  A leaf is the guard RET_MODE_SEARCH()
    followed by straight-line user logic made of the calls the engine
    offers (RET_ASSERT, retInfoLineFmt, retInfoLine) and assignments to
    [param->retval], and a final [return].  A branch returns
    [retExecuteList(param, &list)]. *)

Inductive stmt : Type :=
| SAssert (condition : Z) (line_number : Z) (file_name : string)
| SInfoLineFmt (str : string)
| SInfoLine (str : string) (pause : bool)
| SSetRetval (v : Z).

Record ret_test_of (F : Type) : Type := mk_test {
  func : F;
  tag : string
}.

Arguments mk_test {F} func tag.
Arguments func {F} _.
Arguments tag {F} _.

#[warning="-register-all"]
Inductive ret_func_t : Type :=
| Leaf (body : list stmt) (result : ret_val_t)
| Branch (list : list (ret_test_of ret_func_t)).

Definition ret_test_t : Type := ret_test_of ret_func_t.

Definition ret_list_t : Type := list ret_test_t.

(** ** Engine state *)

Record ret_env_t : Type := {
  env_tag_ptr : Z;
  timer : Z
}.

(** Observations kept beside the C state; no function reads them.
    [EvCall]: [test->func(param)] is called, with the tag path of the node.
    [EvBody]: a leaf got past RET_MODE_SEARCH().  [EvResult k v]: the frame
    owning slot [k] reaches [if(retval != RET_PASS)] with [retval = v].
    [EvDone], [EvPathNotFound]: the two reports at the end of retExit. *)
Inductive event : Type :=
| EvCall (path : string)
| EvBody (path : string)
| EvResult (slot : Z) (v : ret_val_t)
| EvDone
| EvPathNotFound.

Record engine : Type := {
  next_line_number : Z;
  tag_str : string;
  tag_ptr : Z;
  nest : Z;
  buf : string;
  is_pause : bool;
  ret_env : list ret_env_t;
  param : ret_param_t;
  ticks : nat;
  sink : list string;
  top_store : Z;
  trace : list event
}.

(** [ret_buf.next_in - ret_buf.buf]: [buf] holds the cells below it. *)
Definition next_in (st : engine) : Z := strlen (buf st).

Definition set_line (n : Z) (st : engine) : engine :=
  {| next_line_number := n; tag_str := tag_str st; tag_ptr := tag_ptr st;
     nest := nest st; buf := buf st; is_pause := is_pause st;
     ret_env := ret_env st; param := param st; ticks := ticks st;
     sink := sink st; top_store := top_store st; trace := trace st |}.

Definition set_path (s : string) (p : Z) (n : Z) (st : engine) : engine :=
  {| next_line_number := next_line_number st; tag_str := s; tag_ptr := p;
     nest := n; buf := buf st; is_pause := is_pause st;
     ret_env := ret_env st; param := param st; ticks := ticks st;
     sink := sink st; top_store := top_store st; trace := trace st |}.

Definition set_tag_ptr (p : Z) (st : engine) : engine :=
  set_path (tag_str st) p (nest st) st.

Definition set_buf (b : string) (top : Z) (out : list string) (st : engine)
  : engine :=
  {| next_line_number := next_line_number st; tag_str := tag_str st;
     tag_ptr := tag_ptr st; nest := nest st; buf := b;
     is_pause := is_pause st; ret_env := ret_env st; param := param st;
     ticks := ticks st; sink := out; top_store := top; trace := trace st |}.

Definition set_pause (b : bool) (st : engine) : engine :=
  {| next_line_number := next_line_number st; tag_str := tag_str st;
     tag_ptr := tag_ptr st; nest := nest st; buf := buf st; is_pause := b;
     ret_env := ret_env st; param := param st; ticks := ticks st;
     sink := sink st; top_store := top_store st; trace := trace st |}.

Definition set_env (e : list ret_env_t) (st : engine) : engine :=
  {| next_line_number := next_line_number st; tag_str := tag_str st;
     tag_ptr := tag_ptr st; nest := nest st; buf := buf st;
     is_pause := is_pause st; ret_env := e; param := param st;
     ticks := ticks st; sink := sink st; top_store := top_store st;
     trace := trace st |}.

Definition set_param (p : ret_param_t) (st : engine) : engine :=
  {| next_line_number := next_line_number st; tag_str := tag_str st;
     tag_ptr := tag_ptr st; nest := nest st; buf := buf st;
     is_pause := is_pause st; ret_env := ret_env st; param := p;
     ticks := ticks st; sink := sink st; top_store := top_store st;
     trace := trace st |}.

Definition set_ticks (n : nat) (st : engine) : engine :=
  {| next_line_number := next_line_number st; tag_str := tag_str st;
     tag_ptr := tag_ptr st; nest := nest st; buf := buf st;
     is_pause := is_pause st; ret_env := ret_env st; param := param st;
     ticks := n; sink := sink st; top_store := top_store st;
     trace := trace st |}.

Definition log (e : event) (st : engine) : engine :=
  {| next_line_number := next_line_number st; tag_str := tag_str st;
     tag_ptr := tag_ptr st; nest := nest st; buf := buf st;
     is_pause := is_pause st; ret_env := ret_env st; param := param st;
     ticks := ticks st; sink := sink st; top_store := top_store st;
     trace := (trace st ++ [e])%list |}.

Definition set_mode (m : ret_mode_t) (p : ret_param_t) : ret_param_t :=
  {| mode := m; test_tag := test_tag p; tag_found := tag_found p;
     retval := retval p |}.

Definition set_tag_found (n : Z) (p : ret_param_t) : ret_param_t :=
  {| mode := mode p; test_tag := test_tag p; tag_found := n;
     retval := retval p |}.

Definition set_retval (v : Z) (p : ret_param_t) : ret_param_t :=
  {| mode := mode p; test_tag := test_tag p; tag_found := tag_found p;
     retval := v |}.

(** [ret_env[i]] for an index computed in [uint32_t]; [None] outside
    [0 .. RET_MAX_NEST_SIZE). *)
Definition env_at (i : Z) (st : engine) : option ret_env_t :=
  if (0 <=? i) && (i <? RET_MAX_NEST_SIZE)
  then nth_error (ret_env st) (Z.to_nat i)
  else None.

Fixpoint list_set {A : Type} (i : nat) (x : A) (l : list A) : list A :=
  match l with
  | [] => []
  | y :: r =>
      match i with
      | O => x :: r
      | S j => y :: list_set j x r
      end
  end.

Definition env_set (i : Z) (e : ret_env_t) (st : engine) : engine :=
  set_env (list_set (Z.to_nat i) e (ret_env st)) st.

(** ** Outcomes

    [Returns a st]: the function returned [a].  [Longjmp k v st]:
    [longjmp(ret_env[k].env, ..)] was executed and setjmp is about to
    return [v] in the frame owning slot [k].  [Hangs]: the C code loops
    forever.  [Stuck]: the C code leaves the behaviour tracked here, by an
    access outside an array or through a cursor beyond the terminator of
    the tag path. *)
Inductive outcome (A : Type) : Type :=
| Returns (a : A) (st : engine)
| Longjmp (slot : Z) (val : Z) (st : engine)
| Hangs
| Stuck.

Arguments Returns {A} a st.
Arguments Longjmp {A} slot val st.
Arguments Hangs {A}.
Arguments Stuck {A}.

(** [longjmp(ret_env[k].env, v)]: "if the value passed to longjmp is 0,
    setjmp will behave as if it had returned 1". *)
Definition longjmp {A : Type} (k : Z) (v : Z) (st : engine) : outcome A :=
  if (0 <=? k) && (k <? RET_MAX_NEST_SIZE)
  then Longjmp k (if v =? 0 then 1 else v) st
  else Stuck.

(** ** Output buffer *)

(** retSendBuffer: the terminator is stored at [next_in], the buffer goes
    to RET_SEND_BUF and [next_in] returns to the start. *)
Definition retSendBuffer (st : engine) : engine :=
  if (next_in st =? 0) then st
  else set_buf "" (Z.max (top_store st) (next_in st))
               (sink st ++ [buf st])%list st.

(** retPutChar *)
Definition retPutChar (c : ascii) (st : engine) : engine :=
  if next_in st <? RET_REPORT_BUF_SIZE then
    let st1 := set_buf (buf st ++ String c "")
                 (Z.max (top_store st) (next_in st)) (sink st) st in
    if Ascii.eqb LF c && is_pause st1 then retSendBuffer st1 else st1
  else st.

(** retPutString *)
Fixpoint retPutString (str : string) (st : engine) : engine :=
  match str with
  | EmptyString => st
  | String c rest => retPutString rest (retPutChar c st)
  end.

Definition retPutLineFeed (st : engine) : engine := retPutChar LF st.

Definition retPutCommaSeparator (st : engine) : engine := retPutChar "," st.

(** The do-while of retDecimalDigits; [ch_ptr] is its offset in [work]. *)
Fixpoint retDecimalDigits_loop (ch_ptr : nat) (value : Z) (work : string)
  : string :=
  match ch_ptr with
  | O => work
  | S p =>
      let next := value / 10 in
      let c := ascii_of_N (Z.to_N (u32 (48 + value - next * 10) mod 256)) in
      let work' := set_char p c work in
      if negb (next =? 0) && negb (Nat.eqb p O)
      then retDecimalDigits_loop p next work'
      else work'
  end.

(** retDecimalDigits; [sizeof work - 1] is 10. *)
Definition retDecimalDigits (value width : Z) (st : engine) : engine :=
  if (0 <? width) && (width <? 10) then
    retPutString
      (retDecimalDigits_loop (Z.to_nat width) value (blanks (Z.to_nat width)))
      st
  else st.

Definition RET_TAG_ERR_MSG : string :=
  "Error: RET_MAX_TAG_STRING_SIZE exceeded".
Definition RET_LAYER_ERR_MSG : string := "Error: RET_MAX_NEST_SIZE exceeded".
Definition RET_PATH_ERR_MSG : string := "test path not found".
Definition RET_TEST_DONE_MSG : string := "DONE".

Definition RET_RETVAL_STR (v : ret_val_t) : string :=
  match v with
  | RET_PASS => "PASS"
  | RET_FAIL => "FAIL"
  | RET_ERR_TIMEOUT => "TIMEOUT"
  | RET_ERR_TAG => "TAG_ID"
  end.

Definition RET_TOKEN_DELIMITER : ascii := "@".

(** retFormatLine *)
Definition retFormatLine (msg_type : ascii) (str : string) (pause : bool)
  (st : engine) : engine :=
  let save_pause := is_pause st in
  let st := set_pause pause st in
  let st := retPutChar msg_type st in
  let st := retPutCommaSeparator st in
  let st := retDecimalDigits (next_line_number st) 4
              (set_line (u32 (next_line_number st + 1)) st) in
  let st := retPutCommaSeparator st in
  let st := retPutString "    " st in
  let st := retPutCommaSeparator st in
  let st := retPutString "      " st in
  let st := retPutCommaSeparator st in
  let str := if strlen str >? RET_MAX_TAG_STRING_SIZE
             then "<string exceeds length limit>" else str in
  let st := retPutString str st in
  let st := retPutLineFeed st in
  set_pause save_pause st.

Definition retInfoLine (str : string) (pause : bool) (st : engine) : engine :=
  retFormatLine "I" str pause st.

Definition retInfoLineFmt (str : string) (st : engine) : engine :=
  retInfoLine str RET_NO_PAUSE st.

Definition retSearchLine (str : string) (st : engine) : engine :=
  retFormatLine "S" str RET_NO_PAUSE st.

(** retTestLineFormat *)
Definition retTestLineFormat (v : ret_val_t) (elapsed_time : Z) (st : engine)
  : engine :=
  let st := retPutChar "T" st in
  let st := retPutCommaSeparator st in
  let st := retDecimalDigits (next_line_number st) 4
              (set_line (u32 (next_line_number st + 1)) st) in
  let st := retPutCommaSeparator st in
  let st := retPutString (RET_RETVAL_STR v) st in
  let st := retPutCommaSeparator st in
  let st := retDecimalDigits elapsed_time 6 st in
  let st := retPutCommaSeparator st in
  let st := retPutString (tag_str st) st in
  retPutLineFeed st.

(** ** Outcome plumbing *)

Definition bind {A B : Type} (o : outcome A) (k : A -> engine -> outcome B)
  : outcome B :=
  match o with
  | Returns a st => k a st
  | Longjmp slot v st => Longjmp slot v st
  | Hangs => Hangs
  | Stuck => Stuck
  end.

Notation "' x , st <- o ;; k" := (bind o (fun x st => k))
  (at level 10, x pattern, st name, o at level 100, k at level 200).

(** ** Tag path *)

(** The test of retFindTagToken on the two strings. *)
Definition tag_token (path target : string) : bool :=
  match strstr path target with
  | None => false
  | Some tag_pos =>
      let c := char_at path (tag_pos + String.length target) in
      negb (negb (Ascii.eqb c RET_TOKEN_DELIMITER) && negb (Ascii.eqb c NUL))
  end.

(** retFindTagToken *)
Definition retFindTagToken (st : engine) : engine * bool :=
  if tag_token (tag_str st) (test_tag (param st)) then
    (set_param (set_tag_found (s32 (tag_found (param st) + 1)) (param st)) st,
     true)
  else (st, false).

(** retAddTag.  The two strcat calls start at [save_previous]; they append
    to the tag path when [save_previous] is not beyond its terminator. *)
Definition retAddTag (tag : string) (st : engine) : outcome ret_val_t :=
  let save_previous := tag_ptr st in
  let st1 := set_tag_ptr (save_previous + strlen tag + 1) st in
  if negb (tag_ptr st1 <? RET_MAX_TAG_STRING_SIZE) then
    Returns RET_ERR_TAG (set_tag_ptr save_previous st1)
  else if (0 <=? save_previous) && (save_previous <=? strlen (tag_str st1))
  then
    let s := (tag_str st1 ++ String RET_TOKEN_DELIMITER "" ++ tag)%string in
    if strlen s <? RET_MAX_TAG_STRING_SIZE
    then Returns RET_PASS (set_path s (tag_ptr st1) (u32 (nest st1 + 1)) st1)
    else Stuck
  else Stuck.

(** retRemoveTag *)
Definition retRemoveTag (nest_val : Z) (st : engine) : outcome unit :=
  if nest_val >=? RET_MAX_NEST_SIZE then Returns tt st
  else
    match env_at nest_val st with
    | None => Stuck
    | Some e =>
        let p := env_tag_ptr e in
        if (0 <=? p) && (p <? RET_MAX_TAG_STRING_SIZE)
        then Returns tt
               (set_path (truncate (Z.to_nat p) (tag_str st)) p nest_val st)
        else Stuck
    end.

(** ** Assertions *)

Definition RET_DIGITS : string := "0123456789abcdef".

(** The do-while of retConvIntToDecAscii, least significant digit first;
    an [int32_t] has at most ten digits. *)
Fixpoint retConvIntToDecAscii_loop (passes : nat) (val : Z) : string :=
  match passes with
  | O => ""
  | S n =>
      String (char_at RET_DIGITS (Z.to_nat (Z.rem val 10)))
        (if Z.quot val 10 =? 0 then ""
         else retConvIntToDecAscii_loop n (Z.quot val 10))
  end.

(** retConvIntToDecAscii; [None] when [-val] overflows. *)
Definition retConvIntToDecAscii (val : Z) : option string :=
  if val =? -2147483648 then None
  else
    let neg_flag := val <? 0 in
    let val := if neg_flag then - val else val in
    let tmp_str := retConvIntToDecAscii_loop 10 val in
    let tmp_str := if neg_flag then (tmp_str ++ "-")%string else tmp_str in
    Some (string_rev tmp_str).

(** The text built in [assert_buf] (RET_NO_PRINTF is defined). *)
Definition assert_text (line_number : Z) (file_name : string) (rv : Z)
  : option string :=
  match retConvIntToDecAscii line_number, retConvIntToDecAscii rv with
  | Some l, Some r =>
      Some ("Assert at line " ++ l ++ " of " ++ file_name ++ " == " ++ r)%string
  | _, _ => None
  end.

(** retAssert; [assert_buf] has 128 cells. *)
Definition retAssert (assert_condition : Z) (line_number : Z)
  (file_name : string) (st : engine) : outcome unit :=
  if negb (assert_condition =? 0) then Returns tt st
  else
    match assert_text line_number file_name (retval (param st)) with
    | Some assert_buf =>
        if strlen assert_buf <? 128
        then longjmp (u32 (nest st - 1)) (-1) (retInfoLineFmt assert_buf st)
        else Stuck
    | None => Stuck
    end.

(** ** Leaf functions *)

Definition run_stmt (s : stmt) (st : engine) : outcome unit :=
  match s with
  | SAssert c line file => retAssert c line file st
  | SInfoLineFmt str => Returns tt (retInfoLineFmt str st)
  | SInfoLine str pause => Returns tt (retInfoLine str pause st)
  | SSetRetval v => Returns tt (set_param (set_retval (s32 v) (param st)) st)
  end.

Fixpoint run_body (body : list stmt) (st : engine) : outcome unit :=
  match body with
  | [] => Returns tt st
  | s :: rest => ' _, st1 <- run_stmt s st ;; run_body rest st1
  end.

(** The guard RET_MODE_SEARCH() *)
Definition search_guard (st : engine) : bool :=
  ret_mode_eqb (mode (param st)) RET_MODE_SEARCH
  || ret_mode_eqb (mode (param st)) RET_MODE_SKIP.

Definition call_leaf (body : list stmt) (result : ret_val_t) (st : engine)
  : outcome ret_val_t :=
  if search_guard st then Returns RET_PASS st
  else ' _, st1 <- run_body body (log (EvBody (tag_str st)) st) ;;
       Returns result st1.

(** ** List executor *)

Section Executor.

(** RET_SYS_TICK_FUNC(): the n-th reading of the tick counter. *)
Variable HAL_GetTick : nat -> Z.

Definition RET_SYS_TICK_FUNC (st : engine) : Z * engine :=
  (u32 (HAL_GetTick (ticks st)), set_ticks (S (ticks st)) st).

(** The mode switch of retEnter, between retAddTag and the call. *)
Definition retEnter_mode (st : engine) : outcome unit :=
  if negb (ret_mode_eqb (mode (param st)) RET_MODE_SEARCH) then
    let (st1, found) := retFindTagToken st in
    if negb found then
      Returns tt
        (if ret_mode_eqb (mode (param st1)) RET_MODE_EXE
         then set_param (set_mode RET_MODE_SKIP (param st1)) st1 else st1)
    else
      let st2 := if ret_mode_eqb (mode (param st1)) RET_MODE_SKIP
                 then set_param (set_mode RET_MODE_EXE (param st1)) st1
                 else st1 in
      let i := u32 (nest st2 - 1) in
      match env_at i st2 with
      | None => Stuck
      | Some e =>
          let (now, st3) := RET_SYS_TICK_FUNC st2 in
          Returns tt
            (env_set i {| env_tag_ptr := env_tag_ptr e; timer := now |} st3)
      end
  else Returns tt st.

(** The report of retExit for a node whose tag was appended. *)
Definition retExit_report (v : ret_val_t) (st : engine) : outcome unit :=
  let (st1, found) := retFindTagToken st in
  if found then
    if negb (ret_mode_eqb (mode (param st1)) RET_MODE_SEARCH) then
      match env_at (u32 (nest st1 - 1)) st1 with
      | None => Stuck
      | Some e =>
          let (now, st2) := RET_SYS_TICK_FUNC st1 in
          Returns tt (retTestLineFormat v (u32 (now - timer e)) st2)
      end
    else Returns tt (retSearchLine (tag_str st1) st1)
  else Returns tt st1.

(** The end of retExit, reached with [ret.nest == 0]. *)
Definition retExit_end (st : engine) : engine :=
  if (tag_found (param st) =? 0)
     && negb (String.eqb (test_tag (param st)) RET_ROOT_TAG)
  then retInfoLine RET_PATH_ERR_MSG RET_PAUSE (log EvPathNotFound st)
  else retSendBuffer
         (retPutString RET_TEST_DONE_MSG (retPutLineFeed (log EvDone st))).

(** retExit *)
Definition retExit (v : ret_val_t) (st : engine) : outcome unit :=
  if ret_val_eqb v RET_ERR_TAG then Returns tt (retTestLineFormat v 0 st)
  else
    ' _, st1 <- retExit_report v st ;;
    if String.eqb (tag_str st1) (test_tag (param st1)) then
      ' _, st2 <- retRemoveTag 0 st1 ;;
      longjmp 0 (ret_val_int v) st2
    else
      ' _, st2 <- (if negb (nest st1 =? 0)
                   then retRemoveTag (u32 (nest st1 - 1)) st1
                   else Returns tt st1) ;;
      Returns tt (if nest st2 =? 0 then retExit_end st2 else st2).

(** The value setjmp hands to the switch of retExecuteList. *)
Definition longjmp_retval (longjmp_val : Z) : ret_val_t :=
  if longjmp_val =? -1 then RET_FAIL else RET_PASS.

Definition update_err_flag (v err_flag : ret_val_t) : ret_val_t :=
  if negb (ret_val_eqb v RET_PASS) then RET_FAIL else err_flag.

(** A longjmp to [slot] resumes at the setjmp of the frame owning it. *)
Definition catch (slot : Z) (o : outcome ret_val_t) : outcome ret_val_t :=
  match o with
  | Longjmp k v st =>
      if k =? slot then Returns (longjmp_retval v) st else o
  | _ => o
  end.

Section Frame.

(** [test->func(param)] for the tests of the lists below. *)
Variable call : ret_func_t -> engine -> outcome ret_val_t.

(** retEnter *)
Definition retEnter (test : ret_test_t) (st : engine) : outcome ret_val_t :=
  ' r, st1 <- retAddTag (tag test) st ;;
  if ret_val_eqb r RET_ERR_TAG
  then Returns RET_ERR_TAG (retInfoLineFmt RET_TAG_ERR_MSG st1)
  else
    ' _, st2 <- retEnter_mode st1 ;;
    call (func test) (log (EvCall (tag_str st2)) st2).

(** From [if(retval != RET_PASS)] to the end of the loop body.  A longjmp
    of retExit to this frame's own slot resumes at its setjmp, which leads
    here again; if retExit then jumps once more, it has found the tag path
    unchanged by retRemoveTag(0) and does so for ever. *)
Definition after_setjmp (slot : Z) (v err_flag : ret_val_t) (st : engine)
  : outcome ret_val_t :=
  let err1 := update_err_flag v err_flag in
  match retExit v (log (EvResult slot v) st) with
  | Returns _ st1 => Returns err1 st1
  | Longjmp k val st1 =>
      if k =? slot then
        let v2 := longjmp_retval val in
        let err2 := update_err_flag v2 err1 in
        match retExit v2 (log (EvResult slot v2) st1) with
        | Returns _ st2 => Returns err2 st2
        | Longjmp k2 val2 st2 =>
            if k2 =? slot then Hangs else Longjmp k2 val2 st2
        | Hangs => Hangs
        | Stuck => Stuck
        end
      else Longjmp k val st1
  | Hangs => Hangs
  | Stuck => Stuck
  end.

(** One pass of the for loop: setjmp on [ret_env[ret.nest]], retEnter,
    the err_flag update and retExit. *)
Definition loop_body (test : ret_test_t) (err_flag : ret_val_t) (st : engine)
  : outcome ret_val_t :=
  let slot := nest st in
  if (0 <=? slot) && (slot <? RET_MAX_NEST_SIZE) then
    ' v, st1 <- catch slot (retEnter test st) ;;
    after_setjmp slot v err_flag st1
  else Stuck.

Fixpoint for_loop (tests : ret_list_t) (err_flag : ret_val_t) (st : engine)
  : outcome ret_val_t :=
  match tests with
  | [] => Returns err_flag st
  | test :: rest =>
      ' err1, st1 <- loop_body test err_flag st ;;
      for_loop rest err1 st1
  end.

(** retExecuteList *)
Definition retExecuteList_body (list : ret_list_t) (st : engine)
  : outcome ret_val_t :=
  if nest st >=? RET_MAX_NEST_SIZE
  then Returns RET_FAIL (retInfoLineFmt RET_LAYER_ERR_MSG st)
  else
    let save_pause := is_pause st in
    match env_at (nest st) st with
    | None => Stuck
    | Some e =>
        let st1 := env_set (nest st)
                     {| env_tag_ptr := tag_ptr st; timer := timer e |} st in
        ' err_flag, st2 <- for_loop list RET_PASS st1 ;;
        Returns err_flag (set_pause save_pause st2)
    end.

End Frame.

(** A call through [test->func]. *)
Fixpoint call_func (f : ret_func_t) (st : engine) {struct f}
  : outcome ret_val_t :=
  match f with
  | Leaf body result => call_leaf body result st
  | Branch list => retExecuteList_body call_func list st
  end.

Definition retExecuteList (list : ret_list_t) (st : engine)
  : outcome ret_val_t :=
  retExecuteList_body call_func list st.

(** The static [root_list] of ret.c; RunTrunk is the user's. *)
Definition root_list (RunTrunk : ret_func_t) : ret_list_t :=
  [mk_test RunTrunk RET_ROOT_TAG].

(** The assignments of retStart; [param] is the caller's structure. *)
Definition retStart_init (p : ret_param_t) (st : engine) : engine :=
  {| next_line_number := 0; tag_str := ""; tag_ptr := 0; nest := 0;
     buf := ""; is_pause := RET_PAUSE; ret_env := ret_env st;
     param := set_retval 0 (set_tag_found 0 p);
     ticks := ticks st; sink := sink st; top_store := top_store st;
     trace := trace st |}.

(** retStart *)
Definition retStart (p : ret_param_t) (RunTrunk : ret_func_t) (st : engine)
  : outcome ret_val_t :=
  retExecuteList (root_list RunTrunk) (retStart_init p st).

End Executor.

(** The statics before the first run. *)
Definition power_on : engine :=
  {| next_line_number := 0; tag_str := ""; tag_ptr := 0; nest := 0;
     buf := ""; is_pause := false;
     ret_env := repeat {| env_tag_ptr := 0; timer := 0 |} 6;
     param := {| mode := RET_MODE_SEARCH; test_tag := ""; tag_found := 0;
                 retval := 0 |};
     ticks := O; sink := []; top_store := -1; trace := [] |}.

(** ** Specification vocabulary *)

(** Spec, 4.3 step 3: the target "occurs in the current TagPath" with a
    match "followed by the delimiter or by end-of-string". *)
Fixpoint exact_token_occurs (path target : string) : bool :=
  (String.prefix target path
   && (Nat.eqb (String.length target) (String.length path)
       || Ascii.eqb (char_at path (String.length target)) RET_TOKEN_DELIMITER))
  || match path with
     | EmptyString => false
     | String _ rest => exact_token_occurs rest target
     end.

(** The state a run ends in, when it returns. *)
Definition final_state {A : Type} (o : outcome A) : option engine :=
  match o with
  | Returns _ st => Some st
  | _ => None
  end.

(** The caller's structure before retStart, as Test() of test.c fills it. *)
Definition run_config (m : ret_mode_t) (target : string) : ret_param_t :=
  {| mode := m; test_tag := target; tag_found := 0; retval := 0 |}.

(** Tag paths of the leaves whose user logic ran, oldest first. *)
Definition bodies (tr : list event) : list string :=
  flat_map (fun e => match e with EvBody p => [p] | _ => [] end) tr.

(** Tag paths of the test functions called, oldest first. *)
Definition calls (tr : list event) : list string :=
  flat_map (fun e => match e with EvCall p => [p] | _ => [] end) tr.

(** ** Example trees *)

(** A tick counter advancing by one per reading. *)
Definition tick_each_read (n : nat) : Z := Z.of_nat n.

(** src/example: test_group_0.c, test_group_1.c, test_group_2.c, test.c *)
Module Example.

Definition Group0Test0 : ret_func_t := Leaf [SAssert 1 37 "test_group_0.c"] RET_PASS.
Definition Group0Test1 : ret_func_t := Leaf [SAssert 1 50 "test_group_0.c"] RET_PASS.
Definition Group1Test0 : ret_func_t := Leaf [SAssert 1 28 "test_group_1.c"] RET_PASS.
Definition Group1Test1 : ret_func_t := Leaf [SAssert 0 35 "test_group_1.c"] RET_PASS.
Definition Group2Test0 : ret_func_t := Leaf [SAssert 1 24 "test_group_2.c"] RET_PASS.
Definition Group2Test1 : ret_func_t := Leaf [SAssert 1 31 "test_group_2.c"] RET_PASS.

Definition group_2_tests : ret_func_t :=
  Branch [mk_test Group2Test0 "Group2Test0"; mk_test Group2Test1 "Group2Test1"].

Definition group_1_tests : ret_func_t :=
  Branch [mk_test Group1Test0 "Group1Test0"; mk_test Group1Test1 "Group1Test1";
          mk_test group_2_tests "group_2_tests"].

Definition group_0_tests : ret_func_t :=
  Branch [mk_test Group0Test0 "Group0Test0"; mk_test Group0Test1 "Group0Test1"].

Definition RunTrunk : ret_func_t :=
  Branch [mk_test group_0_tests "group_0_tests";
          mk_test group_1_tests "group_1_tests"].

End Example.

(** A leaf tagged Test1 inside a branch tagged Test12. *)
Definition nested_prefix_tree : ret_func_t :=
  Branch [mk_test (Branch [mk_test (Leaf [] RET_PASS) "Test1"]) "Test12"].

(** Sibling leaves tagged Test1 and Test12. *)
Definition sibling_prefix_tree : ret_func_t :=
  Branch [mk_test (Leaf [] RET_PASS) "Test1";
          mk_test (Leaf [] RET_PASS) "Test12"].

Fixpoint filler (n : nat) : string :=
  match n with
  | O => ""
  | S m => String "x" (filler m)
  end.

(** One leaf writing fifteen info lines of 256 characters each. *)
Definition noisy_tree : ret_func_t :=
  Branch [mk_test (Leaf (repeat (SInfoLineFmt (filler 256)) 15) RET_PASS) "A"].


(** ** Invariants of the executor *)

(** Everything but the report buffer, the sink and the line counter. *)
Definition core (st : engine)
  : string * Z * Z * bool * list ret_env_t * ret_param_t * nat * list event :=
  (tag_str st, tag_ptr st, nest st, is_pause st, ret_env st, param st,
   ticks st, trace st).

(** [core] without [param->retval], the one field user logic assigns. *)
Definition user_core (st : engine)
  : string * Z * Z * bool * list ret_env_t
    * (ret_mode_t * string * Z) * nat * list event :=
  (tag_str st, tag_ptr st, nest st, is_pause st, ret_env st,
   (mode (param st), test_tag (param st), tag_found (param st)),
   ticks st, trace st).

(** Results recorded by the frame owning slot [k], oldest first. *)
Definition results_at (k : Z) (tr : list event) : list ret_val_t :=
  flat_map (fun e => match e with
                     | EvResult j v => if j =? k then [v] else []
                     | _ => []
                     end) tr.

(** The final reports of a trace. *)
Definition ends (tr : list event) : list event :=
  flat_map (fun e => match e with
                     | EvDone => [EvDone]
                     | EvPathNotFound => [EvPathNotFound]
                     | _ => []
                     end) tr.

(** User code the engine can run without leaving C: the text of a failing
    assertion fits [assert_buf], no negation overflows in
    retConvIntToDecAscii, and RET_ERR_TAG is left to retEnter. *)
Definition stmt_ok (s : stmt) : bool :=
  match s with
  | SAssert c line file =>
      negb (c =? 0)
      || ((-2147483648 <? line) && (line <? 2147483648)
          && (strlen file <=? 80))
  | SSetRetval v => negb (s32 v =? -2147483648)
  | _ => true
  end.

Fixpoint well_behaved (f : ret_func_t) : bool :=
  match f with
  | Leaf body result =>
      forallb stmt_ok body && negb (ret_val_eqb result RET_ERR_TAG)
  | Branch list => forallb (fun test => well_behaved (func test)) list
  end.

(** The cursor saved in [ret_env[k]]. *)
Definition slot_cursor (k : nat) (st : engine) : option Z :=
  option_map env_tag_ptr (nth_error (ret_env st) k).

Definition retval_ok (st : engine) : Prop :=
  -2147483648 < retval (param st) < 2147483648.

(** What holds whenever the executor is about to append a tag or to call a
    test function in a run started by retStart. *)
Record frame_inv (st : engine) : Prop := {
  cursor_on_terminator : tag_ptr st = strlen (tag_str st);
  path_in_buffer : strlen (tag_str st) < RET_MAX_TAG_STRING_SIZE;
  env_slots : List.length (ret_env st) = 6%nat;
  root_cursor : slot_cursor 0 st = Some 0;
  retval_in_range : retval_ok st
}.

(** [kept m st st']: [st'] follows [st] after code that ran at depth [m] or
    deeper and came back to depth [m]. *)
Record kept (m : Z) (st st' : engine) : Prop := {
  kept_nest : nest st' = nest st;
  kept_tag_str : tag_str st' = tag_str st;
  kept_tag_ptr : tag_ptr st' = tag_ptr st;
  kept_target : test_tag (param st') = test_tag (param st);
  kept_pause : is_pause st' = is_pause st;
  kept_env_len : List.length (ret_env st') = List.length (ret_env st);
  kept_env : forall k, (Z.of_nat k < m) ->
               nth_error (ret_env st') k = nth_error (ret_env st) k;
  kept_retval : retval_ok st -> retval_ok st';
  kept_results : forall k, k < m ->
                   results_at k (trace st') = results_at k (trace st);
  kept_ends : ends (trace st') = ends (trace st)
}.

(** [same_walk st st']: only the report, the tick count and [tag_found]
    may differ. *)
Record same_walk (st st' : engine) : Prop := {
  sw_tag_str : tag_str st' = tag_str st;
  sw_tag_ptr : tag_ptr st' = tag_ptr st;
  sw_nest : nest st' = nest st;
  sw_pause : is_pause st' = is_pause st;
  sw_env : ret_env st' = ret_env st;
  sw_mode : mode (param st') = mode (param st);
  sw_target : test_tag (param st') = test_tag (param st);
  sw_retval : retval (param st') = retval (param st);
  sw_trace : trace st' = trace st
}.

(** [entered m st st']: [st'] follows [st] after the mode switch of
    retEnter at depth [m]; only the timer of slot [m - 1], the mode and
    [tag_found] may differ. *)
Record entered (m : Z) (st st' : engine) : Prop := {
  ent_tag_str : tag_str st' = tag_str st;
  ent_tag_ptr : tag_ptr st' = tag_ptr st;
  ent_nest : nest st' = nest st;
  ent_pause : is_pause st' = is_pause st;
  ent_target : test_tag (param st') = test_tag (param st);
  ent_retval : retval (param st') = retval (param st);
  ent_trace : trace st' = trace st;
  ent_env_len : List.length (ret_env st') = List.length (ret_env st);
  ent_cursor : forall k, slot_cursor k st' = slot_cursor k st;
  ent_env : forall k, Z.of_nat k < m - 1 ->
              nth_error (ret_env st') k = nth_error (ret_env st) k;
  ent_mode : mode (param st')
             = match mode (param st) with
               | RET_MODE_SEARCH => RET_MODE_SEARCH
               | _ => if tag_token (tag_str st) (test_tag (param st))
                      then RET_MODE_EXE else RET_MODE_SKIP
               end
}.

(** [same_but_path st st']: as [same_walk], but for the tag path, its
    cursor and the depth. *)
Record same_but_path (st st' : engine) : Prop := {
  sp_pause : is_pause st' = is_pause st;
  sp_env : ret_env st' = ret_env st;
  sp_mode : mode (param st') = mode (param st);
  sp_target : test_tag (param st') = test_tag (param st);
  sp_retval : retval (param st') = retval (param st);
  sp_trace : trace st' = trace st
}.

(** [base st st']: what no code below the root frame changes. *)
Record base (st st' : engine) : Prop := {
  base_target : test_tag (param st') = test_tag (param st);
  base_pause : is_pause st' = is_pause st;
  base_env_len : List.length (ret_env st') = List.length (ret_env st);
  base_env0 : slot_cursor 0 st' = slot_cursor 0 st;
  base_results : results_at 0 (trace st') = results_at 0 (trace st);
  base_ends : ends (trace st') = ends (trace st)
}.

(** [unwound st st']: [st'] follows [st] after retExit found the tag path
    equal to the target, called retRemoveTag(0) and jumped to slot 0. *)
Record unwound (st st' : engine) : Prop := {
  unw_nest : nest st' = 0;
  unw_tag_str : tag_str st' = "";
  unw_tag_ptr : tag_ptr st' = 0;
  unw_target_path : test_tag (param st') <> "";
  unw_base : base st st'
}.

(** [inside n tg st sc]: the frame owning slot [n] was at its loop head in
    [st], appended [tg] and is in [sc] before, in or after the call of that
    node's function. *)
Record inside (n : Z) (tg : string) (st sc : engine) : Prop := {
  in_nest : nest sc = n + 1;
  in_tag_str :
    tag_str sc = (tag_str st ++ String RET_TOKEN_DELIMITER "" ++ tg)%string;
  in_target : test_tag (param sc) = test_tag (param st);
  in_pause : is_pause sc = is_pause st;
  in_env_len : List.length (ret_env sc) = List.length (ret_env st);
  in_cursor : forall k, Z.of_nat k <= n ->
                slot_cursor k sc = slot_cursor k st;
  in_env : forall k, Z.of_nat k < n ->
             nth_error (ret_env sc) k = nth_error (ret_env st) k;
  in_retval : retval_ok sc;
  in_results : forall k, k <= n ->
                 results_at k (trace sc) = results_at k (trace st);
  in_ends : ends (trace sc) = ends (trace st)
}.

(** The tag paths of the leaves below a node with tag path [path], in the
    order of the lists, depth first. *)
Fixpoint leaf_paths (path : string) (f : ret_func_t) : list string :=
  match f with
  | Leaf _ _ => [path]
  | Branch list =>
      flat_map (fun test =>
                  leaf_paths
                    (path ++ String RET_TOKEN_DELIMITER "" ++ tag test)
                    (func test))
               list
  end.

(** A function called at depth [m] with tag path [path] fits the limits:
    no list below it is refused by RET_MAX_NEST_SIZE and no tag by
    RET_MAX_TAG_STRING_SIZE. *)
Fixpoint fits (m : Z) (path : string) (f : ret_func_t) : bool :=
  match f with
  | Leaf _ _ => true
  | Branch list =>
      (m <? RET_MAX_NEST_SIZE)
      && forallb (fun test =>
                    (strlen path + strlen (tag test) + 1
                     <? RET_MAX_TAG_STRING_SIZE)
                    && fits (m + 1)
                         (path ++ String RET_TOKEN_DELIMITER "" ++ tag test)
                         (func test))
                 list
  end.

(** A tag path that starts with the root node. *)
Definition rooted (path : string) : Prop :=
  exists rest, path = ("@ROOT" ++ rest)%string
               /\ (rest = "" \/ exists r, rest = String "@" r).

(** Execute mode, the root tag as the target, below the root node. *)
Definition exe_root (st : engine) : Prop :=
  mode (param st) = RET_MODE_EXE
  /\ test_tag (param st) = RET_ROOT_TAG
  /\ rooted (tag_str st).

(** [walked paths st o]: the code that led from [st] to [o] ran the user
    logic of the leaves [paths], in that order, and nothing unwound. *)
Definition walked (paths : list string) (st : engine)
  (o : outcome ret_val_t) : Prop :=
  match o with
  | Returns _ st' =>
      mode (param st') = RET_MODE_EXE
      /\ bodies (trace st') = (bodies (trace st) ++ paths)%list
  | Longjmp _ val st' =>
      val = -1 /\ mode (param st') = RET_MODE_EXE
      /\ bodies (trace st') = (bodies (trace st) ++ paths)%list
  | Hangs => True
  | Stuck => True
  end.

(** What a call through [test->func] at depth [m] may come to. *)
Definition call_ok (call : ret_func_t -> engine -> outcome ret_val_t)
  (f : ret_func_t) : Prop :=
  forall (st : engine) (m : Z),
    nest st = m -> 1 <= m <= RET_MAX_NEST_SIZE -> frame_inv st ->
    match call f st with
    | Returns v st' => v <> RET_ERR_TAG /\ kept m st st'
    | Longjmp k val st' =>
        (k = m - 1 /\ val = -1 /\ kept m st st')
        \/ (k = 0 /\ val <> -1 /\ unwound st st')
    | Hangs => False
    | Stuck => False
    end
    /\ (exe_root st -> fits m (tag_str st) f = true ->
        walked (leaf_paths (tag_str st) f) st (call f st)).

(** What retExit leaves of the state [sc] it was called in. *)
Definition exit_ok (sc : engine) (o : outcome ret_val_t) : Prop :=
  match o with
  | Returns _ st' =>
      mode (param st') = mode (param sc)
      /\ bodies (trace st') = bodies (trace sc)
  | Longjmp _ _ _ => String.eqb (tag_str sc) (test_tag (param sc)) = true
  | Hangs => True
  | Stuck => True
  end.

(** The fit of one node of a list walked at tag path [path] by the frame
    owning slot [n]. *)
Definition node_fits (n : Z) (path : string) (test : ret_test_t) : bool :=
  (strlen path + strlen (tag test) + 1 <? RET_MAX_TAG_STRING_SIZE)
  && fits (n + 1) (path ++ String RET_TOKEN_DELIMITER "" ++ tag test)
       (func test).

Definition node_paths (path : string) (test : ret_test_t) : list string :=
  leaf_paths (path ++ String RET_TOKEN_DELIMITER "" ++ tag test) (func test).

(** What one pass of the loop of the frame owning slot [n] may come to. *)
Definition pass_ok (n : Z) (v : option ret_val_t) (err_flag : ret_val_t)
  (st : engine) (o : outcome ret_val_t) : Prop :=
  match o with
  | Returns err1 st' =>
      kept n st st'
      /\ slot_cursor (Z.to_nat n) st' = slot_cursor (Z.to_nat n) st
      /\ exists r, (match v with Some w => r = w | None => True end)
                   /\ results_at n (trace st')
                      = (results_at n (trace st) ++ [r])%list
                   /\ err1 = update_err_flag r err_flag
  | Longjmp k val st' => k = 0 /\ val <> -1 /\ unwound st st'
  | Hangs => False
  | Stuck => False
  end.

(** The value of [err_flag] after the results [vs], oldest first. *)
Definition aggregate (vs : list ret_val_t) (err_flag : ret_val_t)
  : ret_val_t :=
  fold_left (fun e v => update_err_flag v e) vs err_flag.

(** What the loop of the frame owning slot [n] may come to over [tests]. *)
Definition frame_ok (n : Z) (tests : ret_list_t) (err_flag : ret_val_t)
  (st : engine) (o : outcome ret_val_t) : Prop :=
  match o with
  | Returns r st' =>
      kept n st st'
      /\ slot_cursor (Z.to_nat n) st' = slot_cursor (Z.to_nat n) st
      /\ exists vs, results_at n (trace st')
                    = (results_at n (trace st) ++ vs)%list
                    /\ List.length vs = List.length tests
                    /\ r = aggregate vs err_flag
  | Longjmp k val st' => k = 0 /\ val <> -1 /\ unwound st st'
  | Hangs => False
  | Stuck => False
  end.

(** What retExecuteList may come to when called at depth [m]. *)
Definition list_ok (m : Z) (list : ret_list_t) (st : engine)
  (o : outcome ret_val_t) : Prop :=
  match o with
  | Returns r st' =>
      kept m st st'
      /\ if m <? RET_MAX_NEST_SIZE
         then exists vs, results_at m (trace st')
                         = (results_at m (trace st) ++ vs)%list
                         /\ List.length vs = List.length list
                         /\ r = aggregate vs RET_PASS
         else r = RET_FAIL /\ trace st' = trace st
  | Longjmp k val st' => k = 0 /\ val <> -1 /\ unwound st st'
  | Hangs => False
  | Stuck => False
  end.


(** A failing leaf followed by a sibling. *)
Definition failing_first_tree : ret_func_t :=
  Branch [mk_test (Leaf [SAssert 0 35 "a.c"; SSetRetval 7] RET_PASS) "A";
          mk_test (Leaf [] RET_PASS) "B"].

(** The state an outcome carries. *)
Definition state_of {A : Type} (o : outcome A) : engine :=
  match o with
  | Returns _ st => st
  | Longjmp _ _ st => st
  | _ => power_on
  end.

(** The loop head of the frame of [failing_first_tree] in a run with the
    target "@ROOT@A": slot 1 holds the cursor after "@ROOT". *)
Definition trunk_loop_head : engine :=
  {| next_line_number := 0; tag_str := "@ROOT"; tag_ptr := 5; nest := 1;
     buf := ""; is_pause := true;
     ret_env := [ {| env_tag_ptr := 0; timer := 0 |};
                  {| env_tag_ptr := 5; timer := 0 |};
                  {| env_tag_ptr := 0; timer := 0 |};
                  {| env_tag_ptr := 0; timer := 0 |};
                  {| env_tag_ptr := 0; timer := 0 |};
                  {| env_tag_ptr := 0; timer := 0 |} ];
     param := {| mode := RET_MODE_SKIP; test_tag := "@ROOT@A";
                 tag_found := 0; retval := 0 |};
     ticks := O; sink := []; top_store := -1; trace := [EvCall "@ROOT"] |}.

(** The same loop head in a run with the target "ROOT". *)
Definition trunk_loop_head_all : engine :=
  set_param {| mode := RET_MODE_EXE; test_tag := RET_ROOT_TAG;
               tag_found := 1; retval := 0 |} trunk_loop_head.

(** The root frame at its loop head in a run of [failing_first_tree] with
    the target "@ROOT@A", the state in which retExit is called for the
    failed leaf, and the state after its unwinding. *)
Definition root_loop_head : engine :=
  retStart_init (run_config RET_MODE_EXE "@ROOT@A") power_on.

Definition failed_leaf_exit : engine :=
  Eval vm_compute in
    log (EvResult 1 RET_FAIL)
      (state_of (retEnter tick_each_read (call_func tick_each_read)
                   (mk_test (Leaf [SAssert 0 35 "a.c"; SSetRetval 7] RET_PASS)
                      "A")
                   trunk_loop_head)).

Definition failed_leaf_unwound : engine :=
  Eval vm_compute in
    state_of (retExit tick_each_read RET_FAIL failed_leaf_exit).


(** ** Reading the report

    What the host reads in the text the engine sends. *)

(** The value of a decimal digit. *)
Definition digit_value (c : ascii) : option Z :=
  let n := Z.of_N (N_of_ascii c) in
  if (48 <=? n) && (n <=? 57) then Some (n - 48) else None.

(** [acc] followed by the decimal digits of [s]. *)
Fixpoint decimal_value_from (acc : Z) (s : string) : option Z :=
  match s with
  | EmptyString => Some acc
  | String c rest =>
      match digit_value c with
      | Some d => decimal_value_from (10 * acc + d) rest
      | None => None
      end
  end.

(** The number a non-empty string of decimal digits denotes. *)
Definition unsigned_value (s : string) : option Z :=
  match s with
  | EmptyString => None
  | _ => decimal_value_from 0 s
  end.

(** The number an optional minus sign and decimal digits denote. *)
Definition signed_value (s : string) : option Z :=
  match s with
  | EmptyString => None
  | String c rest =>
      if Ascii.eqb c "-" then option_map Z.opp (unsigned_value rest)
      else unsigned_value s
  end.

(** The text retDecimalDigits hands to retPutString for a width in range:
    [work] after the do-while. *)
Definition decimal_field (value width : Z) : string :=
  retDecimalDigits_loop (Z.to_nat width) value (blanks (Z.to_nat width)).

(** RET_REPORT_BUF_SIZE as a number of characters. *)
Definition capacity : nat := Z.to_nat RET_REPORT_BUF_SIZE.

(** No character of [s] is a line feed. *)
Definition no_line_feed (s : string) : bool :=
  forallb (fun c => negb (Ascii.eqb LF c)) (list_ascii_of_string s).

(** The characters retFormatLine writes for line [n]. *)
Definition line_text (msg_type : ascii) (n : Z) (str : string) : string :=
  String msg_type "," ++ decimal_field n 4 ++ ",    ,      ,"
  ++ (if strlen str >? RET_MAX_TAG_STRING_SIZE
      then "<string exceeds length limit>" else str)
  ++ String LF "".

(** The characters retTestLineFormat writes for line [n]. *)
Definition test_line_text (n : Z) (v : ret_val_t) (elapsed_time : Z)
  (path : string) : string :=
  "T," ++ decimal_field n 4 ++ "," ++ RET_RETVAL_STR v ++ ","
  ++ decimal_field elapsed_time 6 ++ "," ++ path ++ String LF "".

(** [reaches P o]: the state in which [o] returns or unwinds satisfies
    [P]. *)
Definition reaches {A : Type} (P : engine -> Prop) (o : outcome A) : Prop :=
  match o with
  | Returns _ st => P st
  | Longjmp _ _ st => P st
  | Hangs => True
  | Stuck => True
  end.

(** A text RET_SEND_BUF may be given. *)
Definition sendable (s : string) : Prop :=
  0 < strlen s <= RET_REPORT_BUF_SIZE.

(** [run_inv st0 st]: what holds of every state [st] of a run that was in
    [st0] before. *)
Record run_inv (st0 st : engine) : Prop := {
  ri_target : test_tag (param st) = test_tag (param st0);
  ri_search :
    ret_mode_eqb (mode (param st)) RET_MODE_SEARCH
    = ret_mode_eqb (mode (param st0)) RET_MODE_SEARCH;
  ri_bodies :
    exists new,
      bodies (trace st) = (bodies (trace st0) ++ new)%list
      /\ Forall (fun path => tag_token path (test_tag (param st0)) = true)
           new
      /\ (mode (param st0) = RET_MODE_SEARCH -> new = []);
  ri_buf : next_in st <= RET_REPORT_BUF_SIZE;
  ri_sink : exists sent,
              sink st = (sink st0 ++ sent)%list /\ Forall sendable sent
}.

(** A state in which a test function is called: in Execute mode only with
    the target in the tag path. *)
Definition call_point (st0 st : engine) : Prop :=
  run_inv st0 st
  /\ (mode (param st) = RET_MODE_EXE ->
      tag_token (tag_str st) (test_tag (param st)) = true).

(** [call_keeps st0 call f]: a call of [f] from a call point of the run
    keeps what holds of every state of the run. *)
Definition call_keeps (st0 : engine)
  (call : ret_func_t -> engine -> outcome ret_val_t) (f : ret_func_t)
  : Prop :=
  forall st, call_point st0 st -> reaches (run_inv st0) (call f st).

(** Tag paths of the nodes below a node with tag path [path], in the order
    in which retExit is called for them: a branch after its nodes. *)
Fixpoint nodes_below (path : string) (f : ret_func_t) : list string :=
  match f with
  | Leaf _ _ => []
  | Branch list =>
      flat_map (fun test =>
                  let node :=
                    (path ++ String RET_TOKEN_DELIMITER "" ++ tag test)
                      %string in
                  (nodes_below node (func test) ++ [node])%list)
               list
  end.

(** The line number after [k] more lines. *)
Fixpoint line_after (n : Z) (k : nat) : Z :=
  match k with
  | O => n
  | S k' => line_after (u32 (n + 1)) k'
  end.

(** The S lines of [paths], numbered from [n]. *)
Fixpoint search_text (n : Z) (paths : list string) : string :=
  match paths with
  | [] => ""
  | path :: rest =>
      (line_text "S" n path ++ search_text (u32 (n + 1)) rest)%string
  end.

(** Search mode, the root tag as the target, below the root node. *)
Definition search_root (st : engine) : Prop :=
  mode (param st) = RET_MODE_SEARCH
  /\ test_tag (param st) = RET_ROOT_TAG
  /\ rooted (tag_str st).

(** [listed r paths st o]: the code that led from [st] to [o] returned
    [r] after writing the S lines of [paths] to the buffer, as far as they
    fit, and sending nothing. *)
Definition listed (r : ret_val_t) (paths : list string) (st : engine)
  (o : outcome ret_val_t) : Prop :=
  match o with
  | Returns v st' =>
      v = r /\ mode (param st') = RET_MODE_SEARCH
      /\ buf st'
         = truncate capacity
             (buf st ++ search_text (next_line_number st) paths)
      /\ sink st' = sink st
      /\ next_line_number st'
         = line_after (next_line_number st) (List.length paths)
  | Longjmp _ _ _ => False
  | Hangs => True
  | Stuck => True
  end.

(** What a call through [test->func] at depth [m] comes to in a search
    for the root tag. *)
Definition call_listed (call : ret_func_t -> engine -> outcome ret_val_t)
  (f : ret_func_t) : Prop :=
  forall (st : engine) (m : Z),
    nest st = m -> 1 <= m <= RET_MAX_NEST_SIZE -> frame_inv st ->
    search_root st -> fits m (tag_str st) f = true ->
    next_in st <= RET_REPORT_BUF_SIZE ->
    listed RET_PASS (nodes_below (tag_str st) f) st (call f st).

(** A statement that writes nothing and does not fail: an assertion that
    holds, or an assignment to [param->retval]. *)
Definition quiet_stmt (s : stmt) : bool :=
  match s with
  | SAssert c _ _ => negb (c =? 0)
  | SSetRetval _ => true
  | _ => false
  end.

(** A leaf that fills the report buffer, followed by a node whose tag does
    not fit the tag path. *)
Definition noisy_then_long_tag_tree : ret_func_t :=
  Branch [mk_test (Leaf (repeat (SInfoLineFmt (filler 256)) 15) RET_PASS) "A";
          mk_test (Leaf [] RET_PASS) (filler 250)].


(** The root frame at its loop head in a run of [failing_first_tree] with
    the tag path of the root node as the target, the state in which its
    retExit is called for the root node, and the state after the unwinding
    of that retExit. *)
Definition root_path_loop_head : engine :=
  retStart_init (run_config RET_MODE_EXE "@ROOT") power_on.

Definition root_node_exit : engine :=
  Eval vm_compute in
    state_of (catch 0 (retEnter tick_each_read (call_func tick_each_read)
                         (mk_test failing_first_tree RET_ROOT_TAG)
                         root_path_loop_head)).

Definition root_node_unwound : engine :=
  Eval vm_compute in
    state_of (retExit tick_each_read RET_FAIL
                (log (EvResult 0 RET_FAIL) root_node_exit)).










(** * Properties *)

(** ** Output buffer *)

Lemma retPutChar_full (c : ascii) (st : engine) :
  next_in st = RET_REPORT_BUF_SIZE -> retPutChar c st = st.
Proof.
  intros H. unfold retPutChar. rewrite H. reflexivity.
Qed.

(** [quiet st0 st]: nothing was sent since [st0] and no flush per line. *)
Lemma retPutChar_quiet (st0 : engine) (c : ascii) (st : engine) :
  sink st = sink st0 /\ is_pause st = false ->
  sink (retPutChar c st) = sink st0 /\ is_pause (retPutChar c st) = false.
Proof.
  intros [Hs H]. unfold retPutChar.
  destruct (next_in st <? RET_REPORT_BUF_SIZE); [|auto].
  cbn [is_pause set_buf]. rewrite H, andb_false_r. cbn. auto.
Qed.

Lemma retPutString_quiet (st0 : engine) (s : string) : forall st,
  sink st = sink st0 /\ is_pause st = false ->
  sink (retPutString s st) = sink st0 /\ is_pause (retPutString s st) = false.
Proof.
  induction s as [|c s IH]; intros st H; cbn [retPutString]; [auto|].
  apply IH, retPutChar_quiet, H.
Qed.

Lemma retDecimalDigits_quiet (st0 : engine) (v w : Z) (st : engine) :
  sink st = sink st0 /\ is_pause st = false ->
  sink (retDecimalDigits v w st) = sink st0
  /\ is_pause (retDecimalDigits v w st) = false.
Proof.
  intros H. unfold retDecimalDigits.
  destruct ((0 <? w) && (w <? 10)); [|auto].
  apply retPutString_quiet, H.
Qed.

Lemma retFormatLine_no_pause (t : ascii) (str : string) (st : engine) :
  sink (retFormatLine t str RET_NO_PAUSE st) = sink st.
Proof.
  unfold retFormatLine, retPutLineFeed, retPutCommaSeparator.
  cbn [sink set_pause].
  match goal with |- sink ?s = _ => enough (H : sink s = sink st /\ is_pause s = false) by apply H end.
  repeat first [ apply retPutChar_quiet | apply retPutString_quiet
               | apply retDecimalDigits_quiet ].
  cbn. auto.
Qed.

(** retPutChar stores below the capacity, or not at all. *)
Lemma retPutChar_store_below_capacity (c : ascii) (st : engine) :
  is_pause st = false ->
  top_store (retPutChar c st)
  <= Z.max (top_store st) (RET_REPORT_BUF_SIZE - 1).
Proof.
  intros Hq. unfold retPutChar.
  destruct (next_in st <? RET_REPORT_BUF_SIZE) eqn:E; [|lia].
  apply Z.ltb_lt in E. cbn [is_pause set_buf]. rewrite Hq, andb_false_r.
  cbn [top_store set_buf]. lia.
Qed.

(** retSendBuffer stores the terminator at [next_in], whatever it is. *)
Lemma retSendBuffer_store (st : engine) :
  next_in st <> 0 -> next_in st <= top_store (retSendBuffer st).
Proof.
  intros H. unfold retSendBuffer.
  destruct (next_in st =? 0) eqn:E; [apply Z.eqb_eq in E; lia|].
  cbn. lia.
Qed.

(** ** Token test *)

Lemma sibling_tags_not_confused :
  tag_token "@ROOT@Test12" "Test1" = false
  /\ tag_token "@ROOT@Test1" "Test1" = true.
Proof. split; reflexivity. Qed.

(** C1 (the code departs from the claim).  The tag path
    "@ROOT@Test12@Test1" holds the token Test1, followed by the end of the
    string, yet retFindTagToken answers false and leaves [tag_found]
    alone: strstr stops at the first occurrence, the one inside Test12. *)
Theorem C1_first_occurrence_only :
  exact_token_occurs "@ROOT@Test12@Test1" "Test1" = true
  /\ tag_token "@ROOT@Test12@Test1" "Test1" = false
  /\ forall st : engine,
       tag_str st = "@ROOT@Test12@Test1" ->
       test_tag (param st) = "Test1" ->
       retFindTagToken st = (st, false).
Proof.
  split; [reflexivity|]. split; [reflexivity|].
  intros st Hp Ht. unfold retFindTagToken. rewrite Hp, Ht. reflexivity.
Qed.

(** The same input in a run: the leaf Test1 under the branch Test12 is
    reached with that path, its user logic does not run and the run reports
    that the path was not found. *)
Lemma nested_prefix_run :
  match retStart tick_each_read (run_config RET_MODE_EXE "Test1")
          nested_prefix_tree power_on with
  | Returns _ st =>
      calls (trace st) = ["@ROOT"; "@ROOT@Test12"; "@ROOT@Test12@Test1"]
      /\ bodies (trace st) = []
      /\ sink st = ["I,   0,    ,      ,test path not found" ++ String LF ""]
  | _ => False
  end.
Proof. vm_compute. repeat split. Qed.

(** ** Early termination *)

(** C2 (the code departs from the claim).  src/example run in Execute mode
    with the target Group1Test1, as test.c suggests: the leaf runs and gets
    the only T line, but the run does not unwind to the root when the leaf
    completes; group_2_tests and its two leaves are still called, in Skip
    mode.  retExit compares the whole tag path with the target, where its
    comment speaks of the last segment. *)
Theorem C2_bare_tag_keeps_walking :
  match retStart tick_each_read (run_config RET_MODE_EXE "Group1Test1")
          Example.RunTrunk power_on with
  | Returns _ st =>
      calls (trace st) =
        ["@ROOT"; "@ROOT@group_0_tests"; "@ROOT@group_0_tests@Group0Test0";
         "@ROOT@group_0_tests@Group0Test1"; "@ROOT@group_1_tests";
         "@ROOT@group_1_tests@Group1Test0"; "@ROOT@group_1_tests@Group1Test1";
         "@ROOT@group_1_tests@group_2_tests";
         "@ROOT@group_1_tests@group_2_tests@Group2Test0";
         "@ROOT@group_1_tests@group_2_tests@Group2Test1"]
      /\ bodies (trace st) = ["@ROOT@group_1_tests@Group1Test1"]
  | _ => False
  end.
Proof. vm_compute. split; reflexivity. Qed.

(** With the whole tag path as the target the run does end at the leaf. *)
Lemma full_path_target_unwinds :
  match retStart tick_each_read
          (run_config RET_MODE_EXE "@ROOT@group_1_tests@Group1Test1")
          Example.RunTrunk power_on with
  | Returns _ st =>
      calls (trace st) =
        ["@ROOT"; "@ROOT@group_0_tests"; "@ROOT@group_0_tests@Group0Test0";
         "@ROOT@group_0_tests@Group0Test1"; "@ROOT@group_1_tests";
         "@ROOT@group_1_tests@Group1Test0"; "@ROOT@group_1_tests@Group1Test1"]
      /\ bodies (trace st) = ["@ROOT@group_1_tests@Group1Test1"]
  | _ => False
  end.
Proof. vm_compute. split; reflexivity. Qed.

(** ** Search mode *)

(** C3 (the code departs from the claim).  retSearchLine passes
    RET_NO_PAUSE, so writing the S line, terminator included, sends nothing:
    the sink is as before.  Its comment says the line is sent
    immediately. *)
Theorem C3_search_line_stays_buffered (str : string) (st : engine) :
  sink (retSearchLine str st) = sink st.
Proof. apply retFormatLine_no_pause. Qed.

(** In a Search run the S lines reach the sink together, with the line
    feed that precedes DONE. *)
Lemma search_run_single_flush :
  match retStart tick_each_read (run_config RET_MODE_SEARCH "group_2_tests")
          Example.RunTrunk power_on with
  | Returns _ st =>
      bodies (trace st) = []
      /\ sink st =
           [("S,   0,    ,      ,@ROOT@group_1_tests@group_2_tests@Group2Test0"
             ++ String LF
                "S,   1,    ,      ,@ROOT@group_1_tests@group_2_tests@Group2Test1"
             ++ String LF
                "S,   2,    ,      ,@ROOT@group_1_tests@group_2_tests"
             ++ String LF (String LF ""))%string;
            "DONE"]
  | _ => False
  end.
Proof. vm_compute. split; reflexivity. Qed.

(** ** Report buffer bound *)

(** C4 (the code departs from the claim).  A leaf that writes fifteen info
    lines of 256 characters fills the buffer; retPutChar drops what follows,
    and retSendBuffer then stores the terminator at index
    RET_REPORT_BUF_SIZE, one past the last cell. *)
Theorem C4_terminator_past_capacity :
  match retStart tick_each_read (run_config RET_MODE_EXE RET_ROOT_TAG)
          noisy_tree power_on with
  | Returns _ st =>
      top_store st = RET_REPORT_BUF_SIZE
      /\ List.map String.length (sink st) = [4096%nat]
  | _ => False
  end.
Proof. vm_compute. split; reflexivity. Qed.

(** ** What the output routines leave alone *)

Lemma retSendBuffer_core (st : engine) : core (retSendBuffer st) = core st.
Proof. unfold retSendBuffer. destruct (next_in st =? 0); reflexivity. Qed.

Lemma retPutChar_core (c : ascii) (st : engine) :
  core (retPutChar c st) = core st.
Proof.
  unfold retPutChar. destruct (next_in st <? RET_REPORT_BUF_SIZE); [|easy].
  destruct (_ && _); [rewrite retSendBuffer_core|]; reflexivity.
Qed.

Lemma retPutString_core (s : string) : forall st,
  core (retPutString s st) = core st.
Proof.
  induction s as [|c s IH]; intros st; cbn [retPutString]; [easy|].
  rewrite IH. apply retPutChar_core.
Qed.

Lemma retDecimalDigits_core (v w : Z) (st : engine) :
  core (retDecimalDigits v w st) = core st.
Proof.
  unfold retDecimalDigits. destruct (_ && _); [|easy].
  apply retPutString_core.
Qed.

Lemma set_line_core (n : Z) (st : engine) : core (set_line n st) = core st.
Proof. reflexivity. Qed.

Lemma retTestLineFormat_core (v : ret_val_t) (t : Z) (st : engine) :
  core (retTestLineFormat v t st) = core st.
Proof.
  unfold retTestLineFormat, retPutLineFeed, retPutCommaSeparator.
  repeat first [ rewrite retPutChar_core | rewrite retPutString_core
               | rewrite retDecimalDigits_core | rewrite set_line_core ].
  reflexivity.
Qed.

Lemma core_fields (a b : engine) :
  core a = core b ->
  tag_str a = tag_str b /\ tag_ptr a = tag_ptr b /\ nest a = nest b
  /\ is_pause a = is_pause b /\ ret_env a = ret_env b /\ param a = param b
  /\ ticks a = ticks b /\ trace a = trace b.
Proof. unfold core. intros H. injection H. intuition. Qed.

(** Without its first and last assignment retFormatLine keeps all of
    [core] but the flag; the last assignment restores the flag. *)
Lemma retFormatLine_core (t : ascii) (str : string) (pause : bool)
  (st : engine) :
  core (retFormatLine t str pause st) = core st.
Proof.
  unfold retFormatLine, retPutLineFeed, retPutCommaSeparator.
  match goal with
  | |- core (set_pause _ ?s) = _ =>
      assert (H : core s = core (set_pause pause st))
  end.
  { repeat first [ rewrite retPutChar_core | rewrite retPutString_core
                 | rewrite retDecimalDigits_core | rewrite set_line_core ].
    reflexivity. }
  apply core_fields in H. cbn [tag_str tag_ptr nest ret_env param ticks trace
    set_pause] in H. unfold core. cbn [tag_str tag_ptr nest ret_env param
    ticks trace is_pause set_pause].
  destruct H as (-> & -> & -> & _ & -> & -> & -> & ->). reflexivity.
Qed.

Lemma retInfoLine_core (str : string) (pause : bool) (st : engine) :
  core (retInfoLine str pause st) = core st.
Proof. apply retFormatLine_core. Qed.

Lemma retInfoLineFmt_core (str : string) (st : engine) :
  core (retInfoLineFmt str st) = core st.
Proof. apply retFormatLine_core. Qed.

Lemma retSearchLine_core (str : string) (st : engine) :
  core (retSearchLine str st) = core st.
Proof. apply retFormatLine_core. Qed.


(** ** Tag path: append and remove *)

Lemma truncate_app (s t : string) :
  truncate (String.length s) (s ++ t) = s.
Proof. induction s as [|c s IH]; cbn; [destruct t|]; congruence. Qed.

Lemma set_path_same (st : engine) :
  set_path (tag_str st) (tag_ptr st) (nest st) st = st.
Proof. destruct st; reflexivity. Qed.

(** A refused append: the cursor moved forward is moved back. *)
Lemma retAddTag_overflow (tag : string) (st : engine) :
  tag_ptr st + 1 + strlen tag >= RET_MAX_TAG_STRING_SIZE ->
  retAddTag tag st = Returns RET_ERR_TAG st.
Proof.
  intros H. unfold retAddTag. cbn [tag_ptr set_tag_ptr set_path].
  destruct (tag_ptr st + strlen tag + 1 <? RET_MAX_TAG_STRING_SIZE) eqn:E.
  - apply Z.ltb_lt in E. lia.
  - cbn [negb]. f_equal. destruct st; reflexivity.
Qed.

(** An accepted append, with the cursor on the terminator. *)
Lemma retAddTag_pass (tag : string) (st st1 : engine) :
  retAddTag tag st = Returns RET_PASS st1 ->
  tag_ptr st + strlen tag + 1 < RET_MAX_TAG_STRING_SIZE
  /\ st1 = set_path (tag_str st ++ String RET_TOKEN_DELIMITER "" ++ tag)
             (tag_ptr st + strlen tag + 1) (u32 (nest st + 1)) st.
Proof.
  unfold retAddTag. cbn [tag_ptr tag_str nest set_tag_ptr set_path].
  destruct (tag_ptr st + strlen tag + 1 <? RET_MAX_TAG_STRING_SIZE) eqn:E;
    cbn [negb]; [|discriminate].
  destruct (_ && _); [|discriminate].
  destruct (strlen _ <? _); [|discriminate].
  intros H. apply Z.ltb_lt in E. split; [exact E|].
  inversion H. reflexivity.
Qed.

(** C9.  In a state whose cursor is on the terminator of the tag path and
    whose environment slot for the current depth holds that cursor, an
    accepted retAddTag followed by retRemoveTag of that depth gives back the
    state before the append: same tag path, same cursor, same depth. *)
Theorem C9_append_remove_roundtrip (tag : string) (st st1 : engine)
  (e : ret_env_t) :
  tag_ptr st = strlen (tag_str st) ->
  env_at (nest st) st = Some e ->
  env_tag_ptr e = tag_ptr st ->
  retAddTag tag st = Returns RET_PASS st1 ->
  retRemoveTag (nest st) st1 = Returns tt st
  /\ tag_str st1 = (tag_str st ++ String RET_TOKEN_DELIMITER "" ++ tag)%string.
Proof.
  intros Hcur Henv He Hadd.
  apply retAddTag_pass in Hadd. destruct Hadd as [Hfit ->].
  split; [|reflexivity].
  unfold retRemoveTag.
  assert (Hn : (0 <=? nest st) && (nest st <? RET_MAX_NEST_SIZE) = true).
  { unfold env_at in Henv. destruct (_ && _); [reflexivity|discriminate]. }
  apply andb_prop in Hn. destruct Hn as [_ Hn]. apply Z.ltb_lt in Hn.
  destruct (nest st >=? RET_MAX_NEST_SIZE) eqn:E.
  { apply Z.geb_le in E. lia. }
  change (env_at (nest st) (set_path _ _ _ st)) with (env_at (nest st) st).
  rewrite Henv, He.
  assert (Hlen : 0 <= strlen tag) by (unfold strlen; lia).
  assert (H0 : 0 <= tag_ptr st) by (rewrite Hcur; unfold strlen; lia).
  replace ((0 <=? tag_ptr st) && (tag_ptr st <? RET_MAX_TAG_STRING_SIZE))
    with true
    by (symmetry; apply andb_true_intro; split;
        [apply Z.leb_le | apply Z.ltb_lt]; lia).
  f_equal. cbn [tag_str set_path].
  rewrite Hcur at 1. unfold strlen. rewrite Nat2Z.id, truncate_app.
  destruct st; reflexivity.
Qed.

Lemma C9_append_remove_roundtrip_witness :
  retRemoveTag 0
    (set_path "@ROOT" 5 1 power_on) = Returns tt power_on
  /\ tag_str (set_path "@ROOT" 5 1 power_on) = "@ROOT".
Proof.
  apply (C9_append_remove_roundtrip "ROOT" power_on
           (set_path "@ROOT" 5 1 power_on)
           {| env_tag_ptr := 0; timer := 0 |});
    reflexivity.
Defined.

(** ** Tag overflow in the executor *)

Lemma calls_app (a b : list event) : calls (a ++ b) = (calls a ++ calls b)%list.
Proof. apply flat_map_app. Qed.

Lemma bodies_app (a b : list event) :
  bodies (a ++ b) = (bodies a ++ bodies b)%list.
Proof. apply flat_map_app. Qed.

Lemma for_loop_cons (HAL_GetTick : nat -> Z)
  (call : ret_func_t -> engine -> outcome ret_val_t)
  (test : ret_test_t) (rest : ret_list_t) (err_flag : ret_val_t)
  (st : engine) :
  for_loop HAL_GetTick call (test :: rest) err_flag st
  = bind (loop_body HAL_GetTick call test err_flag st)
      (fun err1 st1 => for_loop HAL_GetTick call rest err1 st1).
Proof. reflexivity. Qed.

Lemma loop_body_in_range (HAL_GetTick : nat -> Z)
  (call : ret_func_t -> engine -> outcome ret_val_t)
  (test : ret_test_t) (err_flag : ret_val_t) (st : engine) :
  0 <= nest st < RET_MAX_NEST_SIZE ->
  loop_body HAL_GetTick call test err_flag st
  = bind (catch (nest st) (retEnter HAL_GetTick call test st))
      (fun v st1 => after_setjmp HAL_GetTick (nest st) v err_flag st1).
Proof.
  intros H. unfold loop_body.
  replace ((0 <=? nest st) && (nest st <? RET_MAX_NEST_SIZE)) with true;
    [reflexivity|].
  symmetry; apply andb_true_intro; split;
    [apply Z.leb_le | apply Z.ltb_lt]; lia.
Qed.

Lemma after_setjmp_tag_error (HAL_GetTick : nat -> Z) (slot : Z)
  (err_flag : ret_val_t) (st : engine) :
  after_setjmp HAL_GetTick slot RET_ERR_TAG err_flag st
  = Returns RET_FAIL
      (retTestLineFormat RET_ERR_TAG 0 (log (EvResult slot RET_ERR_TAG) st)).
Proof. reflexivity. Qed.

Lemma tag_overflow_step (HAL_GetTick : nat -> Z)
  (call : ret_func_t -> engine -> outcome ret_val_t)
  (test : ret_test_t) (rest : ret_list_t) (err_flag : ret_val_t)
  (st st1 st2 : engine) :
  tag_ptr st + 1 + strlen (tag test) >= RET_MAX_TAG_STRING_SIZE ->
  0 <= nest st < RET_MAX_NEST_SIZE ->
  st1 = retInfoLineFmt RET_TAG_ERR_MSG st ->
  st2 = retTestLineFormat RET_ERR_TAG 0
          (log (EvResult (nest st) RET_ERR_TAG) st1) ->
  retAddTag (tag test) st = Returns RET_ERR_TAG st
  /\ retEnter HAL_GetTick call test st = Returns RET_ERR_TAG st1
  /\ for_loop HAL_GetTick call (test :: rest) err_flag st
     = for_loop HAL_GetTick call rest RET_FAIL st2
  /\ tag_str st2 = tag_str st /\ tag_ptr st2 = tag_ptr st
  /\ nest st2 = nest st
  /\ calls (trace st2) = calls (trace st).
Proof.
  intros Hover Hnest E1 E2.
  pose proof (retAddTag_overflow (tag test) st Hover) as Hadd.
  assert (Henter : retEnter HAL_GetTick call test st = Returns RET_ERR_TAG st1).
  { unfold retEnter. rewrite Hadd, E1. reflexivity. }
  pose proof (retInfoLineFmt_core RET_TAG_ERR_MSG st) as H1.
  rewrite <- E1 in H1. apply core_fields in H1.
  destruct H1 as (Hs1 & Hp1 & Hn1 & _ & _ & _ & _ & Ht1).
  pose proof (retTestLineFormat_core RET_ERR_TAG 0
                (log (EvResult (nest st) RET_ERR_TAG) st1)) as H2.
  rewrite <- E2 in H2. apply core_fields in H2.
  cbn [tag_str tag_ptr nest trace log] in H2.
  destruct H2 as (Hs2 & Hp2 & Hn2 & _ & _ & _ & _ & Ht2).
  split; [exact Hadd|]. split; [exact Henter|].
  split; [|split; [congruence|split; [congruence|split; [congruence|]]]].
  - rewrite for_loop_cons, (loop_body_in_range _ _ _ _ _ Hnest), Henter.
    cbn [catch bind]. rewrite after_setjmp_tag_error, <- E2. reflexivity.
  - rewrite Ht2, Ht1, calls_app. cbn [calls flat_map]. apply app_nil_r.
Qed.


(** ** What the unwinding of retExit carries *)

Lemma retRemoveTag_outcome (n : Z) (st : engine) :
  (exists st1, retRemoveTag n st = Returns tt st1)
  \/ retRemoveTag n st = Stuck.
Proof.
  unfold retRemoveTag. destruct (n >=? RET_MAX_NEST_SIZE); [eauto|].
  destruct (env_at n st); [|auto]. destruct (_ && _); eauto.
Qed.

Section Unwinding.

Variable HAL_GetTick : nat -> Z.

Lemma retExit_report_outcome (v : ret_val_t) (st : engine) :
  (exists st1, retExit_report HAL_GetTick v st = Returns tt st1)
  \/ retExit_report HAL_GetTick v st = Stuck.
Proof.
  unfold retExit_report. destruct (retFindTagToken st) as [st1 found].
  destruct found; [|eauto].
  destruct (negb _); [|eauto]. destruct (env_at _ _); [|auto].
  unfold RET_SYS_TICK_FUNC. eauto.
Qed.

(** The only longjmp of retExit goes to slot 0 and carries the node's
    result, which setjmp hands over as 1 when it is RET_PASS. *)
Lemma retExit_longjmp (v : ret_val_t) (st st' : engine) (k val : Z) :
  retExit HAL_GetTick v st = Longjmp k val st' ->
  k = 0 /\ val = (if ret_val_eqb v RET_PASS then 1 else ret_val_int v)
  /\ v <> RET_ERR_TAG.
Proof.
  unfold retExit. destruct (ret_val_eqb v RET_ERR_TAG) eqn:Ev; [discriminate|].
  destruct (retExit_report_outcome v st) as [[st1 ->] | ->];
    [|discriminate]. cbn [bind].
  destruct (String.eqb _ _).
  - destruct (retRemoveTag_outcome 0 st1) as [[st2 ->] | ->];
      [|discriminate]. cbn [bind]. unfold longjmp. cbn.
    intros H. inversion H. subst. split; [reflexivity|].
    split; [destruct v; reflexivity | intros ->; discriminate].
  - destruct (negb _).
    + destruct (retRemoveTag_outcome (u32 (nest st1 - 1)) st1)
        as [[st2 ->] | ->]; discriminate.
    + discriminate.
Qed.

End Unwinding.

(** ** Strings and decimal conversion *)

Lemma strlen_app (a b : string) : strlen (a ++ b) = strlen a + strlen b.
Proof.
  unfold strlen. induction a as [|c a IH]; cbn [String.append String.length].
  - lia.
  - rewrite !Nat2Z.inj_succ. lia.
Qed.

Lemma strlen_nonneg (s : string) : 0 <= strlen s.
Proof. unfold strlen. lia. Qed.

Lemma length_string_of_list (l : list ascii) :
  String.length (string_of_list_ascii l) = List.length l.
Proof. induction l as [|c l IH]; cbn; congruence. Qed.

Lemma length_list_of_string (s : string) :
  List.length (list_ascii_of_string s) = String.length s.
Proof. induction s as [|c s IH]; cbn; congruence. Qed.

Lemma strlen_rev (s : string) : strlen (string_rev s) = strlen s.
Proof.
  unfold strlen, string_rev.
  rewrite length_string_of_list, length_rev, length_list_of_string.
  reflexivity.
Qed.

Lemma retConvIntToDecAscii_loop_length (n : nat) : forall v,
  (String.length (retConvIntToDecAscii_loop n v) <= n)%nat.
Proof.
  induction n as [|n IH]; intros v; cbn [retConvIntToDecAscii_loop].
  - cbn. lia.
  - cbn [String.length]. destruct (Z.quot v 10 =? 0).
    + cbn. lia.
    + specialize (IH (Z.quot v 10)). lia.
Qed.

Lemma retConvIntToDecAscii_some (v : Z) :
  v <> -2147483648 ->
  exists s, retConvIntToDecAscii v = Some s /\ strlen s <= 11.
Proof.
  intros H. unfold retConvIntToDecAscii.
  destruct (v =? -2147483648) eqn:E; [apply Z.eqb_eq in E; contradiction|].
  eexists. split; [reflexivity|]. rewrite strlen_rev.
  destruct (v <? 0).
  - rewrite strlen_app. unfold strlen at 2. cbn [String.length].
    pose proof (retConvIntToDecAscii_loop_length 10 (- v)).
    unfold strlen. lia.
  - pose proof (retConvIntToDecAscii_loop_length 10 v). unfold strlen. lia.
Qed.

Lemma assert_text_fits (line : Z) (file : string) (rv : Z) :
  -2147483648 < line < 2147483648 -> strlen file <= 80 ->
  -2147483648 < rv < 2147483648 ->
  exists msg, assert_text line file rv = Some msg /\ strlen msg < 128.
Proof.
  intros Hl Hf Hr. unfold assert_text.
  destruct (retConvIntToDecAscii_some line) as (l & -> & Hll); [lia|].
  destruct (retConvIntToDecAscii_some rv) as (r & -> & Hrl); [lia|].
  eexists. split; [reflexivity|].
  rewrite !strlen_app.
  change (strlen "Assert at line ") with 15.
  change (strlen " of ") with 4. change (strlen " == ") with 4. lia.
Qed.

(** ** Relations between states *)

Lemma kept_refl (m : Z) (st : engine) : kept m st st.
Proof. constructor; auto. Qed.

Lemma kept_trans (m : Z) (a b c : engine) :
  kept m a b -> kept m b c -> kept m a c.
Proof.
  intros [] []. constructor; try congruence.
  - intros k Hk. rewrite kept_env1, kept_env0; auto.
  - auto.
  - intros k Hk. rewrite kept_results1, kept_results0; auto.
Qed.

Lemma kept_weaken (m n : Z) (a b : engine) :
  n <= m -> kept m a b -> kept n a b.
Proof.
  intros H []. constructor; auto.
  - intros k Hk. apply kept_env0. lia.
  - intros k Hk. apply kept_results0. lia.
Qed.

Lemma kept_of_core (m : Z) (a b : engine) : core b = core a -> kept m a b.
Proof.
  intros H. apply core_fields in H.
  destruct H as (Hs & Hp & Hn & Hq & He & Hpar & _ & Ht).
  constructor; try congruence.
  unfold retval_ok. rewrite Hpar. auto.
Qed.

Lemma frame_inv_kept (m : Z) (a b : engine) :
  1 <= m -> frame_inv a -> kept m a b -> frame_inv b.
Proof.
  intros Hm [] []. constructor.
  - congruence.
  - congruence.
  - congruence.
  - unfold slot_cursor in *. rewrite (kept_env0 O); [assumption | cbn; lia].
  - auto.
Qed.

Lemma results_at_app (k : Z) (a b : list event) :
  results_at k (a ++ b) = (results_at k a ++ results_at k b)%list.
Proof. apply flat_map_app. Qed.

Lemma ends_app (a b : list event) : ends (a ++ b) = (ends a ++ ends b)%list.
Proof. apply flat_map_app. Qed.

Lemma user_core_of_core (a b : engine) :
  core b = core a -> user_core b = user_core a.
Proof.
  intros H. apply core_fields in H.
  destruct H as (Hs & Hp & Hn & Hq & He & Hpar & Hti & Ht).
  unfold user_core. congruence.
Qed.

Lemma user_core_fields (a b : engine) :
  user_core b = user_core a ->
  tag_str b = tag_str a /\ tag_ptr b = tag_ptr a /\ nest b = nest a
  /\ is_pause b = is_pause a /\ ret_env b = ret_env a
  /\ mode (param b) = mode (param a)
  /\ test_tag (param b) = test_tag (param a)
  /\ tag_found (param b) = tag_found (param a)
  /\ ticks b = ticks a /\ trace b = trace a.
Proof. unfold user_core. intros H. injection H. intuition. Qed.

Lemma kept_of_user_core (m : Z) (a b : engine) :
  user_core b = user_core a -> (retval_ok a -> retval_ok b) -> kept m a b.
Proof.
  intros H Hr. apply user_core_fields in H.
  destruct H as (Hs & Hp & Hn & Hq & He & _ & Htt & _ & _ & Ht).
  constructor; try congruence. assumption.
Qed.

(** ** Leaf statements *)

Lemma retAssert_true (c line : Z) (file : string) (st : engine) :
  c <> 0 -> retAssert c line file st = Returns tt st.
Proof.
  intros H. unfold retAssert.
  destruct (c =? 0) eqn:E; [apply Z.eqb_eq in E; contradiction|].
  reflexivity.
Qed.

Lemma retAssert_false (line : Z) (file msg : string) (st : engine) :
  assert_text line file (retval (param st)) = Some msg ->
  strlen msg < 128 ->
  1 <= nest st <= RET_MAX_NEST_SIZE ->
  retAssert 0 line file st
  = Longjmp (nest st - 1) (-1) (retInfoLineFmt msg st).
Proof.
  intros Ht Hl Hn. unfold retAssert. cbn [Z.eqb negb]. rewrite Ht.
  apply Z.ltb_lt in Hl. rewrite Hl. unfold longjmp, RET_MAX_NEST_SIZE in *.
  assert (E : u32 (nest st - 1) = nest st - 1)
    by (unfold u32; apply Z.mod_small; lia).
  rewrite E.
  replace ((0 <=? nest st - 1) && (nest st - 1 <? 6)) with true
    by (symmetry; apply andb_true_intro; split;
        [apply Z.leb_le | apply Z.ltb_lt]; lia).
  reflexivity.
Qed.

Lemma s32_range (v : Z) : -2147483648 <= s32 v < 2147483648.
Proof.
  unfold s32.
  pose proof (Z.mod_pos_bound (v + 2147483648) 4294967296 ltac:(lia)). lia.
Qed.

(** A statement of a leaf either falls through, having touched only the
    report and [param->retval], or is a failing assertion that wrote its
    info line and jumps to the slot of the frame that called the leaf. *)
Lemma run_stmt_spec (s : stmt) (st : engine) :
  stmt_ok s = true -> retval_ok st ->
  1 <= nest st <= RET_MAX_NEST_SIZE ->
  match run_stmt s st with
  | Returns _ st' => user_core st' = user_core st /\ retval_ok st'
  | Longjmp k val st' =>
      k = nest st - 1 /\ val = -1
      /\ user_core st' = user_core st /\ retval_ok st'
  | Hangs => False
  | Stuck => False
  end.
Proof.
  intros Hok Hrv Hn. destruct s as [c line file | str | str pause | v];
    cbn [run_stmt stmt_ok] in *.
  - destruct (Z.eq_dec c 0) as [-> | Hc].
    + cbn [Z.eqb negb orb] in Hok.
      apply andb_prop in Hok. destruct Hok as [Hok Hf].
      apply andb_prop in Hok. destruct Hok as [Hl1 Hl2].
      apply Z.ltb_lt in Hl1, Hl2. apply Z.leb_le in Hf.
      destruct (assert_text_fits line file (retval (param st)))
        as (msg & Hm & Hlen); [lia | lia | exact Hrv |].
      rewrite (retAssert_false line file msg st Hm Hlen Hn).
      pose proof (retInfoLineFmt_core msg st) as Hc.
      split; [reflexivity|]. split; [reflexivity|].
      split; [apply user_core_of_core, Hc|].
      apply core_fields in Hc. unfold retval_ok.
      destruct Hc as (_ & _ & _ & _ & _ & -> & _). exact Hrv.
    + rewrite (retAssert_true c line file st Hc). auto.
  - pose proof (retInfoLineFmt_core str st) as Hc.
    split; [apply user_core_of_core, Hc|].
    apply core_fields in Hc. unfold retval_ok.
    destruct Hc as (_ & _ & _ & _ & _ & -> & _). exact Hrv.
  - pose proof (retInfoLine_core str pause st) as Hc.
    split; [apply user_core_of_core, Hc|].
    apply core_fields in Hc. unfold retval_ok.
    destruct Hc as (_ & _ & _ & _ & _ & -> & _). exact Hrv.
  - split; [reflexivity|]. unfold retval_ok. cbn [retval param set_param
      set_retval]. apply negb_true_iff, Z.eqb_neq in Hok.
    pose proof (s32_range v). lia.
Qed.

Lemma run_body_spec (body : list stmt) : forall st,
  forallb stmt_ok body = true -> retval_ok st ->
  1 <= nest st <= RET_MAX_NEST_SIZE ->
  match run_body body st with
  | Returns _ st' => user_core st' = user_core st /\ retval_ok st'
  | Longjmp k val st' =>
      k = nest st - 1 /\ val = -1
      /\ user_core st' = user_core st /\ retval_ok st'
  | Hangs => False
  | Stuck => False
  end.
Proof.
  induction body as [|s body IH]; intros st Hok Hrv Hn; cbn [run_body].
  - auto.
  - cbn [forallb] in Hok. apply andb_prop in Hok. destruct Hok as [Hs Hb].
    pose proof (run_stmt_spec s st Hs Hrv Hn) as H1.
    destruct (run_stmt s st) as [[] st1 | k val st1 | |]; cbn [bind];
      try assumption.
    destruct H1 as [Hc1 Hr1].
    assert (Hn1 : nest st1 = nest st)
      by (apply user_core_fields in Hc1; tauto).
    specialize (IH st1 Hb Hr1). rewrite Hn1 in IH. specialize (IH Hn).
    destruct (run_body body st1) as [[] st2 | k val st2 | |];
      try assumption.
    + destruct IH as [Hc2 Hr2]. split; [congruence | assumption].
    + destruct IH as (-> & -> & Hc2 & Hr2).
      split; [reflexivity|]. split; [reflexivity|].
      split; [congruence | assumption].
Qed.

(** ** Steps that keep the position of the walk *)

Lemma same_walk_refl (st : engine) : same_walk st st.
Proof. constructor; reflexivity. Qed.

Lemma same_walk_trans (a b c : engine) :
  same_walk a b -> same_walk b c -> same_walk a c.
Proof. intros [] []. constructor; congruence. Qed.

Lemma same_walk_of_core (a b : engine) : core b = core a -> same_walk a b.
Proof.
  intros H. apply core_fields in H.
  destruct H as (Hs & Hp & Hn & Hq & He & Hpar & _ & Ht).
  constructor; congruence.
Qed.

Lemma kept_of_same_walk (m : Z) (a b : engine) : same_walk a b -> kept m a b.
Proof.
  intros []. constructor; try congruence. unfold retval_ok. congruence.
Qed.

Lemma retFindTagToken_found (st : engine) :
  snd (retFindTagToken st) = tag_token (tag_str st) (test_tag (param st)).
Proof. unfold retFindTagToken. destruct (tag_token _ _); reflexivity. Qed.

Lemma retFindTagToken_walk (st : engine) :
  same_walk st (fst (retFindTagToken st)).
Proof.
  unfold retFindTagToken. destruct (tag_token _ _); cbn [fst].
  - constructor; reflexivity.
  - apply same_walk_refl.
Qed.

Lemma retTestLineFormat_walk (v : ret_val_t) (t : Z) (st : engine) :
  same_walk st (retTestLineFormat v t st).
Proof. apply same_walk_of_core, retTestLineFormat_core. Qed.

Lemma retFormatLine_walk (c : ascii) (str : string) (pause : bool)
  (st : engine) :
  same_walk st (retFormatLine c str pause st).
Proof. apply same_walk_of_core, retFormatLine_core. Qed.

Lemma log_results (k : Z) (e : event) (st : engine) :
  results_at k (trace (log e st))
  = (results_at k (trace st)
     ++ match e with
        | EvResult j v => if j =? k then [v] else []
        | _ => []
        end)%list.
Proof.
  cbn [trace log]. rewrite results_at_app. cbn [results_at flat_map].
  rewrite app_nil_r. reflexivity.
Qed.

Lemma log_ends (e : event) (st : engine) :
  ends (trace (log e st))
  = (ends (trace st)
     ++ match e with
        | EvDone => [EvDone]
        | EvPathNotFound => [EvPathNotFound]
        | _ => []
        end)%list.
Proof.
  cbn [trace log]. rewrite ends_app. cbn [ends flat_map].
  rewrite app_nil_r. reflexivity.
Qed.

(** Logging a call, a body or a result of slot [m] or deeper. *)
Lemma kept_log (m : Z) (e : event) (st : engine) :
  match e with
  | EvResult k _ => m <= k
  | EvDone | EvPathNotFound => False
  | _ => True
  end ->
  kept m st (log e st).
Proof.
  intros H. constructor; try reflexivity; try (intros; assumption).
  - intros k Hk. rewrite log_results. destruct e; try apply app_nil_r.
    destruct (slot =? k) eqn:E; [apply Z.eqb_eq in E; lia | apply app_nil_r].
  - rewrite log_ends. destruct e; try apply app_nil_r; contradiction.
Qed.

Lemma base_refl (st : engine) : base st st.
Proof. constructor; reflexivity. Qed.

Lemma base_trans (a b c : engine) : base a b -> base b c -> base a c.
Proof. intros [] []. constructor; congruence. Qed.

Lemma base_of_kept (m : Z) (a b : engine) : 1 <= m -> kept m a b -> base a b.
Proof.
  intros Hm []. constructor; try assumption.
  - unfold slot_cursor. rewrite (kept_env0 O); [reflexivity | cbn; lia].
  - apply kept_results0. lia.
Qed.

Lemma unwound_after (a b c : engine) : base a b -> unwound b c -> unwound a c.
Proof.
  intros Hab []. constructor; try assumption.
  eapply base_trans; eassumption.
Qed.

(** ** A leaf function *)

Lemma call_leaf_spec (body : list stmt) (result : ret_val_t) (st : engine)
  (m : Z) :
  forallb stmt_ok body = true -> result <> RET_ERR_TAG ->
  nest st = m -> 1 <= m <= RET_MAX_NEST_SIZE -> retval_ok st ->
  match call_leaf body result st with
  | Returns v st' => v <> RET_ERR_TAG /\ kept m st st'
  | Longjmp k val st' => k = m - 1 /\ val = -1 /\ kept m st st'
  | Hangs => False
  | Stuck => False
  end.
Proof.
  intros Hb Hres Hn Hm Hrv. unfold call_leaf.
  destruct (search_guard st).
  - split; [discriminate | apply kept_refl].
  - assert (Hk : kept m st (log (EvBody (tag_str st)) st))
      by (apply kept_log; exact I).
    pose proof (run_body_spec body (log (EvBody (tag_str st)) st) Hb) as H.
    cbn [nest log] in H. rewrite Hn in H. specialize (H Hrv Hm).
    destruct (run_body body _) as [[] st1 | k val st1 | |]; cbn [bind];
      try assumption.
    + destruct H as [Hc Hr]. split; [assumption|].
      eapply kept_trans; [exact Hk|].
      apply kept_of_user_core; [exact Hc | intros _; exact Hr].
    + destruct H as (-> & -> & Hc & Hr).
      split; [reflexivity|]. split; [reflexivity|].
      eapply kept_trans; [exact Hk|].
      apply kept_of_user_core; [exact Hc | intros _; exact Hr].
Qed.

(** ** retAddTag and the mode switch in a run *)

Lemma nth_error_list_set {A : Type} (x : A) (l : list A) : forall i k,
  nth_error (list_set i x l) k
  = if Nat.eqb k i
    then match nth_error l k with Some _ => Some x | None => None end
    else nth_error l k.
Proof.
  induction l as [|y l IH]; intros i k.
  - destruct i, k; cbn; try reflexivity. destruct (Nat.eqb k i); reflexivity.
  - destruct i as [|i], k as [|k]; cbn; try reflexivity. apply IH.
Qed.

Lemma length_list_set {A : Type} (x : A) (l : list A) : forall i,
  List.length (list_set i x l) = List.length l.
Proof.
  induction l as [|y l IH]; intros i; [destruct i; reflexivity|].
  destruct i; cbn; [reflexivity | f_equal; apply IH].
Qed.

Lemma u32_small (z : Z) : 0 <= z < 4294967296 -> u32 z = z.
Proof. intros H. unfold u32. apply Z.mod_small. exact H. Qed.

Lemma env_at_some (i : Z) (st : engine) :
  0 <= i < RET_MAX_NEST_SIZE -> List.length (ret_env st) = 6%nat ->
  exists e, env_at i st = Some e
            /\ nth_error (ret_env st) (Z.to_nat i) = Some e.
Proof.
  intros Hi Hl. unfold env_at.
  replace ((0 <=? i) && (i <? RET_MAX_NEST_SIZE)) with true
    by (symmetry; apply andb_true_intro; split;
        [apply Z.leb_le | apply Z.ltb_lt]; lia).
  destruct (nth_error (ret_env st) (Z.to_nat i)) as [e|] eqn:E; [eauto|].
  apply nth_error_None in E. unfold RET_MAX_NEST_SIZE in Hi. lia.
Qed.

Lemma retAddTag_inv (tag : string) (st : engine) :
  frame_inv st -> 0 <= nest st < RET_MAX_NEST_SIZE ->
  (tag_ptr st + 1 + strlen tag >= RET_MAX_TAG_STRING_SIZE
   /\ retAddTag tag st = Returns RET_ERR_TAG st)
  \/ (tag_ptr st + strlen tag + 1 < RET_MAX_TAG_STRING_SIZE
      /\ retAddTag tag st
         = Returns RET_PASS
             (set_path (tag_str st ++ String RET_TOKEN_DELIMITER "" ++ tag)
                (tag_ptr st + strlen tag + 1) (nest st + 1) st)).
Proof.
  intros [Hc Hf _ _ _] Hn.
  destruct (Z_lt_ge_dec (tag_ptr st + strlen tag + 1) RET_MAX_TAG_STRING_SIZE)
    as [Hlt | Hge].
  - right. split; [exact Hlt|].
    unfold retAddTag. cbn [tag_ptr tag_str nest set_tag_ptr set_path].
    apply Z.ltb_lt in Hlt. rewrite Hlt. cbn [negb].
    pose proof (strlen_nonneg (tag_str st)).
    replace ((0 <=? tag_ptr st) && (tag_ptr st <=? strlen (tag_str st)))
      with true
      by (symmetry; apply andb_true_intro; split; apply Z.leb_le; lia).
    rewrite !strlen_app. change (strlen (String RET_TOKEN_DELIMITER "")) with 1.
    replace (strlen (tag_str st) + (1 + strlen tag))
      with (tag_ptr st + strlen tag + 1) by lia.
    rewrite Hlt. unfold RET_MAX_NEST_SIZE in Hn.
    rewrite (u32_small (nest st + 1)) by lia.
    reflexivity.
  - left. split; [lia|]. apply retAddTag_overflow. lia.
Qed.

Section Walk.

Variable HAL_GetTick : nat -> Z.

Lemma retEnter_mode_spec (st : engine) (m : Z) :
  nest st = m -> 1 <= m <= RET_MAX_NEST_SIZE ->
  List.length (ret_env st) = 6%nat ->
  exists st', retEnter_mode HAL_GetTick st = Returns tt st'
              /\ entered m st st'.
Proof.
  intros Hn Hm Hl. unfold retEnter_mode.
  destruct (mode (param st)) eqn:Emode; cbn [ret_mode_eqb negb].
  { eexists. split; [reflexivity|].
    constructor; try reflexivity. rewrite Emode. reflexivity. }
  all: pose proof (retFindTagToken_found st) as Hf;
    pose proof (retFindTagToken_walk st) as Hw;
    destruct (retFindTagToken st) as [st1 found]; cbn [fst snd] in Hf, Hw;
    destruct Hw; rewrite sw_mode0, Emode; cbn [ret_mode_eqb];
    destruct found; cbn [negb nest set_param].
  2, 4: eexists; (split; [reflexivity|]);
    constructor; cbn [tag_str tag_ptr nest is_pause param trace ret_env
                      set_param set_mode mode test_tag retval];
    try congruence;
    first [ intros k; unfold slot_cursor; cbn [ret_env set_param]; congruence
          | rewrite Emode, <- Hf; congruence ].
  all: unfold RET_MAX_NEST_SIZE in Hm;
    rewrite sw_nest0, Hn, (u32_small (m - 1)) by lia;
    match goal with
    | |- context [env_at ?i ?s] =>
        destruct (env_at_some i s) as (e & -> & He);
        [unfold RET_MAX_NEST_SIZE; lia | cbn [ret_env set_param]; congruence |]
    end;
    cbn [ret_env set_param] in He;
    unfold RET_SYS_TICK_FUNC; eexists; (split; [reflexivity|]);
    constructor;
    cbn [tag_str tag_ptr nest is_pause param trace ret_env env_set
         set_env set_ticks set_param set_mode mode test_tag retval];
    try congruence;
    first
      [ rewrite length_list_set; congruence
      | intros k; unfold slot_cursor;
        cbn [ret_env env_set set_env set_ticks set_param];
        rewrite nth_error_list_set, <- sw_env0;
        destruct (Nat.eqb k (Z.to_nat (m - 1))) eqn:E; [|reflexivity];
        apply Nat.eqb_eq in E; subst k; rewrite He; reflexivity
      | intros k Hk; rewrite nth_error_list_set, <- sw_env0;
        destruct (Nat.eqb k (Z.to_nat (m - 1))) eqn:E; [|reflexivity];
        apply Nat.eqb_eq in E; lia
      | rewrite Emode, <- Hf; congruence ].
Qed.

End Walk.

(** ** retRemoveTag and retExit in a run *)

Lemma retRemoveTag_spec (k : Z) (st : engine) (p : Z) :
  0 <= k < RET_MAX_NEST_SIZE -> List.length (ret_env st) = 6%nat ->
  slot_cursor (Z.to_nat k) st = Some p ->
  0 <= p < RET_MAX_TAG_STRING_SIZE ->
  retRemoveTag k st
  = Returns tt (set_path (truncate (Z.to_nat p) (tag_str st)) p k st).
Proof.
  intros Hk Hl Hc Hp. unfold retRemoveTag.
  destruct (k >=? RET_MAX_NEST_SIZE) eqn:E; [apply Z.geb_le in E; lia|].
  destruct (env_at_some k st Hk Hl) as (e & -> & He).
  unfold slot_cursor in Hc. rewrite He in Hc. cbn in Hc.
  injection Hc as <-.
  replace ((0 <=? env_tag_ptr e)
           && (env_tag_ptr e <? RET_MAX_TAG_STRING_SIZE)) with true
    by (symmetry; apply andb_true_intro; split;
        [apply Z.leb_le | apply Z.ltb_lt]; lia).
  reflexivity.
Qed.

Lemma same_but_path_of_walk (a b : engine) :
  same_walk a b -> same_but_path a b.
Proof. intros []. constructor; assumption. Qed.

Section Exit.

Variable HAL_GetTick : nat -> Z.

Lemma retExit_report_spec (v : ret_val_t) (st : engine) (n : Z) :
  nest st = n + 1 -> 0 <= n < RET_MAX_NEST_SIZE ->
  List.length (ret_env st) = 6%nat ->
  exists st1, retExit_report HAL_GetTick v st = Returns tt st1
              /\ same_walk st st1.
Proof.
  intros Hn Hr Hl. unfold retExit_report.
  pose proof (retFindTagToken_walk st) as Hw.
  destruct (retFindTagToken st) as [st1 found]. cbn [fst] in Hw.
  destruct found; [|eauto].
  destruct (negb _).
  - destruct Hw. unfold RET_MAX_NEST_SIZE in Hr.
    rewrite sw_nest0, Hn.
    replace (n + 1 - 1) with n by lia. rewrite (u32_small n) by lia.
    destruct (env_at_some n st1) as (e & -> & _);
      [unfold RET_MAX_NEST_SIZE; lia | congruence |].
    unfold RET_SYS_TICK_FUNC. eexists. split; [reflexivity|].
    eapply same_walk_trans; [|apply retTestLineFormat_walk].
    constructor; assumption.
  - eexists. split; [reflexivity|].
    eapply same_walk_trans; [exact Hw | apply retFormatLine_walk].
Qed.

(** retExit for a node whose tag [suffix] was appended to [parent] by the
    frame owning slot [n]. *)
Lemma retExit_spec (v : ret_val_t) (st : engine) (n : Z)
  (parent suffix : string) :
  v <> RET_ERR_TAG ->
  nest st = n + 1 -> 0 <= n < RET_MAX_NEST_SIZE ->
  tag_str st = (parent ++ suffix)%string ->
  strlen parent < RET_MAX_TAG_STRING_SIZE ->
  slot_cursor (Z.to_nat n) st = Some (strlen parent) ->
  slot_cursor 0 st = Some 0 ->
  List.length (ret_env st) = 6%nat ->
  if String.eqb (tag_str st) (test_tag (param st))
  then exists st2,
         retExit HAL_GetTick v st
         = Longjmp 0 (if ret_val_eqb v RET_PASS then 1 else ret_val_int v) st2
         /\ nest st2 = 0 /\ tag_str st2 = "" /\ tag_ptr st2 = 0
         /\ same_but_path st st2
  else exists st2,
         retExit HAL_GetTick v st
         = Returns tt (if n =? 0 then retExit_end st2 else st2)
         /\ nest st2 = n /\ tag_str st2 = parent
         /\ tag_ptr st2 = strlen parent
         /\ same_but_path st st2.
Proof.
  intros Hv Hn Hr Hpath Hfit Hcur H0 Hl. unfold retExit.
  destruct (ret_val_eqb v RET_ERR_TAG) eqn:Ev;
    [destruct v; try discriminate; contradiction|].
  destruct (retExit_report_spec v st n Hn Hr Hl) as (st1 & -> & Hw).
  cbn [bind]. pose proof (same_but_path_of_walk _ _ Hw) as Hsp.
  destruct Hw. rewrite sw_tag_str0, sw_target0.
  assert (Hl1 : List.length (ret_env st1) = 6%nat) by congruence.
  destruct (String.eqb (tag_str st) (test_tag (param st))).
  - rewrite (retRemoveTag_spec 0 st1 0);
      [| unfold RET_MAX_NEST_SIZE; lia | exact Hl1
       | unfold slot_cursor in *; cbn [Z.to_nat]; congruence
       | unfold RET_MAX_TAG_STRING_SIZE; lia ].
    cbn [bind]. unfold longjmp. cbn [Z.leb Z.ltb Z.compare andb
      RET_MAX_NEST_SIZE].
    eexists. split.
    { f_equal. destruct v; reflexivity. }
    cbn [nest tag_str tag_ptr set_path Z.to_nat truncate].
    repeat split; try reflexivity; destruct Hsp; assumption.
  - replace (negb (nest st1 =? 0)) with true
      by (symmetry; apply negb_true_iff, Z.eqb_neq; lia).
    unfold RET_MAX_NEST_SIZE in Hr.
    rewrite sw_nest0, Hn. replace (n + 1 - 1) with n by lia.
    rewrite (u32_small n) by lia.
    pose proof (strlen_nonneg parent).
    rewrite (retRemoveTag_spec n st1 (strlen parent));
      [| unfold RET_MAX_NEST_SIZE; lia | exact Hl1
       | unfold slot_cursor in *; congruence
       | lia ].
    cbn [bind nest set_path].
    eexists. split; [reflexivity|].
    cbn [nest tag_str tag_ptr set_path].
    split; [reflexivity|]. split.
    { rewrite sw_tag_str0, Hpath. unfold strlen. rewrite Nat2Z.id.
      apply truncate_app. }
    split; [reflexivity|].
    destruct Hsp; constructor; assumption.
Qed.

(** retExit in the root frame after an unwinding. *)
Lemma retExit_unwound (st : engine) :
  nest st = 0 -> tag_str st = "" -> test_tag (param st) <> "" ->
  exists st1, retExit HAL_GetTick RET_PASS st = Returns tt (retExit_end st1)
              /\ same_walk st st1.
Proof.
  intros Hn Hs Ht. unfold retExit. cbn [ret_val_eqb].
  unfold retExit_report.
  assert (Hf : retFindTagToken st = (st, false)).
  { unfold retFindTagToken, tag_token. rewrite Hs.
    destruct (test_tag (param st)) as [|c t]; [contradiction|].
    reflexivity. }
  rewrite Hf. cbn [bind]. rewrite Hs.
  destruct (test_tag (param st)) as [|c t] eqn:E; [contradiction|].
  cbn [String.eqb]. rewrite Hn. cbn [Z.eqb negb bind].
  rewrite Hn. cbn [Z.eqb]. exists st. split; [reflexivity|].
  apply same_walk_refl.
Qed.

End Exit.

(** ** Tag paths below the root *)

Lemma string_app_assoc (a b c : string) :
  ((a ++ b) ++ c = a ++ (b ++ c))%string.
Proof. induction a as [|x a IH]; cbn; congruence. Qed.

Lemma rooted_root : rooted ("" ++ String RET_TOKEN_DELIMITER "" ++ RET_ROOT_TAG).
Proof. exists "". split; [reflexivity | left; reflexivity]. Qed.

Lemma rooted_app (path tg : string) :
  rooted path -> rooted (path ++ String RET_TOKEN_DELIMITER "" ++ tg).
Proof.
  intros (rest & -> & Hr).
  exists (rest ++ String RET_TOKEN_DELIMITER "" ++ tg)%string. split.
  - apply string_app_assoc.
  - right. destruct Hr as [-> | (r & ->)]; eexists; reflexivity.
Qed.

(** Below the root node the token test finds the root tag: strstr stops at
    offset 1 and the character after ROOT is the delimiter or the
    terminator. *)
Lemma tag_token_rooted (path : string) :
  rooted path -> tag_token path RET_ROOT_TAG = true.
Proof. intros (rest & -> & [-> | (r & ->)]); reflexivity. Qed.

Lemma rooted_not_target (path : string) :
  rooted path -> String.eqb path RET_ROOT_TAG = false.
Proof. intros (rest & -> & _). reflexivity. Qed.

(** ** A leaf function in Execute mode *)

Lemma call_leaf_walked (body : list stmt) (result : ret_val_t) (st : engine)
  (m : Z) :
  forallb stmt_ok body = true ->
  nest st = m -> 1 <= m <= RET_MAX_NEST_SIZE -> retval_ok st ->
  mode (param st) = RET_MODE_EXE ->
  walked [tag_str st] st (call_leaf body result st).
Proof.
  intros Hb Hn Hm Hrv Hmode. unfold call_leaf, search_guard.
  rewrite Hmode. cbn [ret_mode_eqb orb].
  pose proof (run_body_spec body (log (EvBody (tag_str st)) st) Hb) as H.
  cbn [nest log] in H. rewrite Hn in H. specialize (H Hrv Hm).
  destruct (run_body body _) as [[] st1 | k val st1 | |];
    cbn [bind walked]; try exact I.
  - destruct H as [Hc _]. apply user_core_fields in Hc.
    destruct Hc as (_ & _ & _ & _ & _ & Hmo & _ & _ & _ & Ht).
    cbn [param trace log] in Hmo, Ht. rewrite Hmo, Ht, bodies_app.
    auto.
  - destruct H as (_ & -> & Hc & _). apply user_core_fields in Hc.
    destruct Hc as (_ & _ & _ & _ & _ & Hmo & _ & _ & _ & Ht).
    cbn [param trace log] in Hmo, Ht. rewrite Hmo, Ht, bodies_app.
    auto.
Qed.

(** ** One pass of the loop *)

Lemma inside_kept (n : Z) (tg : string) (st a b : engine) :
  inside n tg st a -> kept (n + 1) a b -> inside n tg st b.
Proof.
  intros [] []. constructor; try congruence.
  - intros k Hk. rewrite <- in_cursor0 by exact Hk. unfold slot_cursor.
    rewrite kept_env0 by lia. reflexivity.
  - intros k Hk. rewrite kept_env0 by lia. auto.
  - auto.
  - intros k Hk. rewrite kept_results0 by lia. auto.
Qed.

Lemma inside_base (n : Z) (tg : string) (st sc : engine) :
  0 <= n -> inside n tg st sc -> base st sc.
Proof.
  intros Hn []. constructor; try assumption.
  - apply in_cursor0. cbn. lia.
  - apply in_results0. lia.
Qed.

Lemma log_bodies (e : event) (st : engine) :
  bodies (trace (log e st))
  = (bodies (trace st)
     ++ match e with EvBody p => [p] | _ => [] end)%list.
Proof.
  cbn [trace log]. rewrite bodies_app. cbn [bodies flat_map].
  rewrite app_nil_r. reflexivity.
Qed.

Section Pass.

Variable HAL_GetTick : nat -> Z.

(** From the err_flag update on, for a node whose tag was appended. *)
Lemma after_setjmp_spec (v : ret_val_t) (err_flag : ret_val_t)
  (st sc : engine) (n : Z) (tg : string) :
  v <> RET_ERR_TAG -> 1 <= n < RET_MAX_NEST_SIZE ->
  frame_inv st -> nest st = n ->
  slot_cursor (Z.to_nat n) st = Some (tag_ptr st) ->
  inside n tg st sc ->
  pass_ok n (Some v) err_flag st (after_setjmp HAL_GetTick n v err_flag sc)
  /\ exit_ok sc (after_setjmp HAL_GetTick n v err_flag sc).
Proof.
  intros Hv Hn Hinv Hnest Hcur Hin.
  pose proof Hin as [].
  destruct Hinv as [Hc Hf Hl H0 Hrv].
  pose proof (retExit_spec HAL_GetTick v (log (EvResult n v) sc) n
                (tag_str st) (String RET_TOKEN_DELIMITER "" ++ tg) Hv)
    as Hexit.
  cbn [nest tag_str ret_env param log] in Hexit.
  unfold slot_cursor in Hexit. cbn [ret_env log] in Hexit.
  fold (slot_cursor (Z.to_nat n) sc) in Hexit.
  fold (slot_cursor 0 sc) in Hexit.
  specialize (Hexit in_nest0 ltac:(lia) in_tag_str0 Hf).
  rewrite in_cursor0, Hcur, Hc in Hexit by (rewrite Z2Nat.id; lia).
  specialize (Hexit eq_refl).
  rewrite in_cursor0, H0 in Hexit by (cbn; lia).
  specialize (Hexit eq_refl ltac:(congruence)).
  unfold after_setjmp.
  destruct (String.eqb (tag_str sc) (test_tag (param sc))) eqn:Eeq.
  - destruct Hexit as (st2 & -> & Hn2 & Hs2 & Hp2 & Hsp).
    replace (0 =? n) with false by (symmetry; apply Z.eqb_neq; lia).
    cbn [pass_ok exit_ok]. split; [|exact Eeq].
    split; [reflexivity|]. split.
    { destruct v; cbn; discriminate. }
    destruct Hsp.
    cbn [is_pause ret_env param log] in sp_pause0, sp_env0, sp_mode0,
      sp_target0, sp_retval0.
    constructor; try assumption.
    + apply String.eqb_eq in Eeq. rewrite sp_target0, <- Eeq, in_tag_str0.
      destruct (tag_str st); discriminate.
    + constructor; try congruence.
      * unfold slot_cursor. rewrite sp_env0.
        apply (in_cursor0 O). cbn. lia.
      * rewrite sp_trace0, log_results.
        replace (n =? 0) with false by (symmetry; apply Z.eqb_neq; lia).
        rewrite app_nil_r. apply in_results0. lia.
      * rewrite sp_trace0, log_ends, app_nil_r. assumption.
  - destruct Hexit as (st2 & -> & Hn2 & Hs2 & Hp2 & Hsp).
    replace (n =? 0) with false by (symmetry; apply Z.eqb_neq; lia).
    cbn [pass_ok exit_ok]. destruct Hsp.
    cbn [is_pause ret_env param log] in sp_pause0, sp_env0, sp_mode0,
      sp_target0, sp_retval0.
    split; [split; [|split]|split].
    + constructor; try congruence.
      * intros k Hk. rewrite sp_env0. apply in_env0. exact Hk.
      * intros _. unfold retval_ok in *. congruence.
      * intros k Hk. rewrite sp_trace0, log_results.
        replace (n =? k) with false by (symmetry; apply Z.eqb_neq; lia).
        rewrite app_nil_r. apply in_results0. lia.
      * rewrite sp_trace0, log_ends, app_nil_r. assumption.
    + unfold slot_cursor. rewrite sp_env0.
      apply (in_cursor0 (Z.to_nat n)). rewrite Z2Nat.id; lia.
    + exists v. split; [reflexivity|]. split; [|reflexivity].
      rewrite sp_trace0, log_results, Z.eqb_refl.
      f_equal. apply in_results0. lia.
    + exact sp_mode0.
    + rewrite sp_trace0, log_bodies. apply app_nil_r.
Qed.

End Pass.

(** ** The loop, the list and the tree *)

Lemma ret_func_ind_nested (P : ret_func_t -> Prop) :
  (forall body result, P (Leaf body result)) ->
  (forall list, Forall (fun test => P (func test)) list -> P (Branch list)) ->
  forall f, P f.
Proof.
  intros HL HB. fix IH 1. intros [body result | list].
  - apply HL.
  - apply HB. induction list as [|test rest IHl].
    + constructor.
    + constructor; [apply IH | exact IHl].
Qed.

Lemma aggregate_cases (vs : list ret_val_t) : forall e,
  aggregate vs e = e \/ aggregate vs e = RET_FAIL.
Proof.
  unfold aggregate. induction vs as [|v vs IH]; intros e; cbn [fold_left].
  - auto.
  - destruct (IH (update_err_flag v e)) as [-> | ->]; [|auto].
    unfold update_err_flag. destruct (negb _); auto.
Qed.



Lemma pass_ok_weaken (n : Z) (v : ret_val_t) (err_flag : ret_val_t)
  (st : engine) (o : outcome ret_val_t) :
  pass_ok n (Some v) err_flag st o -> pass_ok n None err_flag st o.
Proof.
  destruct o as [e st' | k val st' | |]; cbn [pass_ok]; try tauto.
  intros (Hk & Hc & r & _ & Hr & He). eauto 8.
Qed.

Lemma retInfoLineFmt_walk (str : string) (st : engine) :
  same_walk st (retInfoLineFmt str st).
Proof. apply same_walk_of_core, retInfoLineFmt_core. Qed.

Lemma retInfoLine_walk (str : string) (pause : bool) (st : engine) :
  same_walk st (retInfoLine str pause st).
Proof. apply same_walk_of_core, retInfoLine_core. Qed.

Lemma bind_returns {A B : Type} (a : A) (st : engine)
  (k : A -> engine -> outcome B) :
  bind (Returns a st) k = k a st.
Proof. reflexivity. Qed.

Lemma bind_longjmp {A B : Type} (slot val : Z) (st : engine)
  (k : A -> engine -> outcome B) :
  bind (Longjmp slot val st) k = Longjmp slot val st.
Proof. reflexivity. Qed.

Lemma catch_returns (slot : Z) (v : ret_val_t) (st : engine) :
  catch slot (Returns v st) = Returns v st.
Proof. reflexivity. Qed.

Lemma catch_own (slot val : Z) (st : engine) :
  catch slot (Longjmp slot val st) = Returns (longjmp_retval val) st.
Proof. unfold catch. rewrite Z.eqb_refl. reflexivity. Qed.

Lemma catch_other (slot k val : Z) (st : engine) :
  k <> slot -> catch slot (Longjmp k val st) = Longjmp k val st.
Proof.
  intros H. unfold catch.
  replace (k =? slot) with false by (symmetry; apply Z.eqb_neq; exact H).
  reflexivity.
Qed.

Lemma retEnter_overflow (HAL_GetTick : nat -> Z)
  (call : ret_func_t -> engine -> outcome ret_val_t) (test : ret_test_t)
  (st : engine) :
  retAddTag (tag test) st = Returns RET_ERR_TAG st ->
  retEnter HAL_GetTick call test st
  = Returns RET_ERR_TAG (retInfoLineFmt RET_TAG_ERR_MSG st).
Proof. intros H. unfold retEnter. rewrite H. reflexivity. Qed.

Lemma retEnter_pass (HAL_GetTick : nat -> Z)
  (call : ret_func_t -> engine -> outcome ret_val_t) (test : ret_test_t)
  (st sa sm : engine) :
  retAddTag (tag test) st = Returns RET_PASS sa ->
  retEnter_mode HAL_GetTick sa = Returns tt sm ->
  retEnter HAL_GetTick call test st
  = call (func test) (log (EvCall (tag_str sm)) sm).
Proof.
  intros H1 H2. unfold retEnter. rewrite H1. cbn. rewrite H2. reflexivity.
Qed.

Section Frames.

Variable HAL_GetTick : nat -> Z.
Variable call : ret_func_t -> engine -> outcome ret_val_t.

Lemma enter_inside (tg : string) (st sm : engine) (n : Z) :
  frame_inv st -> nest st = n -> 0 <= n < RET_MAX_NEST_SIZE ->
  tag_ptr st + strlen tg + 1 < RET_MAX_TAG_STRING_SIZE ->
  entered (n + 1)
    (set_path (tag_str st ++ String RET_TOKEN_DELIMITER "" ++ tg)
       (tag_ptr st + strlen tg + 1) (nest st + 1) st) sm ->
  inside n tg st (log (EvCall (tag_str sm)) sm)
  /\ frame_inv (log (EvCall (tag_str sm)) sm).
Proof.
  intros [Hc Hf Hl H0 Hrv] Hn Hr Hfit [].
  cbn [tag_str tag_ptr nest is_pause param trace ret_env set_path] in *.
  split.
  - constructor; cbn [nest tag_str param is_pause ret_env log];
      try congruence.
    + intros k _. unfold slot_cursor in *. cbn [ret_env log].
      apply ent_cursor0.
    + intros k Hk. apply ent_env0. lia.
    + unfold retval_ok in *. cbn [param log]. rewrite ent_retval0. exact Hrv.
    + intros k _. rewrite log_results, app_nil_r. congruence.
    + rewrite log_ends, app_nil_r. congruence.
  - constructor; cbn [nest tag_str tag_ptr param is_pause ret_env log].
    + rewrite ent_tag_ptr0, ent_tag_str0, !strlen_app.
      change (strlen (String RET_TOKEN_DELIMITER "")) with 1. lia.
    + rewrite ent_tag_str0, !strlen_app.
      change (strlen (String RET_TOKEN_DELIMITER "")) with 1. lia.
    + congruence.
    + unfold slot_cursor in *. cbn [ret_env log]. rewrite <- H0.
      apply ent_cursor0.
    + unfold retval_ok in *. cbn [param log]. rewrite ent_retval0. exact Hrv.
Qed.

(** In Execute mode with the root tag as the target, the mode switch of
    retEnter leaves Execute mode on. *)
Lemma enter_exe_root (tg : string) (st sm : engine) (n : Z) :
  exe_root st ->
  entered (n + 1)
    (set_path (tag_str st ++ String RET_TOKEN_DELIMITER "" ++ tg)
       (tag_ptr st + strlen tg + 1) (nest st + 1) st) sm ->
  exe_root (log (EvCall (tag_str sm)) sm)
  /\ bodies (trace (log (EvCall (tag_str sm)) sm)) = bodies (trace st).
Proof.
  intros (Hm & Ht & Hr) [].
  cbn [tag_str tag_ptr nest is_pause param trace ret_env set_path] in *.
  pose proof (rooted_app _ tg Hr) as Hr'.
  split; [split; [|split]|].
  - cbn [param log]. rewrite ent_mode0, Hm, Ht, (tag_token_rooted _ Hr').
    reflexivity.
  - cbn [param log]. congruence.
  - cbn [tag_str log]. rewrite ent_tag_str0. exact Hr'.
  - rewrite log_bodies, app_nil_r. congruence.
Qed.

Lemma loop_body_spec (test : ret_test_t) (err_flag : ret_val_t)
  (st : engine) (n : Z) :
  call_ok call (func test) ->
  1 <= n < RET_MAX_NEST_SIZE -> frame_inv st -> nest st = n ->
  slot_cursor (Z.to_nat n) st = Some (tag_ptr st) ->
  pass_ok n None err_flag st (loop_body HAL_GetTick call test err_flag st)
  /\ (exe_root st -> node_fits n (tag_str st) test = true ->
      walked (node_paths (tag_str st) test) st
        (loop_body HAL_GetTick call test err_flag st)).
Proof.
  intros Hcall Hn Hinv Hnest Hcur.
  rewrite loop_body_in_range by lia. rewrite Hnest.
  destruct (retAddTag_inv (tag test) st Hinv ltac:(lia))
    as [[Hov Hadd] | [Hfit Hadd]].
  - rewrite (retEnter_overflow _ _ _ _ Hadd), catch_returns, bind_returns,
      after_setjmp_tag_error.
    pose proof (retInfoLineFmt_walk RET_TAG_ERR_MSG st) as H1. revert H1.
    generalize (retInfoLineFmt RET_TAG_ERR_MSG st). intros st1 H1.
    pose proof (retTestLineFormat_walk RET_ERR_TAG 0
                  (log (EvResult n RET_ERR_TAG) st1)) as H2. revert H2.
    generalize (retTestLineFormat RET_ERR_TAG 0
                  (log (EvResult n RET_ERR_TAG) st1)). intros st2 H2.
    split.
    + assert (Hk : kept n st st2).
      { eapply kept_trans; [apply kept_of_same_walk, H1|].
        eapply kept_trans;
          [apply (kept_log n (EvResult n RET_ERR_TAG)); lia|].
        apply kept_of_same_walk, H2. }
      destruct H1, H2. unfold pass_ok.
      split; [exact Hk|]. split.
      * unfold slot_cursor. rewrite sw_env1. cbn [ret_env log].
        rewrite sw_env0. reflexivity.
      * exists RET_ERR_TAG. split; [exact I|]. split; [|reflexivity].
        rewrite sw_trace1, log_results, sw_trace0, Z.eqb_refl. reflexivity.
    + intros _ Hnf. exfalso. unfold node_fits in Hnf.
      apply andb_prop in Hnf. destruct Hnf as [Hnf _].
      apply Z.ltb_lt in Hnf. rewrite <- (cursor_on_terminator st Hinv) in Hnf.
      lia.
  - destruct (retEnter_mode_spec HAL_GetTick
                (set_path (tag_str st ++ String RET_TOKEN_DELIMITER ""
                           ++ tag test)
                   (tag_ptr st + strlen (tag test) + 1) (nest st + 1) st)
                (n + 1))
      as (sm & Hmode & Hent).
    { cbn [nest set_path]. lia. }
    { unfold RET_MAX_NEST_SIZE in *. lia. }
    { cbn [ret_env set_path]. apply Hinv. }
    rewrite (retEnter_pass _ _ _ _ _ _ Hadd Hmode).
    destruct (enter_inside (tag test) st sm n Hinv Hnest ltac:(lia) Hfit Hent)
      as [Hin Hfi].
    assert (Hnc : nest (log (EvCall (tag_str sm)) sm) = n + 1)
      by (apply Hin).
    specialize (Hcall _ (n + 1) Hnc
                  ltac:(unfold RET_MAX_NEST_SIZE in *; lia) Hfi).
    pose proof (fun H => enter_exe_root (tag test) st sm n H Hent) as Hexe.
    revert Hcall Hin Hexe. generalize (log (EvCall (tag_str sm)) sm).
    intros sq [Hcall Hpay] Hin Hexe.
    assert (Hpay' : exe_root st -> node_fits n (tag_str st) test = true ->
              exe_root sq
              /\ bodies (trace sq) = bodies (trace st)
              /\ walked (node_paths (tag_str st) test) sq
                   (call (func test) sq)).
    { intros He Hnf. destruct (Hexe He) as [He' Hb].
      split; [exact He'|]. split; [exact Hb|].
      unfold node_paths. rewrite <- (in_tag_str _ _ _ _ Hin).
      apply Hpay; [exact He'|].
      unfold node_fits in Hnf. apply andb_prop in Hnf.
      rewrite (in_tag_str _ _ _ _ Hin). apply Hnf. }
    clear Hpay Hexe.
    assert (Hrun : forall v sc, v <> RET_ERR_TAG -> kept (n + 1) sq sc ->
              (exe_root st -> node_fits n (tag_str st) test = true ->
               mode (param sc) = RET_MODE_EXE
               /\ bodies (trace sc)
                  = (bodies (trace st)
                     ++ node_paths (tag_str st) test)%list) ->
              pass_ok n None err_flag st
                (after_setjmp HAL_GetTick n v err_flag sc)
              /\ (exe_root st -> node_fits n (tag_str st) test = true ->
                  walked (node_paths (tag_str st) test) st
                    (after_setjmp HAL_GetTick n v err_flag sc))).
    { intros v sc Hv Hk Hw.
      pose proof (inside_kept _ _ _ _ _ Hin Hk) as Hin'.
      destruct (after_setjmp_spec HAL_GetTick v err_flag st sc n (tag test)
                  Hv Hn Hinv Hnest Hcur Hin') as [Hp He].
      split; [apply pass_ok_weaken with (v := v); exact Hp|].
      intros Hexe Hnf. destruct (Hw Hexe Hnf) as [Hmo Hbo].
      destruct (after_setjmp HAL_GetTick n v err_flag sc)
        as [e1 s1 | k1 v1 s1 | |]; cbn [walked exit_ok] in *; try exact I.
      - destruct He as [-> ->]. auto.
      - exfalso. destruct Hexe as (_ & Ht & Hr).
        rewrite (in_tag_str _ _ _ _ Hin'), (in_target _ _ _ _ Hin'), Ht,
          (rooted_not_target _ (rooted_app _ (tag test) Hr)) in He.
        discriminate. }
    destruct (call (func test) sq) as [v sc | k val sc | |];
      try contradiction.
    + destruct Hcall as [Hv Hk]. rewrite catch_returns, bind_returns.
      apply Hrun; try assumption.
      intros He Hnf. destruct (Hpay' He Hnf) as (_ & Hb & Hmo & Hbo).
      split; [exact Hmo | congruence].
    + destruct Hcall as [(-> & -> & Hk) | (-> & Hval & Hunw)].
      * replace (n + 1 - 1) with n by lia.
        rewrite catch_own, bind_returns.
        change (longjmp_retval (-1)) with RET_FAIL.
        apply Hrun; try assumption; [discriminate|].
        intros He Hnf. destruct (Hpay' He Hnf) as (_ & Hb & _ & Hmo & Hbo).
        split; [exact Hmo | congruence].
      * rewrite catch_other, bind_longjmp by lia. split.
        -- unfold pass_ok. split; [reflexivity|]. split; [exact Hval|].
           eapply unwound_after; [|exact Hunw].
           eapply inside_base; [|exact Hin]. lia.
        -- intros He Hnf. destruct (Hpay' He Hnf) as (_ & _ & Hv1 & _).
           contradiction.
Qed.

End Frames.

Lemma for_loop_nil (HAL_GetTick : nat -> Z)
  (call : ret_func_t -> engine -> outcome ret_val_t) (err_flag : ret_val_t)
  (st : engine) :
  for_loop HAL_GetTick call [] err_flag st = Returns err_flag st.
Proof. reflexivity. Qed.

Section Lists.

Variable HAL_GetTick : nat -> Z.
Variable call : ret_func_t -> engine -> outcome ret_val_t.

Lemma for_loop_spec (tests : ret_list_t) :
  Forall (fun test => call_ok call (func test)) tests ->
  forall (err_flag : ret_val_t) (st : engine) (n : Z),
    1 <= n < RET_MAX_NEST_SIZE -> frame_inv st -> nest st = n ->
    slot_cursor (Z.to_nat n) st = Some (tag_ptr st) ->
    frame_ok n tests err_flag st (for_loop HAL_GetTick call tests err_flag st)
    /\ (exe_root st ->
        forallb (node_fits n (tag_str st)) tests = true ->
        walked (flat_map (node_paths (tag_str st)) tests) st
          (for_loop HAL_GetTick call tests err_flag st)).
Proof.
  induction 1 as [|test rest Hcall _ IH]; intros err_flag st n Hn Hinv Hnest
    Hcur.
  - rewrite for_loop_nil. cbn [frame_ok walked flat_map]. split.
    + split; [apply kept_refl|]. split; [reflexivity|].
      exists []. rewrite app_nil_r. auto.
    + intros (Hm & _) _. rewrite app_nil_r. auto.
  - rewrite for_loop_cons.
    destruct (loop_body_spec HAL_GetTick call test err_flag st n Hcall Hn
                Hinv Hnest Hcur) as [Hpass Hwalk].
    destruct (loop_body HAL_GetTick call test err_flag st)
      as [err1 st1 | k val st1 | |].
    + rewrite bind_returns. cbn [pass_ok] in Hpass.
      destruct Hpass as (Hk & Hc & r & _ & Hr & He).
      assert (Hinv1 : frame_inv st1)
        by (eapply frame_inv_kept; [|exact Hinv|exact Hk]; lia).
      assert (Hn1 : nest st1 = n) by (destruct Hk; congruence).
      assert (Hc1 : slot_cursor (Z.to_nat n) st1 = Some (tag_ptr st1))
        by (destruct Hk; congruence).
      destruct (IH err1 st1 n Hn Hinv1 Hn1 Hc1) as [Hframe Hwalk2].
      assert (Hs1 : tag_str st1 = tag_str st) by (apply Hk).
      assert (Ht1 : test_tag (param st1) = test_tag (param st))
        by (apply Hk).
      split.
      * destruct (for_loop HAL_GetTick call rest err1 st1)
          as [r2 st2 | k val st2 | |]; cbn [frame_ok] in *;
          try assumption.
        -- destruct Hframe as (Hk2 & Hc2 & vs & Hvs & Hlen & Hagg).
           split; [eapply kept_trans; eassumption|]. split; [congruence|].
           exists (r :: vs). split; [|split].
           ++ rewrite Hvs, Hr, <- app_assoc. reflexivity.
           ++ cbn. congruence.
           ++ rewrite Hagg, He. reflexivity.
        -- destruct Hframe as (-> & Hval & Hunw).
           split; [reflexivity|]. split; [exact Hval|].
           eapply unwound_after; [|exact Hunw].
           eapply base_of_kept; [|exact Hk]. lia.
      * intros Hexe Hfits. cbn [forallb] in Hfits.
        apply andb_prop in Hfits. destruct Hfits as [Hf1 Hf2].
        specialize (Hwalk Hexe Hf1). cbn [walked] in Hwalk.
        destruct Hwalk as [Hmo Hbo].
        assert (Hexe1 : exe_root st1).
        { destruct Hexe as (_ & Ht & Hr0). split; [exact Hmo|].
          split; congruence. }
        rewrite Hs1 in Hwalk2. specialize (Hwalk2 Hexe1 Hf2).
        cbn [flat_map].
        destruct (for_loop HAL_GetTick call rest err1 st1)
          as [r2 st2 | k val st2 | |]; cbn [walked] in *; try exact I.
        -- destruct Hwalk2 as [Hmo2 Hbo2]. split; [exact Hmo2|].
           rewrite Hbo2, Hbo, <- app_assoc. reflexivity.
        -- destruct Hwalk2 as (Hv & Hmo2 & Hbo2).
           split; [exact Hv|]. split; [exact Hmo2|].
           rewrite Hbo2, Hbo, <- app_assoc. reflexivity.
    + rewrite bind_longjmp. cbn [pass_ok frame_ok] in *. split.
      * exact Hpass.
      * intros Hexe Hfits. cbn [forallb] in Hfits.
        apply andb_prop in Hfits. destruct Hfits as [Hf1 _].
        specialize (Hwalk Hexe Hf1). cbn [walked] in Hwalk.
        destruct Hpass as (_ & Hval & _). destruct Hwalk as [Hv _].
        contradiction.
    + contradiction.
    + contradiction.
Qed.

Lemma retExecuteList_body_spec (list : ret_list_t) (st : engine) (m : Z) :
  Forall (fun test => call_ok call (func test)) list ->
  nest st = m -> 1 <= m <= RET_MAX_NEST_SIZE -> frame_inv st ->
  list_ok m list st (retExecuteList_body HAL_GetTick call list st)
  /\ (exe_root st -> fits m (tag_str st) (Branch list) = true ->
      walked (leaf_paths (tag_str st) (Branch list)) st
        (retExecuteList_body HAL_GetTick call list st)).
Proof.
  intros Hall Hnest Hm Hinv. unfold retExecuteList_body. rewrite Hnest.
  destruct (m >=? RET_MAX_NEST_SIZE) eqn:E.
  - apply Z.geb_le in E.
    pose proof (retInfoLineFmt_walk RET_LAYER_ERR_MSG st) as H1. revert H1.
    generalize (retInfoLineFmt RET_LAYER_ERR_MSG st). intros sl H1.
    split.
    + cbn [list_ok]. split; [apply kept_of_same_walk, H1|].
      replace (m <? RET_MAX_NEST_SIZE) with false
        by (symmetry; apply Z.ltb_ge; lia).
      split; [reflexivity | apply H1].
    + intros _ Hf. exfalso. cbn [fits] in Hf. apply andb_prop in Hf.
      destruct Hf as [Hf _]. apply Z.ltb_lt in Hf. lia.
  - rewrite Z.geb_leb in E. apply Z.leb_gt in E.
    destruct (env_at_some m st ltac:(lia) ltac:(apply Hinv))
      as (e & -> & He).
    set (st1 := env_set m _ st).
    assert (Hk1 : kept m st st1).
    { constructor; try reflexivity.
      - unfold st1. cbn [ret_env env_set set_env]. apply length_list_set.
      - intros k Hk. unfold st1. cbn [ret_env env_set set_env].
        rewrite nth_error_list_set.
        destruct (Nat.eqb k (Z.to_nat m)) eqn:Ek; [|reflexivity].
        apply Nat.eqb_eq in Ek. lia.
      - auto. }
    assert (Hc1 : slot_cursor (Z.to_nat m) st1 = Some (tag_ptr st1)).
    { unfold st1, slot_cursor. cbn [ret_env env_set set_env tag_ptr].
      rewrite nth_error_list_set, Nat.eqb_refl, He. reflexivity. }
    destruct (for_loop_spec list Hall RET_PASS st1 m ltac:(lia)
                ltac:(eapply frame_inv_kept; [|exact Hinv|exact Hk1]; lia)
                ltac:(destruct Hk1; congruence) Hc1) as [Hloop Hwalk].
    change (tag_str st1) with (tag_str st) in Hwalk.
    change (exe_root st1) with (exe_root st) in Hwalk.
    change (walked ?p st1) with (walked p st) in Hwalk.
    destruct (for_loop HAL_GetTick call list RET_PASS st1)
      as [r st2 | k val st2 | |]; cbn [bind frame_ok list_ok walked] in *;
      try contradiction.
    + destruct Hloop as (Hk2 & _ & vs & Hvs & Hlen & Hagg).
      pose proof (kept_trans _ _ _ _ Hk1 Hk2) as Hk.
      split; [split|].
      * destruct Hk. constructor; try assumption. reflexivity.
      * apply Z.ltb_lt in E. rewrite E. exists vs. cbn [trace set_pause].
        repeat split; assumption.
      * intros Hexe Hf. apply andb_prop in Hf. destruct Hf as [_ Hf].
        apply (Hwalk Hexe Hf).
    + split.
      * destruct Hloop as (-> & Hval & Hunw).
        split; [reflexivity|]. split; [exact Hval|].
        eapply unwound_after; [|exact Hunw].
        eapply base_of_kept; [|exact Hk1]. lia.
      * intros Hexe Hf. apply andb_prop in Hf. destruct Hf as [_ Hf].
        apply (Hwalk Hexe Hf).
Qed.

End Lists.

Section Tree.

Variable HAL_GetTick : nat -> Z.

(** Every well-behaved test function keeps the contract of a call. *)
Lemma call_func_spec (f : ret_func_t) :
  well_behaved f = true -> call_ok (call_func HAL_GetTick) f.
Proof.
  induction f as [body result | list IH] using ret_func_ind_nested;
    intros Hwb st m Hn Hm Hinv.
  - cbn [well_behaved] in Hwb. apply andb_prop in Hwb.
    destruct Hwb as [Hb Hr].
    assert (Hres : result <> RET_ERR_TAG)
      by (intros ->; discriminate).
    pose proof (call_leaf_spec body result st m Hb Hres Hn Hm
                  (retval_in_range st Hinv)) as H.
    pose proof (call_leaf_walked body result st m Hb Hn Hm
                  (retval_in_range st Hinv)) as Hw.
    change (call_func HAL_GetTick (Leaf body result) st)
      with (call_leaf body result st).
    split.
    + destruct (call_leaf body result st) as [v st' | k val st' | |];
        try assumption.
      left. exact H.
    + intros (Hmo & _) _. apply Hw, Hmo.
  - change (call_func HAL_GetTick (Branch list) st)
      with (retExecuteList_body HAL_GetTick (call_func HAL_GetTick) list st).
    assert (Hall : Forall (fun test => call_ok (call_func HAL_GetTick)
                                         (func test)) list).
    { cbn [well_behaved] in Hwb. rewrite forallb_forall in Hwb.
      rewrite Forall_forall in *. intros test Hin.
      apply IH; [exact Hin | apply Hwb, Hin]. }
    destruct (retExecuteList_body_spec HAL_GetTick _ list st m Hall Hn Hm
                Hinv) as [H Hw].
    split; [|exact Hw].
    destruct (retExecuteList_body _ _ list st) as [r st' | k val st' | |];
      cbn [list_ok] in H; try assumption.
    + destruct H as [Hk Hr]. split; [|exact Hk].
      destruct (m <? RET_MAX_NEST_SIZE).
      * destruct Hr as (vs & _ & _ & ->).
        destruct (aggregate_cases vs RET_PASS) as [-> | ->]; discriminate.
      * destruct Hr as [-> _]. discriminate.
    + right. exact H.
Qed.

(** A list of well-behaved test functions, executed by a branch. *)
Lemma retExecuteList_spec (list : ret_list_t) (st : engine) (m : Z) :
  forallb (fun test => well_behaved (func test)) list = true ->
  nest st = m -> 1 <= m <= RET_MAX_NEST_SIZE -> frame_inv st ->
  list_ok m list st (retExecuteList HAL_GetTick list st).
Proof.
  intros Hwb Hn Hm Hinv. apply retExecuteList_body_spec; try assumption.
  rewrite forallb_forall in Hwb. rewrite Forall_forall.
  intros test Hin. apply call_func_spec, Hwb, Hin.
Qed.

End Tree.

(** ** The root frame and the end of a run *)



(** A character other than a flushing line feed, with room for it. *)
Lemma retPutChar_room (c : ascii) (st : engine) :
  next_in st < RET_REPORT_BUF_SIZE ->
  Ascii.eqb LF c && is_pause st = false ->
  buf (retPutChar c st) = (buf st ++ String c "")%string
  /\ sink (retPutChar c st) = sink st
  /\ is_pause (retPutChar c st) = is_pause st.
Proof.
  intros Hroom Hq. unfold retPutChar. apply Z.ltb_lt in Hroom.
  rewrite Hroom. cbn [is_pause set_buf]. rewrite Hq. cbn. auto.
Qed.

(** A line feed with room for it, when lines are flushed one by one. *)
Lemma retPutChar_flush (st : engine) :
  next_in st < RET_REPORT_BUF_SIZE -> is_pause st = true ->
  buf (retPutChar LF st) = ""
  /\ sink (retPutChar LF st)
     = (sink st ++ [(buf st ++ String LF "")%string])%list
  /\ is_pause (retPutChar LF st) = true.
Proof.
  intros Hroom Hp. unfold retPutChar. apply Z.ltb_lt in Hroom.
  rewrite Hroom. cbn [is_pause set_buf]. rewrite Hp.
  change (Ascii.eqb LF LF && true) with true. cbv iota.
  unfold retSendBuffer, next_in. cbn [buf set_buf].
  rewrite strlen_app. change (strlen (String LF "")) with 1.
  pose proof (strlen_nonneg (buf st)).
  replace (strlen (buf st) + 1 =? 0) with false
    by (symmetry; apply Z.eqb_neq; lia).
  cbn. auto.
Qed.

(** The completion report when the buffer is not full: the pending text
    goes out with a line feed, then DONE on its own, and the buffer is
    empty. *)
Lemma retExit_end_done (pre : engine) :
  (tag_found (param pre) =? 0)
  && negb (String.eqb (test_tag (param pre)) RET_ROOT_TAG) = false ->
  is_pause pre = true -> next_in pre < RET_REPORT_BUF_SIZE ->
  sink (retExit_end pre)
  = (sink pre ++ [(buf pre ++ String LF "")%string; RET_TEST_DONE_MSG])%list
  /\ buf (retExit_end pre) = "".
Proof.
  intros Hc Hp Hroom. unfold retExit_end. rewrite Hc.
  unfold retPutLineFeed.
  destruct (retPutChar_flush (log EvDone pre) Hroom Hp) as (Hb & Hs & Hq).
  revert Hb Hs Hq. generalize (retPutChar LF (log EvDone pre)).
  intros s1 Hb Hs Hq. cbn [sink buf log] in Hs.
  assert (Hstep : forall c s, buf s = "" \/ strlen (buf s) < 8 ->
            is_pause s = true -> Ascii.eqb LF c = false ->
            buf (retPutChar c s) = (buf s ++ String c "")%string
            /\ sink (retPutChar c s) = sink s
            /\ is_pause (retPutChar c s) = true).
  { intros c s Hs0 Hps Hc0.
    destruct (retPutChar_room c s) as (H1 & H2 & H3).
    - unfold next_in, RET_REPORT_BUF_SIZE.
      destruct Hs0 as [-> | Hs0]; [cbn|]; lia.
    - rewrite Hc0. reflexivity.
    - rewrite H3. auto. }
  unfold RET_TEST_DONE_MSG. cbn [retPutString].
  destruct (Hstep "D"%char s1) as (B1 & S1 & P1); [auto | auto | reflexivity|].
  revert B1 S1 P1. generalize (retPutChar "D" s1). intros s2 B1 S1 P1.
  rewrite Hb in B1. cbn in B1.
  destruct (Hstep "O"%char s2) as (B2 & S2 & P2);
    [right; rewrite B1; cbn; lia | auto | reflexivity|].
  revert B2 S2 P2. generalize (retPutChar "O" s2). intros s3 B2 S2 P2.
  rewrite B1 in B2. cbn in B2.
  destruct (Hstep "N"%char s3) as (B3 & S3 & P3);
    [right; rewrite B2; cbn; lia | auto | reflexivity|].
  revert B3 S3 P3. generalize (retPutChar "N" s3). intros s4 B3 S3 P3.
  rewrite B2 in B3. cbn in B3.
  destruct (Hstep "E"%char s4) as (B4 & S4 & P4);
    [right; rewrite B3; cbn; lia | auto | reflexivity|].
  revert B4 S4 P4. generalize (retPutChar "E" s4). intros s5 B4 S4 P4.
  rewrite B3 in B4. cbn in B4.
  unfold retSendBuffer, next_in. rewrite B4.
  change (strlen "DONE" =? 0) with false. cbv iota. cbn [sink buf set_buf].
  split; [|reflexivity].
  rewrite S4, S3, S2, S1, Hs, <- app_assoc. reflexivity.
Qed.

Section Root.

Variable HAL_GetTick : nat -> Z.

(** The root frame after an unwinding has reached it. *)
Lemma after_setjmp_unwound (err_flag : ret_val_t) (st : engine) :
  nest st = 0 -> tag_str st = "" -> test_tag (param st) <> "" ->
  exists pre,
    after_setjmp HAL_GetTick 0 RET_PASS err_flag st
    = Returns err_flag (retExit_end pre)
    /\ nest pre = 0 /\ is_pause pre = is_pause st
    /\ test_tag (param pre) = test_tag (param st)
    /\ ends (trace pre) = ends (trace st)
    /\ bodies (trace pre) = bodies (trace st).
Proof.
  intros Hn Hs Ht.
  destruct (retExit_unwound HAL_GetTick (log (EvResult 0 RET_PASS) st))
    as (pre & Hexit & Hw); try assumption.
  unfold after_setjmp. rewrite Hexit.
  exists pre. split; [reflexivity|]. destruct Hw.
  cbn [nest is_pause param log] in sw_nest0, sw_pause0, sw_target0.
  split; [congruence|]. split; [assumption|]. split; [assumption|].
  rewrite sw_trace0, log_ends, log_bodies, !app_nil_r. auto.
Qed.

(** The root frame from its err_flag update on, for the ROOT node. *)
Lemma after_setjmp_root (v : ret_val_t) (err_flag : ret_val_t)
  (st sc : engine) (tg : string) :
  v <> RET_ERR_TAG -> frame_inv st -> nest st = 0 -> tag_str st = "" ->
  inside 0 tg st sc ->
  exists err1 pre,
    after_setjmp HAL_GetTick 0 v err_flag sc = Returns err1 (retExit_end pre)
    /\ nest pre = 0 /\ is_pause pre = is_pause st
    /\ test_tag (param pre) = test_tag (param st)
    /\ ends (trace pre) = ends (trace st)
    /\ bodies (trace pre) = bodies (trace sc).
Proof.
  intros Hv Hinv Hnest Hpath Hin. pose proof Hin as [].
  destruct Hinv as [Hc Hf Hl H0 Hrv].
  pose proof (retExit_spec HAL_GetTick v (log (EvResult 0 v) sc) 0
                (tag_str st) (String RET_TOKEN_DELIMITER "" ++ tg) Hv)
    as Hexit.
  cbn [nest tag_str ret_env param log] in Hexit.
  unfold slot_cursor in Hexit. cbn [ret_env log Z.to_nat] in Hexit.
  fold (slot_cursor 0 sc) in Hexit.
  specialize (Hexit in_nest0 ltac:(unfold RET_MAX_NEST_SIZE; lia)
                in_tag_str0 Hf).
  rewrite in_cursor0, H0, Hpath in Hexit by (cbn; lia).
  specialize (Hexit eq_refl eq_refl ltac:(congruence)).
  rewrite Hpath in in_tag_str0.
  unfold after_setjmp.
  destruct (String.eqb (tag_str sc) (test_tag (param sc))) eqn:Eeq.
  - destruct Hexit as (st2 & -> & Hn2 & Hs2 & Hp2 & Hsp).
    rewrite Z.eqb_refl. destruct Hsp.
    cbn [is_pause ret_env param log] in sp_pause0, sp_env0, sp_mode0,
      sp_target0, sp_retval0.
    apply String.eqb_eq in Eeq.
    assert (Hlr : longjmp_retval
                    (if ret_val_eqb v RET_PASS then 1 else ret_val_int v)
                  = RET_PASS) by (destruct v; reflexivity).
    cbv zeta. rewrite Hlr.
    destruct (retExit_unwound HAL_GetTick (log (EvResult 0 RET_PASS) st2))
      as (pre & -> & Hw).
    { exact Hn2. }
    { exact Hs2. }
    { cbn [param log]. rewrite sp_target0, <- Eeq, in_tag_str0. discriminate. }
    destruct Hw.
    cbn [nest is_pause param log] in sw_nest0, sw_pause0, sw_target0.
    eexists. exists pre. split; [reflexivity|].
    split; [congruence|]. split; [congruence|]. split; [congruence|].
    rewrite sw_trace0, log_ends, log_bodies, !app_nil_r, sp_trace0, log_ends,
      log_bodies, !app_nil_r.
    auto.
  - destruct Hexit as (st2 & -> & Hn2 & Hs2 & Hp2 & Hsp).
    rewrite Z.eqb_refl. destruct Hsp.
    cbn [is_pause ret_env param log] in sp_pause0, sp_env0, sp_mode0,
      sp_target0, sp_retval0.
    eexists. exists st2. split; [reflexivity|].
    split; [congruence|]. split; [congruence|]. split; [congruence|].
    rewrite sp_trace0, log_ends, log_bodies, !app_nil_r. auto.
Qed.

(** A run of well-behaved test functions returns, and its last step is the
    end of retExit in the root frame. *)
Lemma root_run (p : ret_param_t) (RunTrunk : ret_func_t) (st0 : engine) :
  well_behaved RunTrunk = true ->
  List.length (ret_env st0) = 6%nat ->
  exists r pre,
    retStart HAL_GetTick p RunTrunk st0
    = Returns r (set_pause RET_PAUSE (retExit_end pre))
    /\ nest pre = 0 /\ is_pause pre = RET_PAUSE
    /\ test_tag (param pre) = test_tag p
    /\ ends (trace pre) = ends (trace st0)
    /\ (mode p = RET_MODE_EXE -> test_tag p = RET_ROOT_TAG ->
        fits 1 "@ROOT" RunTrunk = true ->
        bodies (trace pre)
        = (bodies (trace st0) ++ leaf_paths "@ROOT" RunTrunk)%list).
Proof.
  intros Hwb Hlen.
  unfold retStart, retExecuteList, root_list, retExecuteList_body.
  set (s0 := retStart_init p st0).
  change (nest s0) with 0.
  change (0 >=? RET_MAX_NEST_SIZE) with false. cbv iota.
  destruct (env_at_some 0 s0 ltac:(unfold RET_MAX_NEST_SIZE; lia) Hlen)
    as (e & -> & He).
  change (is_pause s0) with RET_PAUSE. change (tag_ptr s0) with 0.
  set (st1 := env_set 0 _ s0).
  assert (Hinv : frame_inv st1).
  { constructor; try reflexivity.
    - unfold st1. cbn [ret_env env_set set_env]. rewrite length_list_set.
      exact Hlen.
    - unfold st1, slot_cursor. cbn [ret_env env_set set_env Z.to_nat].
      rewrite nth_error_list_set. cbn [Nat.eqb Z.to_nat] in *.
      rewrite He. reflexivity.
    - unfold retval_ok. cbn. lia. }
  rewrite for_loop_cons, loop_body_in_range
    by (change (nest st1) with 0; unfold RET_MAX_NEST_SIZE; lia).
  change (nest st1) with 0.
  set (root := {| func := RunTrunk; tag := RET_ROOT_TAG |}).
  destruct (retAddTag_inv (tag root) st1 Hinv
              ltac:(change (nest st1) with 0; unfold RET_MAX_NEST_SIZE; lia))
    as [[Hov _] | [Hfit Hadd]].
  { exfalso. change (tag_ptr st1) with 0 in Hov.
    change (strlen (tag root)) with 4 in Hov.
    unfold RET_MAX_TAG_STRING_SIZE in Hov. lia. }
  destruct (retEnter_mode_spec HAL_GetTick
              (set_path (tag_str st1 ++ String RET_TOKEN_DELIMITER ""
                         ++ tag root)
                 (tag_ptr st1 + strlen (tag root) + 1) (nest st1 + 1) st1) 1)
    as (sm & Hmode & Hent).
  { reflexivity. }
  { unfold RET_MAX_NEST_SIZE. lia. }
  { cbn [ret_env set_path]. apply Hinv. }
  rewrite (retEnter_pass _ _ _ _ _ _ Hadd Hmode).
  destruct (enter_inside (tag root) st1 sm 0 Hinv eq_refl
              ltac:(unfold RET_MAX_NEST_SIZE; lia) Hfit Hent)
    as [Hin Hfi].
  destruct (call_func_spec HAL_GetTick RunTrunk Hwb
              (log (EvCall (tag_str sm)) sm) 1 ltac:(apply Hin)
              ltac:(unfold RET_MAX_NEST_SIZE; lia) Hfi) as [Hcall Hpay].
  assert (Hexe : mode p = RET_MODE_EXE -> test_tag p = RET_ROOT_TAG ->
            exe_root (log (EvCall (tag_str sm)) sm)
            /\ bodies (trace (log (EvCall (tag_str sm)) sm))
               = bodies (trace st0)).
  { intros Hmo Hta. destruct Hent.
    cbn [tag_str tag_ptr nest is_pause param trace ret_env set_path] in *.
    change (mode (param st1)) with (mode p) in ent_mode0.
    change (test_tag (param st1)) with (test_tag p) in ent_mode0,
      ent_target0.
    change (tag_str st1) with "" in ent_mode0, ent_tag_str0.
    change (trace st1) with (trace st0) in ent_trace0.
    rewrite Hmo, Hta in ent_mode0.
    split; [split; [|split]|].
    - exact ent_mode0.
    - cbn [param log]. congruence.
    - cbn [tag_str log]. rewrite ent_tag_str0. apply rooted_root.
    - rewrite log_bodies, app_nil_r. congruence. }
  assert (Hpath : tag_str (log (EvCall (tag_str sm)) sm) = "@ROOT")
    by (rewrite (in_tag_str _ _ _ _ Hin); reflexivity).
  change (func root) with RunTrunk.
  revert Hcall Hpay Hin Hexe Hpath. generalize (log (EvCall (tag_str sm)) sm).
  intros sq Hcall Hpay Hin Hexe Hpath. rewrite Hpath in Hpay.
  assert (Hfin : forall v sc, v <> RET_ERR_TAG -> kept 1 sq sc ->
            exists r pre,
              bind (bind (after_setjmp HAL_GetTick 0 v RET_PASS sc)
                      (fun err1 s => for_loop HAL_GetTick
                                       (call_func HAL_GetTick) [] err1 s))
                (fun err_flag s => Returns err_flag (set_pause RET_PAUSE s))
              = Returns r (set_pause RET_PAUSE (retExit_end pre))
              /\ nest pre = 0 /\ is_pause pre = RET_PAUSE
              /\ test_tag (param pre) = test_tag p
              /\ ends (trace pre) = ends (trace st0)
              /\ bodies (trace pre) = bodies (trace sc)).
  { intros v sc Hv Hk.
    destruct (after_setjmp_root v RET_PASS st1 sc (tag root) Hv Hinv
                eq_refl eq_refl (inside_kept _ _ _ _ _ Hin Hk))
      as (err1 & pre & -> & Hn & Hp & Ht & He' & Hb').
    rewrite bind_returns, for_loop_nil, bind_returns.
    exists err1, pre. split; [reflexivity|]. auto 6. }
  destruct (call_func HAL_GetTick RunTrunk sq) as [v sc | k val sc | |];
    try contradiction.
  - destruct Hcall as [Hv Hk]. rewrite catch_returns, bind_returns.
    cbv beta.
    destruct (Hfin v sc Hv Hk) as (r & pre & E & Hn & Hp & Ht & He' & Hb').
    exists r, pre. split; [exact E|]. repeat split; try assumption.
    intros Hmo Hta Hf. destruct (Hexe Hmo Hta) as [Hx Hbq].
    destruct (Hpay Hx Hf) as [_ Hbo]. congruence.
  - destruct Hcall as [(-> & -> & Hk) | (-> & Hval & Hunw)].
    + change (1 - 1) with 0. rewrite catch_own, bind_returns.
      change (longjmp_retval (-1)) with RET_FAIL. cbv beta.
      destruct (Hfin RET_FAIL sc ltac:(discriminate) Hk)
        as (r & pre & E & Hn & Hp & Ht & He' & Hb').
      exists r, pre. split; [exact E|]. repeat split; try assumption.
      intros Hmo Hta Hf. destruct (Hexe Hmo Hta) as [Hx Hbq].
      destruct (Hpay Hx Hf) as (_ & _ & Hbo). congruence.
    + rewrite catch_own, bind_returns.
      replace (longjmp_retval val) with RET_PASS
        by (unfold longjmp_retval;
            replace (val =? -1) with false
              by (symmetry; apply Z.eqb_neq; exact Hval);
            reflexivity).
      cbv beta. destruct Hunw as [Hn Hs Hp Ht Hb].
      destruct (after_setjmp_unwound RET_PASS sc Hn Hs Ht)
        as (pre & E & Hn' & Hp' & Ht' & He' & Hb').
      exists RET_PASS, pre.
      split; [rewrite E, bind_returns, for_loop_nil, bind_returns;
              reflexivity|].
      pose proof (inside_base 0 _ _ _ ltac:(lia) Hin) as Hb0.
      destruct Hb, Hb0.
      change (is_pause st1) with RET_PAUSE in *.
      change (test_tag (param st1)) with (test_tag p) in *.
      change (trace st1) with (trace st0) in *.
      split; [congruence|]. split; [congruence|]. split; [congruence|].
      split; [congruence|].
      intros Hmo Hta Hf. destruct (Hexe Hmo Hta) as [Hx Hbq].
      destruct (Hpay Hx Hf) as (Hv1 & _). contradiction.
Qed.

End Root.

(** ** Unwinding caught as a pass *)


(** A failed test reached by its whole tag path: its T line says FAIL, the
    root frame records RET_PASS and the run returns RET_PASS. *)
Lemma failed_target_returns_pass :
  match retStart tick_each_read (run_config RET_MODE_EXE "@ROOT@A")
          failing_first_tree power_on with
  | Returns r st =>
      r = RET_PASS
      /\ results_at 1 (trace st) = [RET_FAIL]
      /\ results_at 0 (trace st) = [RET_PASS]
      /\ sink st
         = [("I,   0,    ,      ,Assert at line 35 of a.c == 0" ++ String LF
             "T,   1,FAIL,     1,@ROOT@A" ++ String LF "")%string;
            String LF ""; "DONE"]
  | _ => False
  end.
Proof. vm_compute. repeat split. Qed.



(** ** Aggregate result and visit order *)



(** ** Assertions *)

Lemma retConvIntToDecAscii_examples :
  retConvIntToDecAscii 35 = Some "35"
  /\ retConvIntToDecAscii 0 = Some "0"
  /\ retConvIntToDecAscii (-7) = Some "-7"
  /\ retConvIntToDecAscii 2147483647 = Some "2147483647"
  /\ retConvIntToDecAscii (-2147483647) = Some "-2147483647".
Proof. repeat split. Qed.




Section Sticky.

Variable HAL_GetTick : nat -> Z.
Variable call : ret_func_t -> engine -> outcome ret_val_t.




End Sticky.


(** * Further properties *)

(** ** Decimal conversions *)

Lemma string_of_list_ascii_app (a b : list ascii) :
  string_of_list_ascii (a ++ b)
  = (string_of_list_ascii a ++ string_of_list_ascii b)%string.
Proof.
  induction a as [|c a IH]; cbn; [reflexivity | rewrite IH; reflexivity].
Qed.

Lemma list_ascii_of_string_app (a b : string) :
  list_ascii_of_string (a ++ b)
  = (list_ascii_of_string a ++ list_ascii_of_string b)%list.
Proof.
  induction a as [|c a IH]; cbn; [reflexivity | rewrite IH; reflexivity].
Qed.

Lemma string_rev_app (a b : string) :
  string_rev (a ++ b) = (string_rev b ++ string_rev a)%string.
Proof.
  unfold string_rev.
  rewrite list_ascii_of_string_app, rev_app_distr.
  apply string_of_list_ascii_app.
Qed.

Lemma string_rev_cons (c : ascii) (s : string) :
  string_rev (String c s) = (string_rev s ++ String c "")%string.
Proof. exact (string_rev_app (String c "") s). Qed.

Lemma decimal_value_from_app (a b : string) : forall acc,
  decimal_value_from acc (a ++ b)
  = match decimal_value_from acc a with
    | Some x => decimal_value_from x b
    | None => None
    end.
Proof.
  induction a as [|c a IH]; intros acc; cbn [append decimal_value_from];
    [reflexivity|].
  destruct (digit_value c); [apply IH | reflexivity].
Qed.

Lemma app_not_empty (a : string) (c : ascii) (b : string) :
  (a ++ String c b)%string <> "".
Proof. destruct a; discriminate. Qed.

Lemma unsigned_value_snoc (a : string) (c : ascii) :
  unsigned_value (a ++ String c "") = decimal_value_from 0 (a ++ String c "").
Proof.
  unfold unsigned_value.
  destruct (a ++ String c "")%string eqn:E; [|reflexivity].
  exfalso. exact (app_not_empty _ _ _ E).
Qed.

Lemma small_digit (d : Z) :
  0 <= d < 10 ->
  d = 0 \/ d = 1 \/ d = 2 \/ d = 3 \/ d = 4 \/ d = 5 \/ d = 6 \/ d = 7
  \/ d = 8 \/ d = 9.
Proof. lia. Qed.

(** The digit retConvIntToDecAscii takes from RET_DIGITS. *)
Lemma RET_DIGITS_digit (v : Z) :
  0 <= v ->
  digit_value (char_at RET_DIGITS (Z.to_nat (Z.rem v 10))) = Some (v mod 10).
Proof.
  intros Hv. rewrite Z.rem_mod_nonneg by lia.
  pose proof (Z.mod_pos_bound v 10 ltac:(lia)) as Hb.
  destruct (small_digit _ Hb) as [E|[E|[E|[E|[E|[E|[E|[E|[E|E]]]]]]]]];
    rewrite E; reflexivity.
Qed.

(** The digit retDecimalDigits computes as ['0' + value - next * 10]. *)
Lemma field_digit (v : Z) :
  0 <= v ->
  digit_value
    (ascii_of_N (Z.to_N (u32 (48 + v - v / 10 * 10) mod 256)))
  = Some (v mod 10).
Proof.
  intros Hv.
  replace (48 + v - v / 10 * 10) with (48 + v mod 10)
    by (rewrite (Z.mod_eq v 10) by lia; lia).
  pose proof (Z.mod_pos_bound v 10 ltac:(lia)) as Hb.
  destruct (small_digit _ Hb) as [E|[E|[E|[E|[E|[E|[E|[E|[E|E]]]]]]]]];
    rewrite E; reflexivity.
Qed.

Lemma retConvIntToDecAscii_loop_step (n : nat) (v : Z) :
  retConvIntToDecAscii_loop (S n) v
  = String (char_at RET_DIGITS (Z.to_nat (Z.rem v 10)))
      (if Z.quot v 10 =? 0 then ""
       else retConvIntToDecAscii_loop n (Z.quot v 10)).
Proof. reflexivity. Qed.

Lemma retConvIntToDecAscii_loop_value (n : nat) : forall v,
  0 <= v < 10 ^ Z.of_nat (S n) ->
  unsigned_value (string_rev (retConvIntToDecAscii_loop (S n) v)) = Some v.
Proof.
  induction n as [|n IH]; intros v Hv;
    [rewrite (retConvIntToDecAscii_loop_step 0 v)
    |rewrite (retConvIntToDecAscii_loop_step (S n) v)];
    rewrite string_rev_cons, unsigned_value_snoc, decimal_value_from_app.
  - replace (Z.quot v 10 =? 0) with true
      by (symmetry; apply Z.eqb_eq, Z.quot_small;
          change (10 ^ Z.of_nat 1) with 10 in Hv; lia).
    cbn [string_rev decimal_value_from]. 
    change (string_rev "") with "". cbn [decimal_value_from].
    rewrite RET_DIGITS_digit by lia. f_equal.
    change (10 ^ Z.of_nat 1) with 10 in Hv. rewrite Z.mod_small; lia.
  - destruct (Z.quot v 10 =? 0) eqn:Eq.
    + apply Z.eqb_eq in Eq.
      change (string_rev "") with "". cbn [decimal_value_from].
      rewrite RET_DIGITS_digit by lia. f_equal.
      rewrite Z.quot_div_nonneg in Eq by lia.
      pose proof (Z.div_mod v 10 ltac:(lia)). lia.
    + apply Z.eqb_neq in Eq.
      assert (Hq : 0 <= Z.quot v 10 < 10 ^ Z.of_nat (S n)).
      { rewrite Z.quot_div_nonneg by lia. split.
        - apply Z.div_pos; lia.
        - apply Z.div_lt_upper_bound; [lia|].
          rewrite <- Z.pow_succ_r by lia.
          rewrite <- Nat2Z.inj_succ. lia. }
      pose proof (IH _ Hq) as Hrec.
      unfold unsigned_value in Hrec.
      destruct (string_rev (retConvIntToDecAscii_loop (S n) (Z.quot v 10)))
        eqn:Es; [discriminate|].
      rewrite Hrec. cbn [decimal_value_from].
      rewrite RET_DIGITS_digit by lia. f_equal.
      rewrite Z.quot_div_nonneg by lia.
      pose proof (Z.div_mod v 10 ltac:(lia)). lia.
Qed.

Lemma set_char_blanks (p : nat) (c : ascii) (tail : string) :
  set_char p c (blanks (S p) ++ tail) = (blanks p ++ String c tail)%string.
Proof.
  induction p as [|p IH]; [reflexivity|].
  change (blanks (S (S p)) ++ tail)%string
    with (String " " (blanks (S p) ++ tail)).
  cbn [set_char]. rewrite IH. reflexivity.
Qed.

Lemma retDecimalDigits_loop_step (p : nat) (value : Z) (work : string) :
  retDecimalDigits_loop (S p) value work
  = let next := value / 10 in
    let c := ascii_of_N (Z.to_N (u32 (48 + value - next * 10) mod 256)) in
    let work' := set_char p c work in
    if negb (next =? 0) && negb (Nat.eqb p O)
    then retDecimalDigits_loop p next work'
    else work'.
Proof. reflexivity. Qed.


Lemma strlen_blanks (k : nat) : strlen (blanks k) = Z.of_nat k.
Proof.
  unfold strlen. f_equal. induction k as [|k IH]; cbn; [reflexivity|].
  rewrite IH. reflexivity.
Qed.

(** The do-while of retDecimalDigits on blanks. *)
Lemma retDecimalDigits_loop_field (p : nat) : forall (v : Z) (tail : string),
  0 <= v ->
  exists (k : nat) (digits : string),
    retDecimalDigits_loop (S p) v (blanks (S p) ++ tail)
    = (blanks k ++ digits ++ tail)%string
    /\ Z.of_nat k + strlen digits = Z.of_nat (S p)
    /\ 1 <= strlen digits
    /\ (forall acc, decimal_value_from acc digits
                    = Some (acc * 10 ^ strlen digits
                            + v mod 10 ^ strlen digits))
    /\ (v < 10 ^ strlen digits \/ k = O).
Proof.
  induction p as [|p IH]; intros v tail Hv;
    rewrite retDecimalDigits_loop_step; cbv zeta; rewrite set_char_blanks.
  - replace (negb (v / 10 =? 0) && negb (Nat.eqb 0 0)) with false
      by (rewrite andb_comm; reflexivity).
    exists O, (String (ascii_of_N
                         (Z.to_N (u32 (48 + v - v / 10 * 10) mod 256))) "").
    split; [reflexivity|]. split; [reflexivity|]. split; [reflexivity|].
    split; [|right; reflexivity].
    intros acc. cbn [decimal_value_from]. rewrite field_digit by lia.
    change (strlen (String _ "")) with 1. change (10 ^ 1) with 10.
    f_equal. lia.
  - change (Nat.eqb (S p) 0) with false. rewrite andb_true_r.
    destruct (v / 10 =? 0) eqn:Eq; cbn [negb].
    + apply Z.eqb_eq in Eq.
      exists (S p), (String (ascii_of_N
                         (Z.to_N (u32 (48 + v - v / 10 * 10) mod 256))) "").
      split; [reflexivity|].
      change (strlen (String _ "")) with 1.
      split; [lia|]. split; [lia|]. change (10 ^ 1) with 10.
      split.
      * intros acc. cbn [decimal_value_from]. rewrite field_digit by lia.
        f_equal. lia.
      * left. pose proof (Z.div_mod v 10 ltac:(lia)).
        pose proof (Z.mod_pos_bound v 10 ltac:(lia)). lia.
    + apply Z.eqb_neq in Eq.
      destruct (IH (v / 10)
                  (String (ascii_of_N
                     (Z.to_N (u32 (48 + v - v / 10 * 10) mod 256))) tail)
                  ltac:(apply Z.div_pos; lia))
        as (k & d & Hrun & Hlen & Hpos & Hval & Hfit).
      exists k, (d ++ String (ascii_of_N
                     (Z.to_N (u32 (48 + v - v / 10 * 10) mod 256))) "")%string.
      split.
      { rewrite Hrun, string_app_assoc. reflexivity. }
      rewrite strlen_app. change (strlen (String _ "")) with 1.
      split; [lia|]. split; [lia|].
      assert (Hpow : 10 ^ (strlen d + 1) = 10 * 10 ^ strlen d)
        by (rewrite Z.pow_add_r by lia; lia).
      split.
      * intros acc. rewrite decimal_value_from_app, Hval.
        cbn [decimal_value_from]. rewrite field_digit by lia. f_equal.
        rewrite Hpow.
        rewrite (Z.rem_mul_r v 10 (10 ^ strlen d)) by lia. lia.
      * destruct Hfit as [Hfit | Hk]; [left | right; exact Hk].
        rewrite Hpow. pose proof (Z.div_mod v 10 ltac:(lia)).
        pose proof (Z.mod_pos_bound v 10 ltac:(lia)). lia.
Qed.

Lemma retConvIntToDecAscii_nonneg (v : Z) :
  0 <= v ->
  retConvIntToDecAscii v = Some (string_rev (retConvIntToDecAscii_loop 10 v)).
Proof.
  intros Hv. unfold retConvIntToDecAscii.
  replace (v =? -2147483648) with false by (symmetry; apply Z.eqb_neq; lia).
  replace (v <? 0) with false by (symmetry; apply Z.ltb_ge; lia).
  reflexivity.
Qed.

Lemma retConvIntToDecAscii_neg (v : Z) :
  -2147483648 < v < 0 ->
  retConvIntToDecAscii v
  = Some (String "-" (string_rev (retConvIntToDecAscii_loop 10 (- v)))).
Proof.
  intros Hv. unfold retConvIntToDecAscii.
  replace (v =? -2147483648) with false by (symmetry; apply Z.eqb_neq; lia).
  replace (v <? 0) with true by (symmetry; apply Z.ltb_lt; lia).
  cbv zeta iota. rewrite string_rev_app. reflexivity.
Qed.

Lemma retConvIntToDecAscii_loop_rev_length (n : nat) (v : Z) :
  1 <= strlen (string_rev (retConvIntToDecAscii_loop (S n) v))
    <= Z.of_nat (S n).
Proof.
  rewrite strlen_rev.
  pose proof (retConvIntToDecAscii_loop_length (S n) v) as H.
  rewrite retConvIntToDecAscii_loop_step in *.
  unfold strlen. cbn [String.length] in *. lia.
Qed.

(** retConvIntToDecAscii on any [int32_t] but the least one: the text is an
    optional minus sign and decimal digits that denote the value, and with
    its terminator it fits the twelve cells of [ascii_buf]. *)
Theorem retConvIntToDecAscii_reads_back (val : Z) :
  -2147483648 < val < 2147483648 ->
  exists s, retConvIntToDecAscii val = Some s
            /\ signed_value s = Some val
            /\ 1 <= strlen s <= 11.
Proof.
  intros Hv.
  assert (Hpos : forall v, 0 <= v < 2147483648 ->
            unsigned_value (string_rev (retConvIntToDecAscii_loop 10 v))
            = Some v).
  { intros v Hb. apply retConvIntToDecAscii_loop_value.
    change (10 ^ Z.of_nat 10) with 10000000000. lia. }
  destruct (Z.lt_ge_cases val 0) as [Hneg | Hnn].
  - rewrite retConvIntToDecAscii_neg by lia.
    pose proof (Hpos (- val) ltac:(lia)) as Hu.
    pose proof (retConvIntToDecAscii_loop_rev_length 9 (- val)) as Hl.
    revert Hu Hl.
    generalize (string_rev (retConvIntToDecAscii_loop 10 (- val))) as d.
    intros d Hu Hl. eexists. split; [reflexivity|]. split.
    + cbn [signed_value]. change (Ascii.eqb "-" "-") with true. cbv iota.
      rewrite Hu. cbn [option_map]. f_equal. lia.
    + unfold strlen in *. cbn [String.length]. lia.
  - rewrite retConvIntToDecAscii_nonneg by lia.
    pose proof (Hpos val ltac:(lia)) as Hu.
    pose proof (retConvIntToDecAscii_loop_rev_length 9 val) as Hl.
    revert Hu Hl.
    generalize (string_rev (retConvIntToDecAscii_loop 10 val)) as d.
    intros d Hu Hl. exists d. split; [reflexivity|]. split.
    + destruct d as [|c r]; [discriminate|]. cbn [signed_value].
      destruct (Ascii.eqb c "-") eqn:Ec; [|exact Hu].
      apply Ascii.eqb_eq in Ec. subst c. discriminate.
    + lia.
Qed.

Lemma retConvIntToDecAscii_reads_back_witness :
  exists s, retConvIntToDecAscii (-2147483647) = Some s
            /\ signed_value s = Some (-2147483647)
            /\ 1 <= strlen s <= 11.
Proof. apply retConvIntToDecAscii_reads_back. lia. Defined.



(** ** The report buffer and the lines of a report *)

Lemma string_app_nil_r (s : string) : (s ++ "")%string = s.
Proof. induction s as [|c s IH]; cbn; [reflexivity | rewrite IH; reflexivity]. Qed.

Lemma truncate_all (n : nat) : forall s,
  (String.length s <= n)%nat -> truncate n s = s.
Proof.
  induction n as [|n IH]; intros [|c s] H; cbn in *; try reflexivity;
    [lia|]. rewrite IH by lia. reflexivity.
Qed.

Lemma truncate_truncate_app (n : nat) : forall a b,
  truncate n (truncate n a ++ b) = truncate n (a ++ b).
Proof.
  induction n as [|n IH]; intros a b; [destruct a; destruct b; reflexivity|].
  destruct a as [|c a]; [reflexivity|].
  cbn [truncate append]. rewrite IH. reflexivity.
Qed.

Lemma truncate_length (n : nat) : forall s,
  (String.length (truncate n s) <= n)%nat.
Proof.
  induction n as [|n IH]; intros [|c s]; cbn; try lia.
  specialize (IH s). lia.
Qed.

(** retPutChar while nothing is sent per line. *)
Lemma retPutChar_clip (c : ascii) (st : engine) :
  is_pause st = false -> next_in st <= RET_REPORT_BUF_SIZE ->
  buf (retPutChar c st) = truncate capacity (buf st ++ String c "")
  /\ sink (retPutChar c st) = sink st
  /\ is_pause (retPutChar c st) = false
  /\ next_line_number (retPutChar c st) = next_line_number st.
Proof.
  intros Hp Hn. unfold retPutChar.
  destruct (next_in st <? RET_REPORT_BUF_SIZE) eqn:E.
  - apply Z.ltb_lt in E.
    cbn [is_pause set_buf]. rewrite Hp, andb_false_r.
    cbn [buf sink is_pause next_line_number set_buf].
    split; [|auto]. symmetry. apply truncate_all.
    unfold next_in, strlen, RET_REPORT_BUF_SIZE, capacity in *.
    pose proof (strlen_app (buf st) (String c "")) as Hl.
    unfold strlen in Hl. cbn [String.length] in Hl.
    change (Z.to_nat RET_REPORT_BUF_SIZE) with 4096%nat. lia.
  - apply Z.ltb_ge in E. split; [|auto].
    assert (Hlen : String.length (buf st) = capacity).
    { unfold next_in, strlen, capacity in *. lia. }
    rewrite <- Hlen. symmetry. apply truncate_app.
Qed.

Lemma retPutString_clip (s : string) : forall st,
  is_pause st = false -> next_in st <= RET_REPORT_BUF_SIZE ->
  buf (retPutString s st) = truncate capacity (buf st ++ s)
  /\ sink (retPutString s st) = sink st
  /\ is_pause (retPutString s st) = false
  /\ next_line_number (retPutString s st) = next_line_number st.
Proof.
  induction s as [|c s IH]; intros st Hp Hn; cbn [retPutString].
  - split; [|auto]. rewrite string_app_nil_r. symmetry. apply truncate_all.
    change capacity with 4096%nat.
    unfold next_in, strlen, RET_REPORT_BUF_SIZE in Hn. lia.
  - destruct (retPutChar_clip c st Hp Hn) as (Hb & Hs & Hq & Hl).
    assert (Hn' : next_in (retPutChar c st) <= RET_REPORT_BUF_SIZE).
    { unfold next_in, strlen. rewrite Hb.
      pose proof (truncate_length capacity (buf st ++ String c "")).
      change capacity with 4096%nat in *. unfold RET_REPORT_BUF_SIZE. lia. }
    destruct (IH _ Hq Hn') as (Hb2 & Hs2 & Hq2 & Hl2).
    rewrite Hb2, Hs2, Hq2, Hl2, Hb, Hs, Hl, truncate_truncate_app.
    rewrite string_app_assoc. auto.
Qed.

Lemma retPutString_app (a b : string) : forall st,
  retPutString (a ++ b) st = retPutString b (retPutString a st).
Proof.
  induction a as [|c a IH]; intros st; [reflexivity|].
  cbn [append retPutString]. apply IH.
Qed.

Lemma retPutChar_set_line (c : ascii) (n : Z) (st : engine) :
  retPutChar c (set_line n st) = set_line n (retPutChar c st).
Proof.
  unfold retPutChar, retSendBuffer, next_in.
  cbn [buf is_pause set_line set_buf].
  destruct (strlen (buf st) <? RET_REPORT_BUF_SIZE); [|reflexivity].
  destruct (Ascii.eqb LF c && is_pause st); [|reflexivity].
  destruct (strlen (buf st ++ String c "") =? 0); reflexivity.
Qed.

Lemma retPutString_set_line (s : string) (n : Z) : forall st,
  retPutString s (set_line n st) = set_line n (retPutString s st).
Proof.
  induction s as [|c s IH]; intros st; [reflexivity|].
  cbn [retPutString]. rewrite retPutChar_set_line. apply IH.
Qed.

Lemma retPutChar_line (c : ascii) (st : engine) :
  next_line_number (retPutChar c st) = next_line_number st.
Proof.
  unfold retPutChar, retSendBuffer.
  destruct (next_in st <? RET_REPORT_BUF_SIZE); [|reflexivity].
  destruct (Ascii.eqb LF c && _); [|reflexivity].
  destruct (next_in _ =? 0); reflexivity.
Qed.

Lemma retPutString_line (s : string) : forall st,
  next_line_number (retPutString s st) = next_line_number st.
Proof.
  induction s as [|c s IH]; intros st; [reflexivity|].
  cbn [retPutString]. rewrite IH. apply retPutChar_line.
Qed.

Lemma retDecimalDigits_text (value width : Z) (st : engine) :
  0 < width < 10 ->
  retDecimalDigits value width st
  = retPutString (decimal_field value width) st.
Proof.
  intros H. unfold retDecimalDigits.
  replace (0 <? width) with true by (symmetry; apply Z.ltb_lt; lia).
  replace (width <? 10) with true by (symmetry; apply Z.ltb_lt; lia).
  reflexivity.
Qed.



Lemma retPutChar_as_string (c : ascii) (st : engine) :
  retPutChar c st = retPutString (String c "") st.
Proof. reflexivity. Qed.

Lemma retFormatLine_text (t : ascii) (str : string) (pause : bool)
  (st : engine) :
  retFormatLine t str pause st
  = set_pause (is_pause st)
      (set_line (u32 (next_line_number st + 1))
         (retPutString (line_text t (next_line_number st) str)
            (set_pause pause st))).
Proof.
  unfold retFormatLine, line_text, retPutLineFeed, retPutCommaSeparator.
  cbv zeta.
  rewrite !retPutChar_line.
  change (next_line_number (set_pause pause st)) with (next_line_number st).
  rewrite retDecimalDigits_text by lia.
  rewrite !retPutChar_as_string.
  rewrite !retPutString_set_line.
  rewrite <- !retPutString_app.
  do 3 f_equal.
Qed.

Lemma tag_str_retPutString (s : string) (st : engine) :
  tag_str (retPutString s st) = tag_str st.
Proof.
  pose proof (retPutString_core s st) as H. apply core_fields in H.
  apply H.
Qed.

Lemma retTestLineFormat_text (v : ret_val_t) (elapsed_time : Z)
  (st : engine) :
  retTestLineFormat v elapsed_time st
  = set_line (u32 (next_line_number st + 1))
      (retPutString
         (test_line_text (next_line_number st) v elapsed_time (tag_str st))
         st).
Proof.
  unfold retTestLineFormat, test_line_text, retPutLineFeed,
    retPutCommaSeparator.
  cbv zeta.
  rewrite !retDecimalDigits_text by lia.
  rewrite !retPutChar_as_string.
  rewrite !retPutString_line.
  rewrite !retPutString_set_line.
  rewrite <- !retPutString_app.
  change (tag_str (set_line ?n ?s)) with (tag_str s).
  rewrite tag_str_retPutString.
  do 2 f_equal.
Qed.

Lemma no_line_feed_app (a b : string) :
  no_line_feed (a ++ b) = no_line_feed a && no_line_feed b.
Proof.
  unfold no_line_feed. rewrite list_ascii_of_string_app. apply forallb_app.
Qed.

Lemma no_line_feed_blanks (k : nat) : no_line_feed (blanks k) = true.
Proof. induction k as [|k IH]; [reflexivity | exact IH]. Qed.

Lemma no_line_feed_decimal (s : string) : forall acc x,
  decimal_value_from acc s = Some x -> no_line_feed s = true.
Proof.
  induction s as [|c s IH]; intros acc x H; [reflexivity|].
  cbn [decimal_value_from] in H.
  destruct (digit_value c) as [d|] eqn:Ed; [|discriminate].
  change (no_line_feed (String c s))
    with (negb (Ascii.eqb LF c) && no_line_feed s).
  rewrite (IH _ _ H), andb_true_r.
  destruct (Ascii.eqb LF c) eqn:Ec; [|reflexivity].
  apply Ascii.eqb_eq in Ec. subst c. discriminate.
Qed.

Lemma decimal_field_no_line_feed (value width : Z) :
  0 <= value -> 0 < width ->
  no_line_feed (decimal_field value width) = true.
Proof.
  intros Hv Hw. unfold decimal_field.
  destruct (Z.to_nat width) as [|p] eqn:E; [lia|].
  destruct (retDecimalDigits_loop_field p value "" Hv)
    as (k & d & Hrun & _ & _ & Hval & _).
  rewrite !string_app_nil_r in Hrun. rewrite Hrun.
  rewrite !no_line_feed_app, no_line_feed_blanks.
  rewrite (no_line_feed_decimal d 0 _ (Hval 0)). reflexivity.
Qed.

(** retPutString of a text without line feed that fits. *)
Lemma retPutString_room (s : string) : forall st,
  no_line_feed s = true ->
  next_in st + strlen s <= RET_REPORT_BUF_SIZE ->
  buf (retPutString s st) = (buf st ++ s)%string
  /\ sink (retPutString s st) = sink st
  /\ is_pause (retPutString s st) = is_pause st.
Proof.
  induction s as [|c s IH]; intros st Hlf Hroom; cbn [retPutString].
  - rewrite string_app_nil_r. auto.
  - change (no_line_feed (String c s))
      with (negb (Ascii.eqb LF c) && no_line_feed s) in Hlf.
    apply andb_prop in Hlf. destruct Hlf as [Hc Hs].
    apply negb_true_iff in Hc.
    assert (Hlen : strlen (String c s) = strlen s + 1)
      by (unfold strlen; cbn [String.length]; lia).
    pose proof (strlen_nonneg s) as Hnn.
    destruct (retPutChar_room c st ltac:(lia)
                ltac:(rewrite Hc; reflexivity)) as (Hb & Hk & Hp).
    destruct (IH (retPutChar c st) Hs) as (Hb2 & Hk2 & Hp2).
    { unfold next_in in *. rewrite Hb, strlen_app.
      change (strlen (String c "")) with 1. lia. }
    rewrite Hb2, Hk2, Hp2, Hb, Hk, Hp.
    rewrite string_app_assoc. auto.
Qed.

(** retDecimalDigits with a width from 1 to 9 writes exactly [width]
    characters: blanks, then decimal digits.  The digits denote the value
    when it has no more than [width] digits; of a longer value the leading
    digits are dropped and no blank is written.  With any other width
    nothing is written. *)
Theorem retDecimalDigits_right_justified (value width : Z) (st : engine) :
  0 <= value ->
  (0 < width < 10 ->
   exists (k : nat) (digits : string),
     retDecimalDigits value width st = retPutString (blanks k ++ digits) st
     /\ Z.of_nat k + strlen digits = width
     /\ 1 <= strlen digits
     /\ unsigned_value digits = Some (value mod 10 ^ strlen digits)
     /\ (value < 10 ^ width -> unsigned_value digits = Some value)
     /\ (10 ^ width <= value -> k = O))
  /\ (width <= 0 \/ 10 <= width -> retDecimalDigits value width st = st).
Proof.
  intros Hv. split.
  - intros Hw. rewrite retDecimalDigits_text by exact Hw.
    unfold decimal_field.
    destruct (Z.to_nat width) as [|p] eqn:E; [lia|].
    destruct (retDecimalDigits_loop_field p value "" Hv)
      as (k & d & Hrun & Hlen & Hpos & Hval & Hfit).
    rewrite !string_app_nil_r in Hrun.
    exists k, d. split; [rewrite Hrun; reflexivity|].
    split; [lia|]. split; [exact Hpos|].
    assert (Hu : unsigned_value d = Some (value mod 10 ^ strlen d)).
    { unfold unsigned_value.
      destruct d as [|c d]; [exfalso; revert Hpos; clear; cbv; auto|].
      rewrite Hval. f_equal. }
    split; [exact Hu|].
    assert (Hmono : strlen d <= width) by lia.
    pose proof (Z.pow_le_mono_r 10 (strlen d) width ltac:(lia) Hmono) as Hle.
    split.
    + intros Hsmall. rewrite Hu. f_equal. apply Z.mod_small.
      destruct Hfit as [Hfit | Hk]; [lia|].
      subst k. replace (strlen d) with width by lia. lia.
    + intros Hbig. destruct Hfit as [Hfit | Hk]; [lia | exact Hk].
  - intros Hw. unfold retDecimalDigits.
    destruct Hw as [Hw | Hw].
    + replace (0 <? width) with false by (symmetry; apply Z.ltb_ge; lia).
      reflexivity.
    + replace (width <? 10) with false by (symmetry; apply Z.ltb_ge; lia).
      rewrite andb_false_r. reflexivity.
Qed.

Lemma retDecimalDigits_right_justified_witness :
  (0 < 4 < 10 ->
   exists (k : nat) (digits : string),
     retDecimalDigits 12345 4 power_on
     = retPutString (blanks k ++ digits) power_on
     /\ Z.of_nat k + strlen digits = 4
     /\ 1 <= strlen digits
     /\ unsigned_value digits = Some (12345 mod 10 ^ strlen digits)
     /\ (12345 < 10 ^ 4 -> unsigned_value digits = Some 12345)
     /\ (10 ^ 4 <= 12345 -> k = O))
  /\ (4 <= 0 \/ 10 <= 4 -> retDecimalDigits 12345 4 power_on = power_on).
Proof. apply retDecimalDigits_right_justified. lia. Defined.

(** retPutString while nothing is sent per line: the text goes to the
    buffer up to RET_REPORT_BUF_SIZE characters, what does not fit is
    dropped, and nothing reaches the sink. *)
Theorem retPutString_clips_at_capacity (str : string) (st : engine) :
  is_pause st = false -> next_in st <= RET_REPORT_BUF_SIZE ->
  buf (retPutString str st) = truncate capacity (buf st ++ str)
  /\ next_in (retPutString str st)
     = Z.min (next_in st + strlen str) RET_REPORT_BUF_SIZE
  /\ sink (retPutString str st) = sink st.
Proof.
  intros Hp Hn.
  destruct (retPutString_clip str st Hp Hn) as (Hb & Hs & _).
  split; [exact Hb|]. split; [|exact Hs].
  unfold next_in. rewrite Hb.
  pose proof (strlen_app (buf st) str) as Hl. rewrite <- Hl.
  generalize (buf st ++ str)%string as s. intros s.
  unfold strlen, RET_REPORT_BUF_SIZE. change capacity with 4096%nat.
  destruct (Nat.le_gt_cases (String.length s) 4096) as [H | H].
  - rewrite truncate_all by exact H. lia.
  - assert (Hx : String.length (truncate 4096 s) = 4096%nat).
    { revert H. generalize 4096%nat as n. intros n. revert s.
      induction n as [|n IH]; intros [|c s] H; cbn in *; try lia.
      rewrite IH by lia. reflexivity. }
    rewrite Hx. lia.
Qed.

Lemma retPutString_clips_at_capacity_witness :
  buf (retPutString "DONE" power_on)
  = truncate capacity (buf power_on ++ "DONE")
  /\ next_in (retPutString "DONE" power_on)
     = Z.min (next_in power_on + strlen "DONE") RET_REPORT_BUF_SIZE
  /\ sink (retPutString "DONE" power_on) = sink power_on.
Proof.
  apply retPutString_clips_at_capacity;
    [reflexivity | vm_compute; discriminate].
Defined.

(** retFormatLine with RET_NO_PAUSE (retInfoLineFmt, retSearchLine): the
    line, made of the type character, the line number right-justified in
    four columns, two blank fields, the message (replaced when longer than
    RET_MAX_TAG_STRING_SIZE) and a line feed, is appended to the buffer as
    far as it fits; nothing is sent, the flush-per-line flag is as before
    and the line number goes up by one. *)
Theorem retFormatLine_buffered (msg_type : ascii) (str : string)
  (st : engine) :
  next_in st <= RET_REPORT_BUF_SIZE ->
  buf (retFormatLine msg_type str RET_NO_PAUSE st)
  = truncate capacity
      (buf st ++ line_text msg_type (next_line_number st) str)
  /\ sink (retFormatLine msg_type str RET_NO_PAUSE st) = sink st
  /\ is_pause (retFormatLine msg_type str RET_NO_PAUSE st) = is_pause st
  /\ next_line_number (retFormatLine msg_type str RET_NO_PAUSE st)
     = u32 (next_line_number st + 1).
Proof.
  intros Hn. rewrite retFormatLine_text.
  destruct (retPutString_clip
              (line_text msg_type (next_line_number st) str)
              (set_pause RET_NO_PAUSE st) eq_refl Hn) as (Hb & Hs & _).
  cbn [buf sink is_pause next_line_number set_pause set_line].
  rewrite Hb, Hs. auto.
Qed.

Lemma retFormatLine_buffered_witness :
  buf (retFormatLine "I" "hello" RET_NO_PAUSE power_on)
  = truncate capacity
      (buf power_on ++ line_text "I" (next_line_number power_on) "hello")
  /\ sink (retFormatLine "I" "hello" RET_NO_PAUSE power_on) = sink power_on
  /\ is_pause (retFormatLine "I" "hello" RET_NO_PAUSE power_on)
     = is_pause power_on
  /\ next_line_number (retFormatLine "I" "hello" RET_NO_PAUSE power_on)
     = u32 (next_line_number power_on + 1).
Proof. apply retFormatLine_buffered. vm_compute. discriminate. Defined.

Lemma line_text_split (msg_type : ascii) (n : Z) (str : string) :
  line_text msg_type n str
  = ((String msg_type "," ++ decimal_field n 4 ++ ",    ,      ,"
      ++ (if strlen str >? RET_MAX_TAG_STRING_SIZE
          then "<string exceeds length limit>" else str))
     ++ String LF "")%string.
Proof. unfold line_text. rewrite !string_app_assoc. reflexivity. Qed.

(** retInfoLine with RET_PAUSE, for a message without line feed and a
    line that fits the buffer: the pending text and the line are sent in one
    piece, the buffer is left empty and the flush-per-line flag is as
    before. *)
Theorem retInfoLine_pause_sends (str : string) (st : engine) :
  0 <= next_line_number st -> no_line_feed str = true ->
  next_in st + strlen (line_text "I" (next_line_number st) str)
  <= RET_REPORT_BUF_SIZE ->
  sink (retInfoLine str RET_PAUSE st)
  = (sink st ++ [(buf st ++ line_text "I" (next_line_number st) str)%string])
      %list
  /\ buf (retInfoLine str RET_PAUSE st) = ""
  /\ is_pause (retInfoLine str RET_PAUSE st) = is_pause st
  /\ next_line_number (retInfoLine str RET_PAUSE st)
     = u32 (next_line_number st + 1).
Proof.
  intros Hline Hlf Hroom. unfold retInfoLine.
  rewrite retFormatLine_text.
  cbn [buf sink is_pause next_line_number set_pause set_line].
  rewrite line_text_split in *.
  revert Hroom.
  set (body := (String "I" "," ++ decimal_field (next_line_number st) 4
                ++ ",    ,      ,"
                ++ (if strlen str >? RET_MAX_TAG_STRING_SIZE
                    then "<string exceeds length limit>" else str))%string).
  intros Hroom. rewrite strlen_app in Hroom.
  change (strlen (String LF "")) with 1 in Hroom.
  assert (Hbody : no_line_feed body = true).
  { unfold body. rewrite !no_line_feed_app.
    rewrite decimal_field_no_line_feed by lia.
    destruct (strlen str >? RET_MAX_TAG_STRING_SIZE);
      [reflexivity | rewrite Hlf; reflexivity]. }
  rewrite retPutString_app.
  destruct (retPutString_room body (set_pause RET_PAUSE st) Hbody
              ltac:(unfold next_in in *; cbn [buf set_pause]; lia))
    as (Hb & Hs & Hp).
  revert Hb Hs Hp.
  generalize (retPutString body (set_pause RET_PAUSE st)) as s1.
  intros s1 Hb Hs Hp. cbn [buf sink is_pause set_pause] in Hb, Hs, Hp.
  change (retPutString (String LF "") s1) with (retPutChar LF s1).
  destruct (retPutChar_flush s1) as (Hb2 & Hs2 & _).
  { unfold next_in in *. rewrite Hb, strlen_app. lia. }
  { exact Hp. }
  rewrite Hb2, Hs2, Hb, Hs, string_app_assoc. auto.
Qed.

Lemma retInfoLine_pause_sends_witness :
  sink (retInfoLine "hello" RET_PAUSE power_on)
  = (sink power_on
     ++ [(buf power_on
          ++ line_text "I" (next_line_number power_on) "hello")%string])%list
  /\ buf (retInfoLine "hello" RET_PAUSE power_on) = ""
  /\ is_pause (retInfoLine "hello" RET_PAUSE power_on) = is_pause power_on
  /\ next_line_number (retInfoLine "hello" RET_PAUSE power_on)
     = u32 (next_line_number power_on + 1).
Proof.
  apply retInfoLine_pause_sends;
    [vm_compute; discriminate | reflexivity | vm_compute; discriminate].
Defined.

(** retTestLineFormat writes "T", the line number in four columns, the
    result name, the elapsed time in six columns, the tag path and a line
    feed.  While nothing is sent per line the text is appended as far as it
    fits; with the flush-per-line flag set, a tag path without line feed and
    room for the line, the pending text and the line are sent in one piece.
    The line number goes up by one. *)
Theorem retTestLineFormat_line (v : ret_val_t) (elapsed_time : Z)
  (st : engine) :
  (is_pause st = false -> next_in st <= RET_REPORT_BUF_SIZE ->
   buf (retTestLineFormat v elapsed_time st)
   = truncate capacity
       (buf st ++ test_line_text (next_line_number st) v elapsed_time
                    (tag_str st))
   /\ sink (retTestLineFormat v elapsed_time st) = sink st)
  /\ (is_pause st = true ->
      0 <= next_line_number st -> 0 <= elapsed_time ->
      no_line_feed (tag_str st) = true ->
      next_in st
      + strlen (test_line_text (next_line_number st) v elapsed_time
                  (tag_str st))
      <= RET_REPORT_BUF_SIZE ->
      sink (retTestLineFormat v elapsed_time st)
      = (sink st
         ++ [(buf st ++ test_line_text (next_line_number st) v elapsed_time
                          (tag_str st))%string])%list
      /\ buf (retTestLineFormat v elapsed_time st) = "")
  /\ next_line_number (retTestLineFormat v elapsed_time st)
     = u32 (next_line_number st + 1)
  /\ is_pause (retTestLineFormat v elapsed_time st) = is_pause st.
Proof.
  rewrite retTestLineFormat_text.
  cbn [buf sink is_pause next_line_number set_line].
  split; [|split; [|split; [reflexivity|]]].
  - intros Hp Hn.
    destruct (retPutString_clip
                (test_line_text (next_line_number st) v elapsed_time
                   (tag_str st)) st Hp Hn) as (Hb & Hs & _).
    auto.
  - intros Hp Hline Hel Hlf.
    assert (Hsplit :
      test_line_text (next_line_number st) v elapsed_time (tag_str st)
      = (("T," ++ decimal_field (next_line_number st) 4 ++ ","
          ++ RET_RETVAL_STR v ++ "," ++ decimal_field elapsed_time 6 ++ ","
          ++ tag_str st) ++ String LF "")%string).
    { unfold test_line_text. rewrite !string_app_assoc. reflexivity. }
    rewrite Hsplit.
    set (body := ("T," ++ decimal_field (next_line_number st) 4 ++ ","
                  ++ RET_RETVAL_STR v ++ ","
                  ++ decimal_field elapsed_time 6 ++ ","
                  ++ tag_str st)%string).
    intros Hroom. rewrite strlen_app in Hroom.
    change (strlen (String LF "")) with 1 in Hroom.
    assert (Hbody : no_line_feed body = true).
    { unfold body. rewrite !no_line_feed_app.
      rewrite !decimal_field_no_line_feed by lia. rewrite Hlf.
      destruct v; reflexivity. }
    rewrite retPutString_app.
    destruct (retPutString_room body st Hbody ltac:(lia))
      as (Hb & Hs & Hq).
    revert Hb Hs Hq. generalize (retPutString body st) as s1.
    intros s1 Hb Hs Hq.
    change (retPutString (String LF "") s1) with (retPutChar LF s1).
    destruct (retPutChar_flush s1) as (Hb2 & Hs2 & _).
    { unfold next_in in *. rewrite Hb, strlen_app. lia. }
    { rewrite Hq. exact Hp. }
    rewrite Hb2, Hs2, Hb, Hs, string_app_assoc. auto.
  - pose proof (retPutString_core
                  (test_line_text (next_line_number st) v elapsed_time
                     (tag_str st)) st) as H.
    apply core_fields in H. apply H.
Qed.

(** ** The tag path and the mode switch *)

(** retRemoveTag to the depth [k] of any frame above, whose slot holds the
    cursor saved when the tag path was [parent]: whatever was appended
    since is cut off, the cursor is back on the terminator of [parent] and
    the depth is [k].  A depth outside [ret_env] changes nothing. *)
Theorem retRemoveTag_restores_ancestor (k : Z) (parent suffix : string)
  (st : engine) :
  0 <= k < RET_MAX_NEST_SIZE -> List.length (ret_env st) = 6%nat ->
  slot_cursor (Z.to_nat k) st = Some (strlen parent) ->
  tag_str st = (parent ++ suffix)%string ->
  strlen parent < RET_MAX_TAG_STRING_SIZE ->
  retRemoveTag k st = Returns tt (set_path parent (strlen parent) k st)
  /\ forall n, n >= RET_MAX_NEST_SIZE -> retRemoveTag n st = Returns tt st.
Proof.
  intros Hk Hlen Hcur Hpath Hfit. split.
  - rewrite (retRemoveTag_spec k st (strlen parent) Hk Hlen Hcur)
      by (pose proof (strlen_nonneg parent); lia).
    rewrite Hpath. unfold strlen at 1. rewrite Nat2Z.id, truncate_app.
    reflexivity.
  - intros n Hn. unfold retRemoveTag.
    replace (n >=? RET_MAX_NEST_SIZE) with true
      by (symmetry; apply Z.geb_le; lia).
    reflexivity.
Qed.

Lemma retRemoveTag_restores_ancestor_witness :
  retRemoveTag 1 (set_path "@ROOT@a@b" 9 3 trunk_loop_head)
  = Returns tt
      (set_path "@ROOT" (strlen "@ROOT") 1
         (set_path "@ROOT@a@b" 9 3 trunk_loop_head))
  /\ forall n, n >= RET_MAX_NEST_SIZE ->
               retRemoveTag n (set_path "@ROOT@a@b" 9 3 trunk_loop_head)
               = Returns tt (set_path "@ROOT@a@b" 9 3 trunk_loop_head).
Proof.
  apply (retRemoveTag_restores_ancestor 1 "@ROOT" "@a@b");
    [vm_compute; split; [discriminate | reflexivity] | reflexivity
    | reflexivity | reflexivity | reflexivity].
Defined.

(** retAddTag keeps the tag path inside [ret.tag_str]: from a state with
    the cursor on the terminator of a path shorter than
    RET_MAX_TAG_STRING_SIZE it returns, and the same holds afterwards,
    whether the tag was refused (nothing changed) or appended after a
    delimiter (depth one more). *)
Theorem retAddTag_keeps_frame (tag : string) (st : engine) :
  frame_inv st -> 0 <= nest st < RET_MAX_NEST_SIZE ->
  exists r st',
    retAddTag tag st = Returns r st'
    /\ frame_inv st'
    /\ (r = RET_ERR_TAG /\ st' = st
        \/ r = RET_PASS
           /\ tag_str st'
              = (tag_str st ++ String RET_TOKEN_DELIMITER "" ++ tag)%string
           /\ nest st' = nest st + 1).
Proof.
  intros Hinv Hn.
  destruct (retAddTag_inv tag st Hinv Hn) as [[Hov Hrun] | [Hfit Hrun]].
  - exists RET_ERR_TAG, st. split; [exact Hrun|]. split; [exact Hinv|].
    left. auto.
  - eexists RET_PASS, _. split; [exact Hrun|]. split.
    + destruct Hinv as [Hc Hp He Hr Hv].
      constructor; cbn [tag_str tag_ptr ret_env param set_path];
        try assumption.
      * rewrite !strlen_app. change (strlen (String _ "")) with 1. lia.
      * rewrite !strlen_app. change (strlen (String _ "")) with 1. lia.
    + right. auto.
Qed.

Lemma retAddTag_keeps_frame_witness :
  exists r st',
    retAddTag "A" trunk_loop_head_all = Returns r st'
    /\ frame_inv st'
    /\ (r = RET_ERR_TAG /\ st' = trunk_loop_head_all
        \/ r = RET_PASS
           /\ tag_str st'
              = (tag_str trunk_loop_head_all
                 ++ String RET_TOKEN_DELIMITER "" ++ "A")%string
           /\ nest st' = nest trunk_loop_head_all + 1).
Proof.
  apply retAddTag_keeps_frame;
    [constructor; vm_compute; repeat split; reflexivity
    | vm_compute; split; [discriminate | reflexivity]].
Defined.

Lemma retFindTagToken_eq (st : engine) :
  retFindTagToken st
  = (if tag_token (tag_str st) (test_tag (param st))
     then set_param
            (set_tag_found (s32 (tag_found (param st) + 1)) (param st)) st
     else st,
     tag_token (tag_str st) (test_tag (param st))).
Proof.
  unfold retFindTagToken.
  destruct (tag_token (tag_str st) (test_tag (param st))); reflexivity.
Qed.

(** The mode switch of retEnter, between retAddTag and the call of the
    test function.  A search stays a search and reads no tick.  Otherwise
    the mode becomes Execute when retFindTagToken finds the target in the
    tag path, and Skip when it does not; a find counts in [tag_found] and
    stores one tick reading as the start time in the slot of the calling
    frame. *)
Theorem retEnter_mode_switch (HAL_GetTick : nat -> Z) (st : engine) (m : Z) :
  nest st = m -> 1 <= m <= RET_MAX_NEST_SIZE ->
  List.length (ret_env st) = 6%nat ->
  exists st',
    retEnter_mode HAL_GetTick st = Returns tt st'
    /\ mode (param st')
       = match mode (param st) with
         | RET_MODE_SEARCH => RET_MODE_SEARCH
         | _ => if tag_token (tag_str st) (test_tag (param st))
                then RET_MODE_EXE else RET_MODE_SKIP
         end
    /\ (mode (param st) <> RET_MODE_SEARCH ->
        tag_token (tag_str st) (test_tag (param st)) = true ->
        tag_found (param st') = s32 (tag_found (param st) + 1)
        /\ ticks st' = S (ticks st)
        /\ option_map timer (nth_error (ret_env st') (Z.to_nat (m - 1)))
           = Some (u32 (HAL_GetTick (ticks st))))
    /\ (mode (param st) = RET_MODE_SEARCH
        \/ tag_token (tag_str st) (test_tag (param st)) = false ->
        tag_found (param st') = tag_found (param st)
        /\ ticks st' = ticks st /\ ret_env st' = ret_env st).
Proof.
  intros Hn Hm Hlen. unfold retEnter_mode.
  destruct (ret_mode_eqb (mode (param st)) RET_MODE_SEARCH) eqn:Es;
    cbn [negb].
  { exists st. split; [reflexivity|].
    destruct (mode (param st)); try discriminate.
    split; [reflexivity|]. split; [intros E; contradiction|]. auto. }
  assert (Hns : mode (param st) <> RET_MODE_SEARCH)
    by (intros E; rewrite E in Es; discriminate).
  rewrite retFindTagToken_eq.
  destruct (tag_token (tag_str st) (test_tag (param st))) eqn:Et;
    cbn [negb].
  - remember (set_param
                (set_tag_found (s32 (tag_found (param st) + 1)) (param st))
                st) as st1 eqn:E1.
    assert (F1 : mode (param st1) = mode (param st)
                 /\ nest st1 = nest st /\ ret_env st1 = ret_env st
                 /\ tag_found (param st1) = s32 (tag_found (param st) + 1)
                 /\ ticks st1 = ticks st)
      by (subst st1; repeat split).
    clear E1. destruct F1 as (Fm & Fn & Fe & Ff & Ft).
    remember (if ret_mode_eqb (mode (param st1)) RET_MODE_SKIP
              then set_param (set_mode RET_MODE_EXE (param st1)) st1
              else st1) as st2 eqn:E2.
    assert (F2 : mode (param st2) = RET_MODE_EXE
                 /\ nest st2 = nest st /\ ret_env st2 = ret_env st
                 /\ tag_found (param st2) = s32 (tag_found (param st) + 1)
                 /\ ticks st2 = ticks st).
    { subst st2. rewrite Fm.
      destruct (mode (param st)) eqn:Em; [contradiction | |];
        cbn [ret_mode_eqb]; repeat split; assumption. }
    clear E2. destruct F2 as (Gm & Gn & Ge & Gf & Gt).
    assert (Hi : u32 (nest st2 - 1) = m - 1)
      by (rewrite Gn, Hn; apply u32_small; unfold RET_MAX_NEST_SIZE in *;
          lia).
    rewrite Hi.
    destruct (env_at_some (m - 1) st2) as (e & He & Hnth);
      [unfold RET_MAX_NEST_SIZE in *; lia | congruence |].
    rewrite He. unfold RET_SYS_TICK_FUNC. eexists. split; [reflexivity|].
    cbn [param env_set set_env set_ticks ticks ret_env].
    split.
    { rewrite Gm. destruct (mode (param st)); [contradiction | |];
        reflexivity. }
    split; [|intros [E | E]; [contradiction | discriminate]].
    intros _ _. split; [exact Gf|]. split; [congruence|].
    rewrite nth_error_list_set, Nat.eqb_refl, Hnth. cbn. congruence.
  - eexists. split; [reflexivity|].
    destruct (mode (param st)) eqn:Em; [contradiction | |];
      cbn [ret_mode_eqb param set_param set_mode mode tag_found ticks
           ret_env]; rewrite ?Em;
      (split; [reflexivity|]); (split; [intros _ E; discriminate|]); auto.
Qed.

Lemma retEnter_mode_switch_witness :
  exists st',
    retEnter_mode tick_each_read (set_path "@ROOT@A" 7 2 trunk_loop_head)
    = Returns tt st'
    /\ mode (param st') = RET_MODE_EXE
    /\ tag_found (param st') = 1
    /\ ticks st' = 1%nat
    /\ option_map timer (nth_error (ret_env st') 1) = Some 0.
Proof.
  destruct (retEnter_mode_switch tick_each_read
              (set_path "@ROOT@A" 7 2 trunk_loop_head) 2 eq_refl
              ltac:(vm_compute; split; discriminate) eq_refl)
    as (st' & Hrun & Hmode & Hfound & _).
  exists st'. split; [exact Hrun|]. split; [exact Hmode|].
  exact (Hfound ltac:(discriminate) eq_refl).
Defined.

(** ** The token test *)

Lemma prefix_app (a : string) : forall b,
  String.prefix a b = true <-> exists post, b = (a ++ post)%string.
Proof.
  induction a as [|c a IH]; intros b.
  - split; [intros _; exists b; reflexivity|].
    intros _. destruct b; reflexivity.
  - destruct b as [|d b]; cbn [String.prefix append].
    + split; [discriminate | intros [post H]; discriminate].
    + destruct (Ascii.ascii_dec c d) as [E | E].
      * subst d. rewrite IH. split; intros [post H]; exists post.
        -- rewrite H. reflexivity.
        -- injection H. auto.
      * split; [discriminate|]. intros [post H]. injection H. intros _ E'.
        congruence.
Qed.

Lemma app_same_length (a b x y : string) :
  (a ++ x = b ++ y)%string -> String.length a = String.length b ->
  a = b /\ x = y.
Proof.
  revert b. induction a as [|c a IH]; intros [|d b] H L; cbn in *;
    try discriminate; [auto|].
  injection H as -> H. destruct (IH b H ltac:(lia)) as [-> ->]. auto.
Qed.

Lemma char_at_app (a b : string) (i : nat) :
  char_at (a ++ b) (String.length a + i) = char_at b i.
Proof.
  unfold char_at. induction a as [|c a IH]; [reflexivity|]. exact IH.
Qed.

(** strstr returns the first occurrence. *)
Lemma strstr_first (needle : string) : forall hay,
  match strstr hay needle with
  | Some n =>
      exists pre post,
        hay = (pre ++ needle ++ post)%string /\ String.length pre = n
        /\ forall pre' post', hay = (pre' ++ needle ++ post')%string ->
                              (n <= String.length pre')%nat
  | None => forall pre post, hay <> (pre ++ needle ++ post)%string
  end.
Proof.
  induction hay as [|c hay IH].
  - cbn [strstr]. destruct (String.prefix needle "") eqn:E.
    + apply prefix_app in E. destruct E as [post E].
      exists "", post. split; [exact E|]. split; [reflexivity|].
      intros. apply Nat.le_0_l.
    + intros pre post H. destruct pre as [|d pre]; [|discriminate].
      assert (String.prefix needle "" = true)
        by (apply prefix_app; exists post; exact H).
      congruence.
  - cbn [strstr]. destruct (String.prefix needle (String c hay)) eqn:E.
    + apply prefix_app in E. destruct E as [post E].
      exists "", post. split; [exact E|]. split; [reflexivity|].
      intros. apply Nat.le_0_l.
    + destruct (strstr hay needle) as [n|]; cbn [option_map].
      * destruct IH as (pre & post & H & L & Hmin).
        exists (String c pre), post. split; [rewrite H; reflexivity|].
        split; [cbn; lia|].
        intros pre' post' H'. destruct pre' as [|d pre'].
        -- assert (String.prefix needle (String c hay) = true)
             by (apply prefix_app; exists post'; exact H').
           congruence.
        -- injection H' as _ H'. specialize (Hmin _ _ H'). cbn. lia.
      * intros pre post H. destruct pre as [|d pre].
        -- assert (String.prefix needle (String c hay) = true)
             by (apply prefix_app; exists post; exact H).
           congruence.
        -- injection H as _ H. exact (IH _ _ H).
Qed.

(** retFindTagToken answers true exactly when the first occurrence of the
    target in the tag path is followed by the delimiter or by the
    terminator; it then adds one to [tag_found], and changes nothing
    otherwise. *)
Theorem retFindTagToken_first_occurrence (st : engine) :
  (snd (retFindTagToken st) = true
   <-> exists pre post,
         tag_str st = (pre ++ test_tag (param st) ++ post)%string
         /\ (forall pre' post',
               tag_str st = (pre' ++ test_tag (param st) ++ post')%string ->
               (String.length pre <= String.length pre')%nat)
         /\ (char_at post 0 = RET_TOKEN_DELIMITER \/ char_at post 0 = NUL))
  /\ fst (retFindTagToken st)
     = (if snd (retFindTagToken st)
        then set_param
               (set_tag_found (s32 (tag_found (param st) + 1)) (param st)) st
        else st).
Proof.
  split; [|unfold retFindTagToken;
           destruct (tag_token (tag_str st) (test_tag (param st)));
           reflexivity].
  rewrite retFindTagToken_found. unfold tag_token.
  pose proof (strstr_first (test_tag (param st)) (tag_str st)) as H.
  destruct (strstr (tag_str st) (test_tag (param st))) as [n|].
  - destruct H as (pre & post & Hs & Hl & Hmin).
    assert (Hc : char_at (tag_str st)
                   (n + String.length (test_tag (param st)))
                 = char_at post 0).
    { rewrite Hs, <- Hl, char_at_app.
      rewrite <- (Nat.add_0_r (String.length (test_tag (param st)))).
      apply char_at_app. }
    rewrite Hc. split.
    + intros Ht. exists pre, post. split; [exact Hs|]. split.
      * intros pre' post' H'. rewrite Hl. exact (Hmin _ _ H').
      * destruct (Ascii.eqb (char_at post 0) RET_TOKEN_DELIMITER) eqn:E1;
          [left; apply Ascii.eqb_eq, E1|].
        destruct (Ascii.eqb (char_at post 0) NUL) eqn:E2;
          [right; apply Ascii.eqb_eq, E2 | discriminate].
    + intros (pre2 & post2 & Hs2 & Hmin2 & Hchar).
      assert (Hlen : String.length pre = String.length pre2).
      { pose proof (Hmin _ _ Hs2). pose proof (Hmin2 _ _ Hs). lia. }
      rewrite Hs in Hs2.
      destruct (app_same_length _ _ _ _ Hs2 Hlen) as [_ Hrest].
      destruct (app_same_length _ _ _ _ Hrest eq_refl) as [_ ->].
      destruct Hchar as [-> | ->]; reflexivity.
  - split; [discriminate|].
    intros (pre & post & Hs & _). exfalso. exact (H _ _ Hs).
Qed.

(** ** Elapsed time *)

Lemma u32_sub_wrap (now started : Z) :
  0 <= now - started < 4294967296 ->
  u32 (u32 now - u32 started) = now - started.
Proof.
  intros H. unfold u32.
  rewrite <- Zminus_mod. apply Z.mod_small, H.
Qed.





(** ** What holds throughout a run *)

Lemma reaches_bind {A B : Type} (P : engine -> Prop) (o : outcome A)
  (k : A -> engine -> outcome B) :
  reaches P o -> (forall a st, P st -> reaches P (k a st)) ->
  reaches P (bind o k).
Proof.
  intros Ho Hk. destruct o as [a st | slot v st | |]; cbn [bind reaches] in *;
    auto.
Qed.

Lemma reaches_weaken {A : Type} (P Q : engine -> Prop) (o : outcome A) :
  (forall st, P st -> Q st) -> reaches P o -> reaches Q o.
Proof. intros H. destruct o; cbn [reaches]; auto. Qed.

(** Steps that leave the target, the mode, the leaves run and the report
    alone. *)
Lemma run_inv_same (st0 a b : engine) :
  run_inv st0 a ->
  test_tag (param b) = test_tag (param a) ->
  mode (param b) = mode (param a) ->
  bodies (trace b) = bodies (trace a) ->
  buf b = buf a -> sink b = sink a ->
  run_inv st0 b.
Proof.
  intros [Ht Hs Hb Hn Hk] Et Em Eb Ef Ek. constructor.
  - congruence.
  - rewrite Em. exact Hs.
  - rewrite Eb. exact Hb.
  - unfold next_in in *. rewrite Ef. exact Hn.
  - rewrite Ek. exact Hk.
Qed.

Lemma run_inv_retSendBuffer (st0 st : engine) :
  run_inv st0 st -> run_inv st0 (retSendBuffer st).
Proof.
  intros H. unfold retSendBuffer.
  destruct (next_in st =? 0) eqn:E; [exact H|].
  apply Z.eqb_neq in E. destruct H as [Ht Hs Hb Hn (sent & Hk & Hall)].
  constructor; try assumption.
  - unfold next_in. cbn [buf set_buf]. unfold strlen, RET_REPORT_BUF_SIZE.
    cbn. lia.
  - exists (sent ++ [buf st])%list. cbn [sink set_buf]. rewrite Hk.
    split; [symmetry; apply app_assoc|].
    apply Forall_app. split; [exact Hall|]. constructor; [|constructor].
    unfold sendable. unfold next_in in *.
    pose proof (strlen_nonneg (buf st)). lia.
Qed.

Lemma run_inv_retPutChar (st0 : engine) (c : ascii) (st : engine) :
  run_inv st0 st -> run_inv st0 (retPutChar c st).
Proof.
  intros H. unfold retPutChar.
  destruct (next_in st <? RET_REPORT_BUF_SIZE) eqn:E; [|exact H].
  apply Z.ltb_lt in E.
  assert (H1 : run_inv st0
                 (set_buf (buf st ++ String c "")
                    (Z.max (top_store st) (next_in st)) (sink st) st)).
  { destruct H as [Ht Hs Hb Hn Hk]. constructor; try assumption.
    unfold next_in in *. cbn [buf set_buf]. rewrite strlen_app.
    change (strlen (String c "")) with 1. lia. }
  revert H1.
  generalize (set_buf (buf st ++ String c "")
                (Z.max (top_store st) (next_in st)) (sink st) st) as s1.
  intros s1 H1.
  destruct (Ascii.eqb LF c && is_pause s1);
    [apply run_inv_retSendBuffer, H1 | exact H1].
Qed.

Lemma run_inv_retPutString (st0 : engine) (s : string) : forall st,
  run_inv st0 st -> run_inv st0 (retPutString s st).
Proof.
  induction s as [|c s IH]; intros st H; [exact H|].
  cbn [retPutString]. apply IH, run_inv_retPutChar, H.
Qed.

Lemma run_inv_retDecimalDigits (st0 : engine) (v w : Z) (st : engine) :
  run_inv st0 st -> run_inv st0 (retDecimalDigits v w st).
Proof.
  intros H. unfold retDecimalDigits.
  destruct ((0 <? w) && (w <? 10)); [apply run_inv_retPutString, H|exact H].
Qed.

Lemma run_inv_set_pause (st0 : engine) (b : bool) (st : engine) :
  run_inv st0 st -> run_inv st0 (set_pause b st).
Proof. intros H. apply (run_inv_same st0 st); auto. Qed.

Lemma run_inv_set_line (st0 : engine) (n : Z) (st : engine) :
  run_inv st0 st -> run_inv st0 (set_line n st).
Proof. intros H. apply (run_inv_same st0 st); auto. Qed.

Lemma run_inv_retFormatLine (st0 : engine) (t : ascii) (str : string)
  (pause : bool) (st : engine) :
  run_inv st0 st -> run_inv st0 (retFormatLine t str pause st).
Proof.
  intros H. unfold retFormatLine, retPutLineFeed, retPutCommaSeparator.
  cbv zeta.
  repeat first [ apply run_inv_set_pause | apply run_inv_retPutChar
               | apply run_inv_retPutString | apply run_inv_retDecimalDigits
               | apply run_inv_set_line ].
  exact H.
Qed.

Lemma run_inv_retTestLineFormat (st0 : engine) (v : ret_val_t) (t : Z)
  (st : engine) :
  run_inv st0 st -> run_inv st0 (retTestLineFormat v t st).
Proof.
  intros H. unfold retTestLineFormat, retPutLineFeed, retPutCommaSeparator.
  cbv zeta.
  repeat first [ apply run_inv_retPutChar
               | apply run_inv_retPutString | apply run_inv_retDecimalDigits
               | apply run_inv_set_line ].
  exact H.
Qed.

Lemma run_inv_retFindTagToken (st0 st : engine) :
  run_inv st0 st -> run_inv st0 (fst (retFindTagToken st)).
Proof.
  intros H. unfold retFindTagToken.
  destruct (tag_token (tag_str st) (test_tag (param st))); [|exact H].
  apply (run_inv_same st0 st); auto.
Qed.

Lemma reaches_longjmp (P : engine -> Prop) (A : Type) (k v : Z)
  (st : engine) :
  P st -> reaches P (@longjmp A k v st).
Proof.
  intros H. unfold longjmp.
  destruct ((0 <=? k) && (k <? RET_MAX_NEST_SIZE)); [exact H | exact I].
Qed.

Lemma run_inv_retAddTag (st0 : engine) (tag : string) (st : engine) :
  run_inv st0 st -> reaches (run_inv st0) (retAddTag tag st).
Proof.
  intros H. unfold retAddTag. cbv zeta.
  destruct (negb (_ <? _)).
  - cbn [reaches]. apply (run_inv_same st0 st); auto.
  - destruct ((0 <=? tag_ptr st) && _); [|exact I].
    destruct (_ <? _); [|exact I].
    cbn [reaches]. apply (run_inv_same st0 st); auto.
Qed.

Lemma run_inv_retRemoveTag (st0 : engine) (n : Z) (st : engine) :
  run_inv st0 st -> reaches (run_inv st0) (retRemoveTag n st).
Proof.
  intros H. unfold retRemoveTag.
  destruct (n >=? RET_MAX_NEST_SIZE); [exact H|].
  destruct (env_at n st) as [e|]; [|exact I].
  destruct ((0 <=? env_tag_ptr e) && _); [|exact I].
  cbn [reaches]. apply (run_inv_same st0 st); auto.
Qed.


Section RunInvariant.

Variable HAL_GetTick : nat -> Z.
Variable st0 : engine.

Lemma run_inv_retEnter_mode (st : engine) :
  run_inv st0 st ->
  reaches (call_point st0) (retEnter_mode HAL_GetTick st).
Proof.
  intros H. unfold retEnter_mode.
  destruct (ret_mode_eqb (mode (param st)) RET_MODE_SEARCH) eqn:Em;
    cbn [negb].
  - cbn [reaches]. split; [exact H|]. intros E. rewrite E in Em.
    discriminate.
  - pose proof (run_inv_retFindTagToken st0 st H) as H1.
    pose proof (retFindTagToken_found st) as Hf.
    pose proof (retFindTagToken_walk st) as Hw.
    destruct (retFindTagToken st) as [st1 found]. cbn [fst snd] in *.
    destruct found; cbn [negb].
    + assert (H2 : call_point st0
                 (if ret_mode_eqb (mode (param st1)) RET_MODE_SKIP
                  then set_param (set_mode RET_MODE_EXE (param st1)) st1
                  else st1)).
      { destruct Hw as [W1 W2 W3 W4 W5 W6 W7 W8 W9].
        destruct (ret_mode_eqb (mode (param st1)) RET_MODE_SKIP) eqn:Es.
        - split.
          + destruct H1 as [Ht Hs Hb Hn Hk]. constructor; try assumption.
            cbn [param set_param set_mode mode].
            rewrite <- Hs. rewrite W6, Em. reflexivity.
          + intros _. cbn [tag_str set_param param test_tag set_mode].
            congruence.
        - split; [exact H1|]. intros _. congruence. }
      revert H2.
      generalize (if ret_mode_eqb (mode (param st1)) RET_MODE_SKIP
                  then set_param (set_mode RET_MODE_EXE (param st1)) st1
                  else st1) as st2.
      intros st2 [H2 Hc].
      destruct (env_at (u32 (nest st2 - 1)) st2) as [e|]; [|exact I].
      unfold RET_SYS_TICK_FUNC. cbn [reaches]. split.
      * apply (run_inv_same st0 st2); auto.
      * exact Hc.
    + cbn [reaches].
      destruct (ret_mode_eqb (mode (param st1)) RET_MODE_EXE) eqn:Ee.
      * split.
        -- destruct H1 as [Ht Hs Hb Hn Hk]. constructor; try assumption.
           cbn [param set_param set_mode mode].
           rewrite <- Hs. destruct (mode (param st1)); try discriminate.
           reflexivity.
        -- cbn [param set_param set_mode mode]. discriminate.
      * split; [exact H1|]. intros E. rewrite E in Ee. discriminate.
Qed.

Lemma run_inv_retAssert (c line : Z) (file : string) (st : engine) :
  run_inv st0 st -> reaches (run_inv st0) (retAssert c line file st).
Proof.
  intros H. unfold retAssert.
  destruct (negb (c =? 0)); [exact H|].
  destruct (assert_text line file (retval (param st))) as [msg|]; [|exact I].
  destruct (strlen msg <? 128); [|exact I].
  apply reaches_longjmp. apply run_inv_retFormatLine, H.
Qed.

Lemma run_inv_run_stmt (s : stmt) (st : engine) :
  run_inv st0 st -> reaches (run_inv st0) (run_stmt s st).
Proof.
  intros H. destruct s as [c line file | str | str pause | v];
    cbn [run_stmt reaches].
  - apply run_inv_retAssert, H.
  - apply run_inv_retFormatLine, H.
  - apply run_inv_retFormatLine, H.
  - apply (run_inv_same st0 st); auto.
Qed.

Lemma run_inv_run_body (body : list stmt) : forall st,
  run_inv st0 st -> reaches (run_inv st0) (run_body body st).
Proof.
  induction body as [|s rest IH]; intros st H; [exact H|].
  cbn [run_body]. apply reaches_bind; [apply run_inv_run_stmt, H|].
  intros _ st1 H1. apply IH, H1.
Qed.

Lemma run_inv_call_leaf (body : list stmt) (result : ret_val_t)
  (st : engine) :
  call_point st0 st -> reaches (run_inv st0) (call_leaf body result st).
Proof.
  intros [H Hc]. unfold call_leaf, search_guard.
  destruct (mode (param st)) eqn:Em; cbn [ret_mode_eqb orb];
    [exact H | | exact H].
  apply reaches_bind; [|intros _ st1 H1; exact H1].
  apply run_inv_run_body.
  destruct H as [Ht Hs (new & Hb & Hall & Hsearch) Hn Hk].
  constructor; try assumption.
  exists (new ++ [tag_str st])%list. rewrite log_bodies, Hb.
  split; [symmetry; apply app_assoc|]. split.
  - apply Forall_app. split; [exact Hall|]. constructor; [|constructor].
    rewrite <- Ht. apply Hc. reflexivity.
  - intros E. rewrite Em, E in Hs. discriminate.
Qed.

Lemma run_inv_log (e : event) (st : engine) :
  match e with EvBody _ => False | _ => True end ->
  run_inv st0 st -> run_inv st0 (log e st).
Proof.
  intros He H. apply (run_inv_same st0 st); auto.
  rewrite log_bodies. destruct e; try contradiction; apply app_nil_r.
Qed.

Lemma run_inv_retExit_report (v : ret_val_t) (st : engine) :
  run_inv st0 st ->
  reaches (run_inv st0) (retExit_report HAL_GetTick v st).
Proof.
  intros H. unfold retExit_report.
  pose proof (run_inv_retFindTagToken st0 st H) as H1.
  destruct (retFindTagToken st) as [st1 found]. cbn [fst] in H1.
  destruct found; [|exact H1].
  destruct (negb (ret_mode_eqb (mode (param st1)) RET_MODE_SEARCH)).
  - destruct (env_at (u32 (nest st1 - 1)) st1) as [e|]; [|exact I].
    unfold RET_SYS_TICK_FUNC. cbn [reaches].
    apply run_inv_retTestLineFormat.
    apply (run_inv_same st0 st1); auto.
  - cbn [reaches]. apply run_inv_retFormatLine, H1.
Qed.

Lemma run_inv_retExit_end (st : engine) :
  run_inv st0 st -> run_inv st0 (retExit_end st).
Proof.
  intros H. unfold retExit_end.
  destruct ((tag_found (param st) =? 0) && _).
  - apply run_inv_retFormatLine, run_inv_log; [exact I | exact H].
  - apply run_inv_retSendBuffer, run_inv_retPutString, run_inv_retPutChar,
      run_inv_log; [exact I | exact H].
Qed.

Lemma run_inv_retExit (v : ret_val_t) (st : engine) :
  run_inv st0 st -> reaches (run_inv st0) (retExit HAL_GetTick v st).
Proof.
  intros H. unfold retExit.
  destruct (ret_val_eqb v RET_ERR_TAG).
  - cbn [reaches]. apply run_inv_retTestLineFormat, H.
  - apply reaches_bind; [apply run_inv_retExit_report, H|].
    intros _ st1 H1.
    destruct (String.eqb (tag_str st1) (test_tag (param st1))).
    + apply reaches_bind; [apply run_inv_retRemoveTag, H1|].
      intros _ st2 H2. apply reaches_longjmp, H2.
    + apply reaches_bind.
      * destruct (negb (nest st1 =? 0));
          [apply run_inv_retRemoveTag, H1 | exact H1].
      * intros _ st2 H2. cbn [reaches].
        destruct (nest st2 =? 0); [apply run_inv_retExit_end, H2 | exact H2].
Qed.

Lemma run_inv_after_setjmp (slot : Z) (v err_flag : ret_val_t)
  (st : engine) :
  run_inv st0 st ->
  reaches (run_inv st0) (after_setjmp HAL_GetTick slot v err_flag st).
Proof.
  intros H. unfold after_setjmp. cbv zeta.
  pose proof (run_inv_retExit v (log (EvResult slot v) st)
                (run_inv_log (EvResult slot v) st I H)) as H1.
  destruct (retExit HAL_GetTick v (log (EvResult slot v) st))
    as [[] st1 | k val st1 | |]; cbn [reaches] in H1; try exact I;
    [exact H1|].
  destruct (k =? slot); [|exact H1].
  pose proof (run_inv_retExit (longjmp_retval val)
                (log (EvResult slot (longjmp_retval val)) st1)
                (run_inv_log (EvResult slot (longjmp_retval val)) st1 I H1))
    as H2.
  destruct (retExit HAL_GetTick (longjmp_retval val)
              (log (EvResult slot (longjmp_retval val)) st1))
    as [[] st2 | k2 val2 st2 | |]; cbn [reaches] in H2; try exact I;
    [exact H2|].
  destruct (k2 =? slot); [exact I | exact H2].
Qed.

Lemma reaches_catch (P : engine -> Prop) (slot : Z)
  (o : outcome ret_val_t) :
  reaches P o -> reaches P (catch slot o).
Proof.
  intros H. destruct o as [v st | k val st | |]; cbn [catch]; try exact H.
  destruct (k =? slot); exact H.
Qed.

Section RunFrames.

Variable call : ret_func_t -> engine -> outcome ret_val_t.


Lemma run_inv_retEnter (test : ret_test_t) (st : engine) :
  call_keeps st0 call (func test) -> run_inv st0 st ->
  reaches (run_inv st0) (retEnter HAL_GetTick call test st).
Proof.
  intros Hcall H. unfold retEnter.
  apply reaches_bind; [apply run_inv_retAddTag, H|].
  intros r st1 H1.
  destruct (ret_val_eqb r RET_ERR_TAG).
  - cbn [reaches]. apply run_inv_retFormatLine, H1.
  - pose proof (run_inv_retEnter_mode st1 H1) as H2.
    destruct (retEnter_mode HAL_GetTick st1) as [[] st2 | k v st2 | |];
      cbn [bind reaches] in *; try exact I.
    + apply Hcall. destruct H2 as [H2 Hc]. split; [|exact Hc].
      apply run_inv_log; [exact I | exact H2].
    + apply H2.
Qed.

Lemma run_inv_loop_body (test : ret_test_t) (err_flag : ret_val_t)
  (st : engine) :
  call_keeps st0 call (func test) -> run_inv st0 st ->
  reaches (run_inv st0) (loop_body HAL_GetTick call test err_flag st).
Proof.
  intros Hcall H. unfold loop_body. cbv zeta.
  destruct ((0 <=? nest st) && _); [|exact I].
  apply reaches_bind.
  - apply reaches_catch, run_inv_retEnter; assumption.
  - intros v st1 H1. apply run_inv_after_setjmp, H1.
Qed.

Lemma run_inv_for_loop (tests : ret_list_t) :
  Forall (fun test => call_keeps st0 call (func test)) tests ->
  forall err_flag st,
    run_inv st0 st ->
    reaches (run_inv st0) (for_loop HAL_GetTick call tests err_flag st).
Proof.
  induction 1 as [|test rest Hcall _ IH]; intros err_flag st H;
    [exact H|].
  rewrite for_loop_cons.
  apply reaches_bind; [apply run_inv_loop_body; assumption|].
  intros err1 st1 H1. apply IH, H1.
Qed.

Lemma run_inv_retExecuteList_body (list : ret_list_t) (st : engine) :
  Forall (fun test => call_keeps st0 call (func test)) list ->
  run_inv st0 st ->
  reaches (run_inv st0) (retExecuteList_body HAL_GetTick call list st).
Proof.
  intros Hall H. unfold retExecuteList_body.
  destruct (nest st >=? RET_MAX_NEST_SIZE).
  - cbn [reaches]. apply run_inv_retFormatLine, H.
  - cbv zeta. destruct (env_at (nest st) st) as [e|]; [|exact I].
    apply reaches_bind.
    + apply run_inv_for_loop; [exact Hall|].
      apply (run_inv_same st0 st); auto.
    + intros r st2 H2. cbn [reaches]. apply run_inv_set_pause, H2.
Qed.

End RunFrames.

Lemma run_inv_call_func (f : ret_func_t) :
  call_keeps st0 (call_func HAL_GetTick) f.
Proof.
  induction f as [body result | list IH] using ret_func_ind_nested;
    intros st Hc.
  - apply run_inv_call_leaf, Hc.
  - change (call_func HAL_GetTick (Branch list) st)
      with (retExecuteList_body HAL_GetTick (call_func HAL_GetTick) list st).
    apply run_inv_retExecuteList_body; [exact IH | apply Hc].
Qed.

End RunInvariant.

(** Every state a run returns or unwinds in. *)
Lemma run_inv_retStart (HAL_GetTick : nat -> Z) (p : ret_param_t)
  (RunTrunk : ret_func_t) (st0 : engine) :
  reaches (run_inv (retStart_init p st0))
    (retStart HAL_GetTick p RunTrunk st0).
Proof.
  unfold retStart, retExecuteList.
  apply run_inv_retExecuteList_body.
  - constructor; [|constructor]. intros st Hc.
    apply run_inv_call_func, Hc.
  - constructor; try reflexivity.
    + exists []. rewrite app_nil_r. auto.
    + unfold next_in. cbn. unfold RET_REPORT_BUF_SIZE. lia.
    + exists []. rewrite app_nil_r. auto.
Qed.

(** A run over well-behaved test functions returns, in a state of which
    everything holds that holds of every state a run returns in. *)
Lemma run_returns_with (HAL_GetTick : nat -> Z) (p : ret_param_t)
  (RunTrunk : ret_func_t) (st0 : engine) (P : engine -> Prop) :
  well_behaved RunTrunk = true -> List.length (ret_env st0) = 6%nat ->
  reaches P (retStart HAL_GetTick p RunTrunk st0) ->
  exists r final,
    retStart HAL_GetTick p RunTrunk st0 = Returns r final /\ P final.
Proof.
  intros Hwb Hlen H.
  destruct (root_run HAL_GetTick p RunTrunk st0 Hwb Hlen)
    as (r & pre & Hrun & _).
  rewrite Hrun in H. exists r. eexists. split; [exact Hrun | exact H].
Qed.

(** In a search no leaf gets past RET_MODE_SEARCH(): whatever the tree,
    the state in which retStart returns has the leaves run that it had
    before, and the mode is still Search.  Over well-behaved test functions
    retStart does return. *)
Theorem search_runs_no_user_logic (HAL_GetTick : nat -> Z)
  (p : ret_param_t) (RunTrunk : ret_func_t) (st0 : engine) :
  mode p = RET_MODE_SEARCH ->
  reaches (fun st => bodies (trace st) = bodies (trace st0)
                     /\ mode (param st) = RET_MODE_SEARCH)
    (retStart HAL_GetTick p RunTrunk st0)
  /\ (well_behaved RunTrunk = true -> List.length (ret_env st0) = 6%nat ->
      exists r final,
        retStart HAL_GetTick p RunTrunk st0 = Returns r final
        /\ bodies (trace final) = bodies (trace st0)
        /\ mode (param final) = RET_MODE_SEARCH).
Proof.
  intros Hm.
  assert (H : reaches (fun st => bodies (trace st) = bodies (trace st0)
                                 /\ mode (param st) = RET_MODE_SEARCH)
                (retStart HAL_GetTick p RunTrunk st0)).
  { eapply reaches_weaken; [|apply run_inv_retStart].
    intros st [_ Hs (new & Hb & _ & Hnone) _ _].
    cbn [retStart_init param trace set_retval set_tag_found mode] in *.
    rewrite Hm in Hs, Hnone. rewrite Hb, (Hnone eq_refl), app_nil_r.
    split; [reflexivity|].
    destruct (mode (param st)); [reflexivity | discriminate | discriminate]. }
  split; [exact H|]. intros Hwb Hlen.
  apply run_returns_with; assumption.
Qed.

Lemma search_runs_no_user_logic_witness :
  exists r final,
    retStart tick_each_read (run_config RET_MODE_SEARCH "group_1_tests")
      Example.RunTrunk power_on = Returns r final
    /\ bodies (trace final) = bodies (trace power_on)
    /\ mode (param final) = RET_MODE_SEARCH.
Proof.
  exact (proj2 (search_runs_no_user_logic tick_each_read
                  (run_config RET_MODE_SEARCH "group_1_tests")
                  Example.RunTrunk power_on eq_refl)
           eq_refl eq_refl).
Defined.

(** Whatever the mode and the tree, the user logic of a leaf runs only with
    a tag path in which retFindTagToken finds the target. *)
Theorem only_matching_leaves_run (HAL_GetTick : nat -> Z) (p : ret_param_t)
  (RunTrunk : ret_func_t) (st0 : engine) :
  reaches (fun st =>
             exists new,
               bodies (trace st) = (bodies (trace st0) ++ new)%list
               /\ Forall (fun path => tag_token path (test_tag p) = true)
                    new)
    (retStart HAL_GetTick p RunTrunk st0)
  /\ (well_behaved RunTrunk = true -> List.length (ret_env st0) = 6%nat ->
      exists r final new,
        retStart HAL_GetTick p RunTrunk st0 = Returns r final
        /\ bodies (trace final) = (bodies (trace st0) ++ new)%list
        /\ Forall (fun path => tag_token path (test_tag p) = true) new).
Proof.
  assert (H : reaches (fun st =>
             exists new,
               bodies (trace st) = (bodies (trace st0) ++ new)%list
               /\ Forall (fun path => tag_token path (test_tag p) = true)
                    new)
            (retStart HAL_GetTick p RunTrunk st0)).
  { eapply reaches_weaken; [|apply run_inv_retStart].
    intros st [_ _ (new & Hb & Hall & _) _ _]. exists new. auto. }
  split; [exact H|]. intros Hwb Hlen.
  destruct (run_returns_with HAL_GetTick p RunTrunk st0 _ Hwb Hlen H)
    as (r & final & Hrun & new & Hb & Hall).
  exists r, final, new. auto.
Qed.

(** Whatever the tree, the buffer never holds more than
    RET_REPORT_BUF_SIZE characters, and every text a run hands to
    RET_SEND_BUF has from 1 to RET_REPORT_BUF_SIZE characters. *)
Theorem report_within_capacity (HAL_GetTick : nat -> Z) (p : ret_param_t)
  (RunTrunk : ret_func_t) (st0 : engine) :
  reaches (fun st =>
             next_in st <= RET_REPORT_BUF_SIZE
             /\ exists sent,
                  sink st = (sink st0 ++ sent)%list
                  /\ Forall sendable sent)
    (retStart HAL_GetTick p RunTrunk st0)
  /\ (well_behaved RunTrunk = true -> List.length (ret_env st0) = 6%nat ->
      exists r final sent,
        retStart HAL_GetTick p RunTrunk st0 = Returns r final
        /\ sink final = (sink st0 ++ sent)%list
        /\ Forall sendable sent).
Proof.
  assert (H : reaches (fun st =>
             next_in st <= RET_REPORT_BUF_SIZE
             /\ exists sent,
                  sink st = (sink st0 ++ sent)%list
                  /\ Forall sendable sent)
            (retStart HAL_GetTick p RunTrunk st0)).
  { eapply reaches_weaken; [|apply run_inv_retStart].
    intros st [_ _ _ Hn Hk]. split; [exact Hn | exact Hk]. }
  split; [exact H|]. intros Hwb Hlen.
  destruct (run_returns_with HAL_GetTick p RunTrunk st0 _ Hwb Hlen H)
    as (r & final & Hrun & _ & sent & Hs & Hall).
  exists r, final, sent. auto.
Qed.

(** The engine leaves [param->test_tag] alone, and [param->mode] is
    Search afterwards exactly when it was before: the mode switch of
    retEnter only moves between Execute and Skip. *)
Theorem target_and_search_kept (HAL_GetTick : nat -> Z) (p : ret_param_t)
  (RunTrunk : ret_func_t) (st0 : engine) :
  reaches (fun st =>
             test_tag (param st) = test_tag p
             /\ (mode (param st) = RET_MODE_SEARCH
                 <-> mode p = RET_MODE_SEARCH))
    (retStart HAL_GetTick p RunTrunk st0).
Proof.
  eapply reaches_weaken; [|apply run_inv_retStart].
  intros st [Ht Hs _ _ _].
  cbn [retStart_init param set_retval set_tag_found mode test_tag] in *.
  split; [exact Ht|].
  destruct (mode (param st)), (mode p); cbn in Hs;
    split; intros E; try reflexivity; discriminate.
Qed.

(** ** A list executed by a branch *)

(** A list of well-behaved test functions, executed by a branch function:
    retExecuteList returns RET_PASS or RET_FAIL with the tag path, its
    cursor, the depth, the flush-per-line flag and the target as they were,
    or it is left by the unwinding of retExit to the root frame, with the
    tag path empty and the depth 0.  It never hangs and never indexes
    [ret_env] or [ret.tag_str] out of range. *)
Theorem retExecuteList_balanced (HAL_GetTick : nat -> Z) (list : ret_list_t)
  (st : engine) :
  forallb (fun test => well_behaved (func test)) list = true ->
  frame_inv st -> 1 <= nest st <= RET_MAX_NEST_SIZE ->
  match retExecuteList HAL_GetTick list st with
  | Returns r st' =>
      (r = RET_PASS \/ r = RET_FAIL)
      /\ nest st' = nest st /\ tag_str st' = tag_str st
      /\ tag_ptr st' = tag_ptr st /\ is_pause st' = is_pause st
      /\ test_tag (param st') = test_tag (param st)
      /\ frame_inv st'
  | Longjmp k val st' =>
      k = 0 /\ val <> -1
      /\ nest st' = 0 /\ tag_str st' = "" /\ tag_ptr st' = 0
  | Hangs => False
  | Stuck => False
  end.
Proof.
  intros Hwb Hinv Hn.
  pose proof (retExecuteList_spec HAL_GetTick list st (nest st) Hwb eq_refl
                Hn Hinv) as H.
  destruct (retExecuteList HAL_GetTick list st) as [r st' | k val st' | |];
    cbn [list_ok] in H; try assumption.
  - destruct H as [Hk Hr]. split.
    + destruct (nest st <? RET_MAX_NEST_SIZE).
      * destruct Hr as (vs & _ & _ & ->). apply aggregate_cases.
      * right. apply Hr.
    + pose proof (frame_inv_kept (nest st) st st' ltac:(lia) Hinv Hk) as Hf.
      destruct Hk. auto 10.
  - destruct H as (Hk & Hv & Hu). destruct Hu. auto.
Qed.

Lemma retExecuteList_balanced_witness :
  match retExecuteList tick_each_read
          [mk_test Example.Group2Test0 "Group2Test0";
           mk_test Example.Group2Test1 "Group2Test1"] trunk_loop_head_all with
  | Returns r st' =>
      (r = RET_PASS \/ r = RET_FAIL)
      /\ nest st' = nest trunk_loop_head_all
      /\ tag_str st' = tag_str trunk_loop_head_all
      /\ tag_ptr st' = tag_ptr trunk_loop_head_all
      /\ is_pause st' = is_pause trunk_loop_head_all
      /\ test_tag (param st') = test_tag (param trunk_loop_head_all)
      /\ frame_inv st'
  | Longjmp k val st' =>
      k = 0 /\ val <> -1
      /\ nest st' = 0 /\ tag_str st' = "" /\ tag_ptr st' = 0
  | Hangs => False
  | Stuck => False
  end.
Proof.
  apply retExecuteList_balanced;
    [reflexivity
    | constructor; vm_compute; repeat split; reflexivity
    | vm_compute; split; discriminate].
Defined.

(** ** The report of a search *)







Lemma search_text_app (a b : list string) : forall n,
  search_text n (a ++ b)
  = (search_text n a ++ search_text (line_after n (List.length a)) b)%string.
Proof.
  induction a as [|p a IH]; intros n; [reflexivity|].
  cbn [app search_text List.length line_after].
  rewrite IH, string_app_assoc. reflexivity.
Qed.

Lemma line_after_app (a b : nat) : forall n,
  line_after n (a + b) = line_after (line_after n a) b.
Proof. induction a as [|a IH]; intros n; [reflexivity | apply IH]. Qed.

Lemma next_in_truncate (s : string) (st : engine) :
  buf st = truncate capacity s -> next_in st <= RET_REPORT_BUF_SIZE.
Proof.
  intros H. unfold next_in, strlen. rewrite H.
  pose proof (truncate_length capacity s).
  change capacity with 4096%nat in *. unfold RET_REPORT_BUF_SIZE. lia.
Qed.

(** retSearchLine, on the report. *)
Lemma retSearchLine_report (path : string) (st : engine) :
  next_in st <= RET_REPORT_BUF_SIZE ->
  buf (retSearchLine path st)
  = truncate capacity (buf st ++ line_text "S" (next_line_number st) path)
  /\ sink (retSearchLine path st) = sink st
  /\ next_line_number (retSearchLine path st)
     = u32 (next_line_number st + 1).
Proof.
  intros Hn. unfold retSearchLine. rewrite retFormatLine_text.
  destruct (retPutString_clip (line_text "S" (next_line_number st) path)
              (set_pause RET_NO_PAUSE st) eq_refl Hn) as (Hb & Hs & _).
  cbn [buf sink next_line_number set_pause set_line].
  rewrite Hb, Hs. auto.
Qed.

Lemma retRemoveTag_ancestor (k : Z) (parent suffix : string) (st : engine) :
  0 <= k < RET_MAX_NEST_SIZE -> List.length (ret_env st) = 6%nat ->
  slot_cursor (Z.to_nat k) st = Some (strlen parent) ->
  tag_str st = (parent ++ suffix)%string ->
  strlen parent < RET_MAX_TAG_STRING_SIZE ->
  retRemoveTag k st = Returns tt (set_path parent (strlen parent) k st).
Proof.
  intros Hk Hlen Hcur Hpath Hfit.
  rewrite (retRemoveTag_spec k st (strlen parent) Hk Hlen Hcur)
    by (pose proof (strlen_nonneg parent); lia).
  rewrite Hpath. unfold strlen at 1. rewrite Nat2Z.id, truncate_app.
  reflexivity.
Qed.

Section Search.

Variable HAL_GetTick : nat -> Z.

Lemma retEnter_mode_search (st : engine) :
  mode (param st) = RET_MODE_SEARCH ->
  retEnter_mode HAL_GetTick st = Returns tt st.
Proof. intros H. unfold retEnter_mode. rewrite H. reflexivity. Qed.

(** retExit for a node of a search for the root tag. *)
Lemma retExit_search (v : ret_val_t) (st : engine) (n : Z)
  (parent suffix : string) :
  v <> RET_ERR_TAG -> search_root st ->
  nest st = n + 1 -> 0 <= n < RET_MAX_NEST_SIZE ->
  tag_str st = (parent ++ suffix)%string ->
  strlen parent < RET_MAX_TAG_STRING_SIZE ->
  slot_cursor (Z.to_nat n) st = Some (strlen parent) ->
  List.length (ret_env st) = 6%nat ->
  exists st2,
    retExit HAL_GetTick v st
    = Returns tt (if n =? 0 then retExit_end st2 else st2)
    /\ st2 = set_path parent (strlen parent) n
               (retSearchLine (tag_str st)
                  (set_param
                     (set_tag_found (s32 (tag_found (param st) + 1))
                        (param st)) st)).
Proof.
  intros Hv (Hm & Ht & Hr) Hn Hr6 Hpath Hfit Hcur Hlen.
  eexists. split; [|reflexivity].
  unfold retExit.
  replace (ret_val_eqb v RET_ERR_TAG) with false
    by (destruct v; try reflexivity; contradiction).
  unfold retExit_report. rewrite retFindTagToken_eq.
  rewrite Ht, (tag_token_rooted _ Hr).
  cbn [param set_param set_tag_found mode tag_str]. rewrite Hm.
  cbn [ret_mode_eqb negb]. rewrite bind_returns.
  pose proof (retSearchLine_core (tag_str st)
                (set_param
                   (set_tag_found (s32 (tag_found (param st) + 1))
                      (param st)) st)) as Hc.
  apply core_fields in Hc.
  cbn [tag_str tag_ptr nest is_pause ret_env param ticks trace set_param]
    in Hc.
  destruct Hc as (Hs1 & Hp1 & Hn1 & Hq1 & He1 & Hpa1 & _).
  revert Hs1 Hp1 Hn1 Hq1 He1 Hpa1.
  generalize (retSearchLine (tag_str st)
                (set_param
                   (set_tag_found (s32 (tag_found (param st) + 1))
                      (param st)) st)) as s1.
  intros s1 Hs1 Hp1 Hn1 Hq1 He1 Hpa1.
  rewrite Hs1, Hpa1. cbn [test_tag set_tag_found]. rewrite Ht.
  rewrite (rooted_not_target _ Hr).
  replace (nest s1 =? 0) with false
    by (symmetry; apply Z.eqb_neq; lia).
  cbn [negb].
  replace (u32 (nest s1 - 1)) with n
    by (rewrite Hn1, Hn; replace (n + 1 - 1) with n by lia;
        symmetry; apply u32_small; unfold RET_MAX_NEST_SIZE in *; lia).
  rewrite (retRemoveTag_ancestor n parent suffix s1 Hr6)
    by (unfold slot_cursor in *; congruence).
  rewrite bind_returns. reflexivity.
Qed.


Section SearchFrames.

Variable call : ret_func_t -> engine -> outcome ret_val_t.

(** One pass of the loop of the frame owning slot [n], from the err_flag
    update on, in a search for the root tag. *)
Lemma after_setjmp_search (v err_flag : ret_val_t) (st sc : engine) (n : Z)
  (tg : string) :
  v <> RET_ERR_TAG -> 0 <= n < RET_MAX_NEST_SIZE -> frame_inv st ->
  nest st = n -> slot_cursor (Z.to_nat n) st = Some (tag_ptr st) ->
  test_tag (param st) = RET_ROOT_TAG ->
  rooted (tag_str st ++ String RET_TOKEN_DELIMITER "" ++ tg) ->
  inside n tg st sc ->
  mode (param sc) = RET_MODE_SEARCH ->
  next_in sc <= RET_REPORT_BUF_SIZE ->
  exists st2,
    after_setjmp HAL_GetTick n v err_flag sc
    = Returns (update_err_flag v err_flag)
        (if n =? 0 then retExit_end st2 else st2)
    /\ mode (param st2) = RET_MODE_SEARCH
    /\ test_tag (param st2) = RET_ROOT_TAG
    /\ nest st2 = n /\ is_pause st2 = is_pause st
    /\ buf st2
       = truncate capacity
           (buf sc ++ line_text "S" (next_line_number sc) (tag_str sc))
    /\ sink st2 = sink sc
    /\ next_line_number st2 = u32 (next_line_number sc + 1).
Proof.
  intros Hv Hn Hinv Hnest Hcur Ht Hr Hin Hmc Hroom.
  destruct Hinv as [Hc Hf Hl H0 Hrv].
  destruct (retExit_search v (log (EvResult n v) sc) n (tag_str st)
              (String RET_TOKEN_DELIMITER "" ++ tg) Hv)
    as (st2 & Hexit & Hst2).
  { split; [exact Hmc|]. split.
    - cbn [param log]. rewrite (in_target _ _ _ _ Hin). exact Ht.
    - cbn [tag_str log]. rewrite (in_tag_str _ _ _ _ Hin). exact Hr. }
  { apply (in_nest _ _ _ _ Hin). }
  { exact Hn. }
  { apply (in_tag_str _ _ _ _ Hin). }
  { exact Hf. }
  { unfold slot_cursor. cbn [ret_env log].
    fold (slot_cursor (Z.to_nat n) sc).
    rewrite (in_cursor _ _ _ _ Hin) by lia. rewrite Hcur, Hc. reflexivity. }
  { cbn [ret_env log]. rewrite (in_env_len _ _ _ _ Hin). exact Hl. }
  unfold after_setjmp. cbv zeta. rewrite Hexit.
  exists st2. split; [reflexivity|].
  cbn [tag_str param tag_found log] in Hst2.
  destruct (retSearchLine_report (tag_str sc)
              (set_param
                 (set_tag_found (s32 (tag_found (param sc) + 1)) (param sc))
                 (log (EvResult n v) sc)) Hroom) as (Hb & Hs & Hl2).
  pose proof (retSearchLine_core (tag_str sc)
                (set_param
                   (set_tag_found (s32 (tag_found (param sc) + 1))
                      (param sc)) (log (EvResult n v) sc))) as Hcore.
  apply core_fields in Hcore.
  destruct Hcore as (_ & _ & _ & Hq & _ & Hpa & _).
  revert Hst2 Hb Hs Hl2 Hq Hpa.
  generalize (retSearchLine (tag_str sc)
                (set_param
                   (set_tag_found (s32 (tag_found (param sc) + 1))
                      (param sc)) (log (EvResult n v) sc))) as s1.
  intros s1 -> Hb Hs Hl2 Hq Hpa.
  cbn [param nest is_pause buf sink next_line_number set_path set_param
       log] in *.
  rewrite Hpa. cbn [mode test_tag set_tag_found].
  rewrite (in_target _ _ _ _ Hin), (in_pause _ _ _ _ Hin) in *.
  auto 10.
Qed.

Lemma loop_body_listed (test : ret_test_t) (err_flag : ret_val_t)
  (st : engine) (n : Z) :
  call_ok call (func test) -> call_listed call (func test) ->
  0 <= n < RET_MAX_NEST_SIZE -> frame_inv st -> nest st = n ->
  slot_cursor (Z.to_nat n) st = Some (tag_ptr st) ->
  mode (param st) = RET_MODE_SEARCH ->
  test_tag (param st) = RET_ROOT_TAG ->
  rooted (tag_str st ++ String RET_TOKEN_DELIMITER "" ++ tag test) ->
  node_fits n (tag_str st) test = true ->
  next_in st <= RET_REPORT_BUF_SIZE ->
  exists st2,
    loop_body HAL_GetTick call test err_flag st
    = Returns err_flag (if n =? 0 then retExit_end st2 else st2)
    /\ mode (param st2) = RET_MODE_SEARCH
    /\ test_tag (param st2) = RET_ROOT_TAG
    /\ nest st2 = n /\ is_pause st2 = is_pause st
    /\ buf st2
       = truncate capacity
           (buf st
            ++ search_text (next_line_number st)
                 (nodes_below
                    (tag_str st ++ String RET_TOKEN_DELIMITER "" ++ tag test)
                    (func test)
                  ++ [(tag_str st ++ String RET_TOKEN_DELIMITER ""
                       ++ tag test)%string]))
    /\ sink st2 = sink st
    /\ next_line_number st2
       = line_after (next_line_number st)
           (S (List.length
                 (nodes_below
                    (tag_str st ++ String RET_TOKEN_DELIMITER "" ++ tag test)
                    (func test)))).
Proof.
  intros Hcall Hlist Hn Hinv Hnest Hcur Hm Ht Hr Hnf Hroom.
  unfold node_fits in Hnf. apply andb_prop in Hnf.
  destruct Hnf as [Hnf1 Hnf2]. apply Z.ltb_lt in Hnf1.
  rewrite loop_body_in_range by lia. rewrite Hnest.
  destruct (retAddTag_inv (tag test) st Hinv ltac:(lia))
    as [[Hov _] | [Hfit Hadd]].
  { exfalso. rewrite (cursor_on_terminator st Hinv) in Hov. lia. }
  destruct (retEnter_mode_spec HAL_GetTick
              (set_path (tag_str st ++ String RET_TOKEN_DELIMITER ""
                         ++ tag test)
                 (tag_ptr st + strlen (tag test) + 1) (nest st + 1) st)
              (n + 1))
    as (sm & Hmode & Hent).
  { cbn [nest set_path]. lia. }
  { unfold RET_MAX_NEST_SIZE in *. lia. }
  { cbn [ret_env set_path]. apply Hinv. }
  rewrite (retEnter_pass _ _ _ _ _ _ Hadd Hmode).
  destruct (enter_inside (tag test) st sm n Hinv Hnest Hn Hfit Hent)
    as [Hin Hfi].
  assert (Esm : sm = set_path (tag_str st ++ String RET_TOKEN_DELIMITER ""
                               ++ tag test)
                       (tag_ptr st + strlen (tag test) + 1) (nest st + 1) st).
  { rewrite retEnter_mode_search in Hmode by exact Hm. congruence. }
  assert (Hsq : search_root (log (EvCall (tag_str sm)) sm)).
  { rewrite Esm. split; [exact Hm|]. split; [exact Ht | exact Hr]. }
  assert (Hrep : buf (log (EvCall (tag_str sm)) sm) = buf st
                 /\ sink (log (EvCall (tag_str sm)) sm) = sink st
                 /\ next_line_number (log (EvCall (tag_str sm)) sm)
                    = next_line_number st)
    by (rewrite Esm; repeat split).
  assert (Hps : tag_str (log (EvCall (tag_str sm)) sm)
                = (tag_str st ++ String RET_TOKEN_DELIMITER ""
                   ++ tag test)%string) by (rewrite Esm; reflexivity).
  clear Esm Hmode Hent Hadd.
  revert Hin Hfi Hsq Hrep Hps.
  generalize (log (EvCall (tag_str sm)) sm) as sq.
  intros sq Hin Hfi Hsq (Hbq & Hkq & Hlq) Hps.
  assert (Hnq : nest sq = n + 1) by (apply Hin).
  destruct (Hcall sq (n + 1) Hnq ltac:(unfold RET_MAX_NEST_SIZE in *; lia)
              Hfi) as [Hstruct _].
  pose proof (Hlist sq (n + 1) Hnq ltac:(unfold RET_MAX_NEST_SIZE in *; lia)
                Hfi Hsq ltac:(rewrite Hps; exact Hnf2)
                ltac:(unfold next_in in *; rewrite Hbq; exact Hroom))
    as Hl.
  destruct (call (func test) sq) as [v sc | k val sc | |];
    cbn [listed] in Hl; try contradiction.
  destruct Hstruct as [Hv Hk].
  destruct Hl as (-> & Hmc & Hbc & Hkc & Hlc).
  rewrite catch_returns, bind_returns.
  destruct (after_setjmp_search RET_PASS err_flag st sc n (tag test) Hv Hn
              Hinv
              Hnest Hcur Ht Hr (inside_kept _ _ _ _ _ Hin Hk) Hmc
              (next_in_truncate _ _ Hbc))
    as (st2 & Hrun & Hm2 & Ht2 & Hn2 & Hp2 & Hb2 & Hk2 & Hl2).
  exists st2. split; [exact Hrun|].
  split; [exact Hm2|]. split; [exact Ht2|]. split; [exact Hn2|].
  split; [exact Hp2|].
  assert (Hts : tag_str sc
                = (tag_str st ++ String RET_TOKEN_DELIMITER ""
                   ++ tag test)%string)
    by (rewrite (kept_tag_str _ _ _ Hk); exact Hps).
  rewrite Hts in Hb2. rewrite Hps, Hbq, Hlq in *.
  split; [|split].
  - rewrite Hb2, Hbc, truncate_truncate_app, search_text_app,
      string_app_assoc, Hlc.
    cbn [search_text]. rewrite string_app_nil_r. reflexivity.
  - congruence.
  - rewrite Hl2, Hlc.
    change (S ?k) with (1 + k)%nat. rewrite Nat.add_comm, line_after_app.
    reflexivity.
Qed.


Lemma for_loop_listed (tests : ret_list_t) :
  Forall (fun test => call_ok call (func test)) tests ->
  Forall (fun test => call_listed call (func test)) tests ->
  forall (err_flag : ret_val_t) (st : engine) (n : Z),
    1 <= n < RET_MAX_NEST_SIZE -> frame_inv st -> nest st = n ->
    slot_cursor (Z.to_nat n) st = Some (tag_ptr st) ->
    search_root st ->
    forallb (node_fits n (tag_str st)) tests = true ->
    next_in st <= RET_REPORT_BUF_SIZE ->
    listed err_flag (nodes_below (tag_str st) (Branch tests)) st
      (for_loop HAL_GetTick call tests err_flag st).
Proof.
  intros Hok Hli. revert Hli.
  induction Hok as [|test rest Hcall _ IH]; intros Hli err_flag st n Hn Hinv
    Hnest Hcur Hsr Hfits Hroom.
  - rewrite for_loop_nil. cbn [listed nodes_below flat_map search_text
                               List.length line_after].
    split; [reflexivity|].
    split; [apply Hsr|]. rewrite string_app_nil_r. split; [|auto].
    symmetry. apply truncate_all.
    unfold next_in, strlen, RET_REPORT_BUF_SIZE in Hroom.
    change capacity with 4096%nat. lia.
  - apply Forall_cons_iff in Hli. destruct Hli as [Hl1 Hl2].
    cbn [forallb] in Hfits. apply andb_prop in Hfits.
    destruct Hfits as [Hf1 Hf2].
    rewrite for_loop_cons.
    destruct (loop_body_spec HAL_GetTick call test err_flag st n Hcall Hn
                Hinv Hnest Hcur) as [Hpass _].
    destruct (loop_body_listed test err_flag st n Hcall Hl1 ltac:(lia) Hinv
                Hnest Hcur (proj1 Hsr) (proj1 (proj2 Hsr))
                (rooted_app _ (tag test) (proj2 (proj2 Hsr))) Hf1 Hroom)
      as (st2 & Hrun & Hm2 & Ht2 & Hn2 & Hp2 & Hb2 & Hk2 & Hl2').
    replace (n =? 0) with false in Hrun by (symmetry; apply Z.eqb_neq; lia).
    rewrite Hrun in Hpass |- *. rewrite bind_returns.
    cbn [pass_ok] in Hpass. destruct Hpass as (Hk & Hc & _).
    assert (Hinv2 : frame_inv st2)
      by (eapply frame_inv_kept; [|exact Hinv|exact Hk]; lia).
    assert (Hs2 : tag_str st2 = tag_str st) by (apply Hk).
    assert (Hc2 : slot_cursor (Z.to_nat n) st2 = Some (tag_ptr st2))
      by (destruct Hk; congruence).
    assert (Hsr2 : search_root st2).
    { split; [exact Hm2|]. split; [exact Ht2|]. rewrite Hs2. apply Hsr. }
    pose proof (IH Hl2 err_flag st2 n Hn Hinv2 Hn2 Hc2 Hsr2
                  ltac:(rewrite Hs2; exact Hf2)
                  (next_in_truncate _ _ Hb2)) as Hrest.
    destruct (for_loop HAL_GetTick call rest err_flag st2)
      as [r st3 | k val st3 | |]; cbn [listed] in *; try assumption.
    destruct Hrest as (Hr3 & Hm3 & Hb3 & Hk3 & Hl3).
    rewrite Hs2 in Hb3, Hl3.
    split; [exact Hr3|]. split; [exact Hm3|].
    change (nodes_below (tag_str st) (Branch (test :: rest)))
      with ((nodes_below
               (tag_str st ++ String RET_TOKEN_DELIMITER "" ++ tag test)
               (func test)
             ++ [(tag_str st ++ String RET_TOKEN_DELIMITER ""
                  ++ tag test)%string])
            ++ nodes_below (tag_str st) (Branch rest))%list.
    split; [|split].
    + rewrite Hb3, Hb2, truncate_truncate_app, Hl2', !search_text_app,
        !length_app, !string_app_assoc.
      cbn [List.length]. rewrite Nat.add_1_r. reflexivity.
    + congruence.
    + rewrite Hl3, Hl2', !length_app, line_after_app.
      cbn [List.length]. rewrite Nat.add_1_r. reflexivity.
Qed.

Lemma retExecuteList_body_listed (list : ret_list_t) :
  Forall (fun test => call_ok call (func test)) list ->
  Forall (fun test => call_listed call (func test)) list ->
  call_listed (fun _ => retExecuteList_body HAL_GetTick call list)
    (Branch list).
Proof.
  intros Hok Hli st m Hnest Hm Hinv Hsr Hfits Hroom.
  cbn [fits] in Hfits. apply andb_prop in Hfits.
  destruct Hfits as [Hlt Hfits]. apply Z.ltb_lt in Hlt.
  unfold retExecuteList_body. rewrite Hnest.
  replace (m >=? RET_MAX_NEST_SIZE) with false
    by (symmetry; rewrite Z.geb_leb; apply Z.leb_gt; lia).
  destruct (env_at_some m st ltac:(lia) ltac:(apply Hinv))
    as (e & -> & He).
  set (st1 := env_set m _ st).
  assert (Hk1 : kept m st st1).
  { constructor; try reflexivity.
    - unfold st1. cbn [ret_env env_set set_env]. apply length_list_set.
    - intros k Hk. unfold st1. cbn [ret_env env_set set_env].
      rewrite nth_error_list_set.
      destruct (Nat.eqb k (Z.to_nat m)) eqn:Ek; [|reflexivity].
      apply Nat.eqb_eq in Ek. lia.
    - auto. }
  assert (Hc1 : slot_cursor (Z.to_nat m) st1 = Some (tag_ptr st1)).
  { unfold st1, slot_cursor. cbn [ret_env env_set set_env tag_ptr].
    rewrite nth_error_list_set, Nat.eqb_refl, He. reflexivity. }
  pose proof (for_loop_listed list Hok Hli RET_PASS st1 m ltac:(lia)
                ltac:(eapply frame_inv_kept; [|exact Hinv|exact Hk1]; lia)
                ltac:(destruct Hk1; congruence) Hc1 Hsr Hfits Hroom)
    as Hloop.
  change (tag_str st1) with (tag_str st) in Hloop.
  change (listed ?r ?p st1) with (listed r p st) in Hloop.
  destruct (for_loop HAL_GetTick call list RET_PASS st1)
    as [r st2 | k val st2 | |]; cbn [bind listed] in *; assumption.
Qed.

End SearchFrames.

Lemma call_func_listed (f : ret_func_t) :
  well_behaved f = true -> call_listed (call_func HAL_GetTick) f.
Proof.
  induction f as [body result | list IH] using ret_func_ind_nested;
    intros Hwb.
  - intros st m Hnest Hm Hinv (Hmo & _) _ Hroom.
    change (call_func HAL_GetTick (Leaf body result) st)
      with (call_leaf body result st).
    unfold call_leaf, search_guard. rewrite Hmo.
    cbn [ret_mode_eqb orb listed nodes_below search_text List.length
         line_after].
    split; [reflexivity|]. split; [exact Hmo|]. rewrite string_app_nil_r. split; [|auto].
    symmetry. apply truncate_all.
    unfold next_in, strlen, RET_REPORT_BUF_SIZE in Hroom.
    change capacity with 4096%nat. lia.
  - cbn [well_behaved] in Hwb. rewrite forallb_forall in Hwb.
    assert (Hok : Forall (fun test => call_ok (call_func HAL_GetTick)
                                        (func test)) list).
    { rewrite Forall_forall. intros test Hin.
      apply call_func_spec, Hwb, Hin. }
    assert (Hli : Forall (fun test => call_listed (call_func HAL_GetTick)
                                        (func test)) list).
    { rewrite Forall_forall in *. intros test Hin.
      apply IH; [exact Hin | apply Hwb, Hin]. }
    exact (retExecuteList_body_listed (call_func HAL_GetTick) list Hok Hli).
Qed.


(** A search for the root tag lists every node: over well-behaved test
    functions that fit the nesting and tag path limits, retStart returns
    RET_PASS, and when the S lines of all the nodes fit the buffer, the sink
    receives them in one piece, a branch after its nodes, numbered from 0,
    and then DONE. *)
Theorem search_lists_every_node (p : ret_param_t) (RunTrunk : ret_func_t)
  (st0 : engine) :
  mode p = RET_MODE_SEARCH -> test_tag p = RET_ROOT_TAG ->
  well_behaved RunTrunk = true -> fits 1 "@ROOT" RunTrunk = true ->
  List.length (ret_env st0) = 6%nat ->
  strlen (search_text 0 (nodes_below "@ROOT" RunTrunk ++ ["@ROOT"]))
  < RET_REPORT_BUF_SIZE ->
  exists final,
    retStart HAL_GetTick p RunTrunk st0 = Returns RET_PASS final
    /\ sink final
       = (sink st0
          ++ [(search_text 0 (nodes_below "@ROOT" RunTrunk ++ ["@ROOT"])
               ++ String LF "")%string;
              RET_TEST_DONE_MSG])%list
    /\ buf final = "".
Proof.
  intros Hmo Hta Hwb Hfits Hlen Hroom.
  unfold retStart, retExecuteList, root_list, retExecuteList_body.
  set (s0 := retStart_init p st0).
  change (nest s0) with 0.
  change (0 >=? RET_MAX_NEST_SIZE) with false. cbv iota.
  destruct (env_at_some 0 s0 ltac:(unfold RET_MAX_NEST_SIZE; lia) Hlen)
    as (e & -> & He).
  change (is_pause s0) with RET_PAUSE. change (tag_ptr s0) with 0.
  set (st1 := env_set 0 _ s0).
  assert (Hinv : frame_inv st1).
  { constructor; try reflexivity.
    - unfold st1. cbn [ret_env env_set set_env]. rewrite length_list_set.
      exact Hlen.
    - unfold st1, slot_cursor. cbn [ret_env env_set set_env Z.to_nat].
      rewrite nth_error_list_set. cbn [Nat.eqb Z.to_nat] in *.
      rewrite He. reflexivity.
    - unfold retval_ok. cbn. lia. }
  rewrite for_loop_cons.
  destruct (loop_body_listed (call_func HAL_GetTick)
              (mk_test RunTrunk RET_ROOT_TAG) RET_PASS st1 0
              (call_func_spec HAL_GetTick RunTrunk Hwb)
              (call_func_listed RunTrunk Hwb)
              ltac:(unfold RET_MAX_NEST_SIZE; lia) Hinv eq_refl
              (root_cursor st1 Hinv) Hmo Hta rooted_root)
    as (st2 & Hrun & Hm2 & Ht2 & Hn2 & Hp2 & Hb2 & Hk2 & _).
  { unfold node_fits. apply andb_true_intro. split; [reflexivity|].
    exact Hfits. }
  { unfold next_in. change (buf st1) with "".
    unfold strlen, RET_REPORT_BUF_SIZE. cbn. lia. }
  rewrite Hrun, bind_returns, for_loop_nil, bind_returns.
  change (0 =? 0) with true. cbv iota.
  exists (set_pause RET_PAUSE (retExit_end st2)).
  split; [reflexivity|].
  change (sink (set_pause RET_PAUSE (retExit_end st2)))
    with (sink (retExit_end st2)).
  change (buf (set_pause RET_PAUSE (retExit_end st2)))
    with (buf (retExit_end st2)).
  change (buf st1) with "" in Hb2.
  change (next_line_number st1) with 0 in Hb2.
  change (tag_str st1) with "" in Hb2.
  change (tag (mk_test RunTrunk RET_ROOT_TAG)) with RET_ROOT_TAG in Hb2.
  change (func (mk_test RunTrunk RET_ROOT_TAG)) with RunTrunk in Hb2.
  change ("" ++ String RET_TOKEN_DELIMITER "" ++ RET_ROOT_TAG)%string
    with "@ROOT" in Hb2.
  change ("" ++ ?x)%string with x in Hb2.
  rewrite truncate_all in Hb2
    by (unfold strlen, RET_REPORT_BUF_SIZE in Hroom;
        change capacity with 4096%nat; lia).
  change (sink st1) with (sink st0) in Hk2.
  change (is_pause st1) with true in Hp2.
  destruct (retExit_end_done st2) as [Hs Hb].
  { rewrite Ht2, String.eqb_refl. apply andb_false_r. }
  { exact Hp2. }
  { unfold next_in. rewrite Hb2. exact Hroom. }
  rewrite Hs, Hb, Hk2, Hb2. auto.
Qed.

End Search.

Lemma search_lists_every_node_witness :
  exists final,
    retStart tick_each_read (run_config RET_MODE_SEARCH RET_ROOT_TAG)
      Example.RunTrunk power_on = Returns RET_PASS final
    /\ sink final
       = (sink power_on
          ++ [(search_text 0
                 (nodes_below "@ROOT" Example.RunTrunk ++ ["@ROOT"])
               ++ String LF "")%string;
              RET_TEST_DONE_MSG])%list
    /\ buf final = "".
Proof.
  apply search_lists_every_node;
    [reflexivity | reflexivity | reflexivity | reflexivity | reflexivity
    | vm_compute; reflexivity].
Defined.

(** ** The message of a failed assertion *)

Lemma retConvIntToDecAscii_length (v : Z) :
  -2147483648 < v < 2147483648 ->
  exists s, retConvIntToDecAscii v = Some s /\ 1 <= strlen s <= 11.
Proof.
  intros Hv. destruct (Z.lt_ge_cases v 0) as [Hneg | Hnn].
  - rewrite retConvIntToDecAscii_neg by lia. eexists. split; [reflexivity|].
    pose proof (retConvIntToDecAscii_loop_rev_length 9 (- v)) as Hl.
    revert Hl.
    generalize (string_rev (retConvIntToDecAscii_loop 10 (- v))) as d.
    intros d Hl. unfold strlen in *. cbn [String.length]. lia.
  - rewrite retConvIntToDecAscii_nonneg by lia. eexists.
    split; [reflexivity|].
    pose proof (retConvIntToDecAscii_loop_rev_length 9 v) as Hl. lia.
Qed.

(** retAssert with a zero condition, in a leaf: the message holds 23 fixed
    characters, the line number, the file name and [param->retval]; when it
    fits the 128 cells of [assert_buf] with its terminator, it is written as
    an info line and retAssert jumps to the slot of the calling frame;
    otherwise the strcat calls run past [assert_buf].  A file name of up to
    82 characters always fits, one of 103 or more never does. *)
Theorem retAssert_message_buffer (line_number : Z) (file_name : string)
  (st : engine) :
  -2147483648 < line_number < 2147483648 ->
  -2147483648 < retval (param st) < 2147483648 ->
  1 <= nest st <= RET_MAX_NEST_SIZE ->
  exists l r,
    retConvIntToDecAscii line_number = Some l
    /\ retConvIntToDecAscii (retval (param st)) = Some r
    /\ retAssert 0 line_number file_name st
       = (if strlen l + strlen file_name + strlen r <? 105
          then Longjmp (nest st - 1) (-1)
                 (retInfoLineFmt
                    ("Assert at line " ++ l ++ " of " ++ file_name
                     ++ " == " ++ r) st)
          else Stuck)
    /\ (strlen file_name <= 82 ->
        strlen l + strlen file_name + strlen r < 105)
    /\ (103 <= strlen file_name ->
        105 <= strlen l + strlen file_name + strlen r).
Proof.
  intros Hline Hrv Hn.
  destruct (retConvIntToDecAscii_length line_number Hline)
    as (l & Hl & Hll).
  destruct (retConvIntToDecAscii_length (retval (param st)) Hrv)
    as (r & Hr & Hlr).
  exists l, r. split; [exact Hl|]. split; [exact Hr|].
  split; [|split; lia].
  assert (Hlen : strlen ("Assert at line " ++ l ++ " of " ++ file_name
                         ++ " == " ++ r)
                 = 23 + (strlen l + strlen file_name + strlen r)).
  { rewrite !strlen_app. change (strlen "Assert at line ") with 15.
    change (strlen " of ") with 4. change (strlen " == ") with 4. lia. }
  destruct (strlen l + strlen file_name + strlen r <? 105) eqn:E.
  - apply Z.ltb_lt in E. apply retAssert_false; [|lia|exact Hn].
    unfold assert_text. rewrite Hl, Hr. reflexivity.
  - apply Z.ltb_ge in E. unfold retAssert, assert_text.
    change (negb (0 =? 0)) with false. cbv iota. rewrite Hl, Hr.
    replace (strlen _ <? 128) with false
      by (symmetry; apply Z.ltb_ge; lia).
    reflexivity.
Qed.

Lemma retAssert_message_buffer_witness :
  exists l r,
    retConvIntToDecAscii 35 = Some l
    /\ retConvIntToDecAscii
         (retval (param (set_path "@ROOT@A" 7 2 trunk_loop_head_all)))
       = Some r
    /\ retAssert 0 35 "a.c" (set_path "@ROOT@A" 7 2 trunk_loop_head_all)
       = (if strlen l + strlen "a.c" + strlen r <? 105
          then Longjmp
                 (nest (set_path "@ROOT@A" 7 2 trunk_loop_head_all) - 1) (-1)
                 (retInfoLineFmt
                    ("Assert at line " ++ l ++ " of " ++ "a.c" ++ " == " ++ r)
                    (set_path "@ROOT@A" 7 2 trunk_loop_head_all))
          else Stuck)
    /\ (strlen "a.c" <= 82 -> strlen l + strlen "a.c" + strlen r < 105)
    /\ (103 <= strlen "a.c" -> 105 <= strlen l + strlen "a.c" + strlen r).
Proof.
  apply retAssert_message_buffer;
    [lia | vm_compute; split; reflexivity | vm_compute; split; discriminate].
Defined.

(** ** One node of a run that is not a search *)

Lemma prefix_refl (s : string) : String.prefix s s = true.
Proof. apply prefix_app. exists "". symmetry. apply string_app_nil_r. Qed.

Lemma char_at_end (s : string) : char_at s (String.length s) = NUL.
Proof.
  rewrite <- (string_app_nil_r s) at 1.
  rewrite <- (Nat.add_0_r (String.length s)). rewrite char_at_app.
  reflexivity.
Qed.

(** A tag path that is the target holds it as a token. *)
Lemma tag_token_self (path : string) : tag_token path path = true.
Proof.
  unfold tag_token.
  assert (H : strstr path path = Some O).
  { destruct path as [|c path]; cbn [strstr].
    - reflexivity.
    - rewrite prefix_refl. reflexivity. }
  rewrite H. cbn [Nat.add]. rewrite char_at_end. reflexivity.
Qed.

Lemma tag_token_not_target (path target : string) :
  tag_token path target = false -> String.eqb path target = false.
Proof.
  intros H. destruct (String.eqb path target) eqn:E; [|reflexivity].
  apply String.eqb_eq in E. subst target. rewrite tag_token_self in H.
  discriminate.
Qed.

Section Nodes.

Variable HAL_GetTick : nat -> Z.

(** retExit for a node whose tag path does not hold the target. *)
Lemma retExit_skip (v : ret_val_t) (st : engine) (n : Z)
  (parent suffix : string) :
  v <> RET_ERR_TAG ->
  tag_token (tag_str st) (test_tag (param st)) = false ->
  nest st = n + 1 -> 1 <= n < RET_MAX_NEST_SIZE ->
  tag_str st = (parent ++ suffix)%string ->
  strlen parent < RET_MAX_TAG_STRING_SIZE ->
  slot_cursor (Z.to_nat n) st = Some (strlen parent) ->
  List.length (ret_env st) = 6%nat ->
  retExit HAL_GetTick v st
  = Returns tt (set_path parent (strlen parent) n st).
Proof.
  intros Hv Htok Hn Hr6 Hpath Hfit Hcur Hlen.
  unfold retExit.
  replace (ret_val_eqb v RET_ERR_TAG) with false
    by (destruct v; try reflexivity; contradiction).
  unfold retExit_report. rewrite retFindTagToken_eq, Htok, bind_returns.
  rewrite (tag_token_not_target _ _ Htok).
  replace (nest st =? 0) with false by (symmetry; apply Z.eqb_neq; lia).
  cbn [negb].
  replace (u32 (nest st - 1)) with n
    by (rewrite Hn; replace (n + 1 - 1) with n by lia;
        symmetry; apply u32_small; unfold RET_MAX_NEST_SIZE in *; lia).
  rewrite (retRemoveTag_ancestor n parent suffix st) by (assumption || lia).
  rewrite bind_returns. cbn [nest set_path].
  replace (n =? 0) with false by (symmetry; apply Z.eqb_neq; lia).
  reflexivity.
Qed.

(** A leaf whose tag path does not hold the target, in a run that is not a
    search: the pass of the loop appends and removes its tag, leaves the
    mode Skip and records a pass; the user logic does not run, no tick is
    read and nothing is written. *)
Theorem skipped_leaf_leaves_no_trace (tg : string) (body : list stmt)
  (result err_flag : ret_val_t) (st : engine) (n : Z) :
  1 <= n < RET_MAX_NEST_SIZE -> frame_inv st -> nest st = n ->
  slot_cursor (Z.to_nat n) st = Some (tag_ptr st) ->
  tag_ptr st + strlen tg + 1 < RET_MAX_TAG_STRING_SIZE ->
  mode (param st) <> RET_MODE_SEARCH ->
  tag_token (tag_str st ++ String RET_TOKEN_DELIMITER "" ++ tg)
    (test_tag (param st)) = false ->
  exists st',
    loop_body HAL_GetTick (call_func HAL_GetTick)
      (mk_test (Leaf body result) tg) err_flag st
    = Returns err_flag st'
    /\ mode (param st') = RET_MODE_SKIP
    /\ (tag_str st', tag_ptr st', nest st', ret_env st', ticks st')
       = (tag_str st, tag_ptr st, nest st, ret_env st, ticks st)
    /\ (test_tag (param st'), tag_found (param st'), retval (param st'))
       = (test_tag (param st), tag_found (param st), retval (param st))
    /\ (buf st', sink st', next_line_number st', is_pause st')
       = (buf st, sink st, next_line_number st, is_pause st)
    /\ bodies (trace st') = bodies (trace st)
    /\ results_at n (trace st')
       = (results_at n (trace st) ++ [RET_PASS])%list.
Proof.
  intros Hn Hinv Hnest Hcur Hfit Hmode Htok.
  rewrite loop_body_in_range by lia. rewrite Hnest.
  destruct (retAddTag_inv tg st Hinv ltac:(lia)) as [[Hov _] | [_ Hadd]];
    [lia|].
  assert (Hsw : retEnter_mode HAL_GetTick
                  (set_path (tag_str st ++ String RET_TOKEN_DELIMITER ""
                             ++ tg)
                     (tag_ptr st + strlen tg + 1) (nest st + 1) st)
                = Returns tt
                    (set_param (set_mode RET_MODE_SKIP (param st))
                       (set_path (tag_str st ++ String RET_TOKEN_DELIMITER ""
                                  ++ tg)
                          (tag_ptr st + strlen tg + 1) (nest st + 1) st))).
  { unfold retEnter_mode. rewrite retFindTagToken_eq.
    cbn [param tag_str set_path]. rewrite Htok. cbv beta iota.
    cbn [negb param set_path].
    destruct (mode (param st)) eqn:Em; cbn [ret_mode_eqb negb];
      [contradiction | reflexivity |].
    f_equal.
    destruct st as [? ? ? ? ? ? ? [? ? ? ?] ? ? ? ?]. cbn in Em. subst.
    reflexivity. }
  rewrite (retEnter_pass HAL_GetTick (call_func HAL_GetTick)
             (mk_test (Leaf body result) tg) st _ _ Hadd Hsw).
  cbn [func].
  match goal with
  | |- context [call_func HAL_GetTick (Leaf body result) ?s] =>
      change (call_func HAL_GetTick (Leaf body result) s)
        with (call_leaf body result s)
  end.
  unfold call_leaf at 1, search_guard.
  cbn [param log set_param set_mode mode ret_mode_eqb orb].
  rewrite catch_returns, bind_returns.
  unfold after_setjmp. cbv zeta.
  destruct Hinv as [Hc Hp He H0 Hrv].
  rewrite (retExit_skip RET_PASS _ n (tag_str st)
             (String RET_TOKEN_DELIMITER "" ++ tg));
    [ | discriminate | exact Htok | cbn [nest log set_param set_path]; lia
      | exact Hn | reflexivity | exact Hp
      | unfold slot_cursor in *; cbn [ret_env log set_param set_path];
        rewrite Hcur, Hc; reflexivity
      | exact He ].
  eexists. split; [reflexivity|].
  cbn [param tag_str tag_ptr nest ret_env ticks buf sink next_line_number
       is_pause trace set_path log set_param set_mode mode test_tag
       tag_found retval].
  split; [reflexivity|].
  split; [rewrite <- Hc; reflexivity|].
  split; [reflexivity|]. split; [reflexivity|].
  rewrite !bodies_app, !app_nil_r.
  split; [reflexivity|].
  unfold results_at. rewrite !flat_map_app. cbn [flat_map].
  rewrite Z.eqb_refl, !app_nil_r. reflexivity.
Qed.

End Nodes.

Lemma skipped_leaf_leaves_no_trace_witness :
  exists st',
    loop_body tick_each_read (call_func tick_each_read)
      (mk_test (Leaf [SAssert 0 35 "b.c"] RET_FAIL) "B") RET_PASS
      trunk_loop_head
    = Returns RET_PASS st'
    /\ mode (param st') = RET_MODE_SKIP
    /\ (buf st', sink st', next_line_number st', is_pause st')
       = (buf trunk_loop_head, sink trunk_loop_head,
          next_line_number trunk_loop_head, is_pause trunk_loop_head).
Proof.
  destruct (skipped_leaf_leaves_no_trace tick_each_read "B"
              [SAssert 0 35 "b.c"] RET_FAIL RET_PASS trunk_loop_head 1
              ltac:(vm_compute; split; [discriminate | reflexivity])
              ltac:(constructor; vm_compute; repeat split; reflexivity)
              eq_refl eq_refl eq_refl ltac:(discriminate) eq_refl)
    as (st' & Hrun & Hmode & _ & _ & Hrep & _).
  exists st'. split; [exact Hrun|]. split; [exact Hmode | exact Hrep].
Defined.


Lemma set_retval_same (st : engine) :
  set_param (set_retval (retval (param st)) (param st)) st = st.
Proof. destruct st as [? ? ? ? ? ? ? [? ? ? ?] ? ? ? ?]. reflexivity. Qed.

Lemma run_body_quiet (body : list stmt) : forall st,
  forallb quiet_stmt body = true ->
  exists rv,
    run_body body st
    = Returns tt (set_param (set_retval rv (param st)) st).
Proof.
  induction body as [|s rest IH]; intros st Hq.
  - exists (retval (param st)). rewrite set_retval_same. reflexivity.
  - cbn [forallb] in Hq. apply andb_prop in Hq. destruct Hq as [Hs Hr].
    cbn [run_body].
    destruct s as [c line file | str | str pause | v]; cbn [quiet_stmt] in Hs;
      try discriminate; cbn [run_stmt].
    + rewrite retAssert_true
        by (intros ->; discriminate).
      rewrite bind_returns. apply IH, Hr.
    + rewrite bind_returns.
      destruct (IH (set_param (set_retval (s32 v) (param st)) st) Hr)
        as (rv & ->).
      exists rv. reflexivity.
Qed.

(** A line without inner line feed that fits the buffer, written while
    lines are sent one by one. *)
Lemma retPutString_line_sent (text : string) (st : engine) :
  no_line_feed text = true -> is_pause st = true ->
  next_in st + strlen text + 1 <= RET_REPORT_BUF_SIZE ->
  sink (retPutString (text ++ String LF "") st)
  = (sink st ++ [(buf st ++ text ++ String LF "")%string])%list
  /\ buf (retPutString (text ++ String LF "") st) = "".
Proof.
  intros Hlf Hp Hroom. rewrite retPutString_app.
  destruct (retPutString_room text st Hlf ltac:(lia)) as (Hb & Hs & Hq).
  revert Hb Hs Hq. generalize (retPutString text st) as s1.
  intros s1 Hb Hs Hq.
  change (retPutString (String LF "") s1) with (retPutChar LF s1).
  destruct (retPutChar_flush s1) as (Hb2 & Hs2 & _).
  { unfold next_in in *. rewrite Hb, strlen_app. lia. }
  { rewrite Hq. exact Hp. }
  rewrite Hb2, Hs2, Hb, Hs, string_app_assoc. auto.
Qed.

Lemma strlen_decimal_field (value width : Z) :
  0 <= value -> 0 < width ->
  strlen (decimal_field value width) = width.
Proof.
  intros Hv Hw. unfold decimal_field.
  destruct (Z.to_nat width) as [|p] eqn:E; [lia|].
  destruct (retDecimalDigits_loop_field p value "" Hv)
    as (k & d & Hrun & Hlen & _).
  rewrite !string_app_nil_r in Hrun.
  rewrite Hrun, strlen_app, strlen_blanks. lia.
Qed.

Lemma strlen_test_line_text (n : Z) (v : ret_val_t) (elapsed_time : Z)
  (path : string) :
  0 <= n -> 0 <= elapsed_time ->
  strlen (test_line_text n v elapsed_time path)
  = 16 + strlen (RET_RETVAL_STR v) + strlen path
  /\ strlen (RET_RETVAL_STR v) <= 7.
Proof.
  intros Hn He. unfold test_line_text. rewrite !strlen_app.
  rewrite !strlen_decimal_field by lia.
  change (strlen "T,") with 2. change (strlen ",") with 1.
  change (strlen (String LF "")) with 1.
  split; [lia|]. destruct v; cbv; discriminate.
Qed.

(** retTestLineFormat while lines are sent one by one. *)
Lemma retTestLineFormat_sent (v : ret_val_t) (elapsed_time : Z)
  (st : engine) :
  is_pause st = true -> 0 <= next_line_number st -> 0 <= elapsed_time ->
  no_line_feed (tag_str st) = true ->
  next_in st + strlen (tag_str st) + 23 <= RET_REPORT_BUF_SIZE ->
  sink (retTestLineFormat v elapsed_time st)
  = (sink st
     ++ [(buf st ++ test_line_text (next_line_number st) v elapsed_time
                      (tag_str st))%string])%list
  /\ buf (retTestLineFormat v elapsed_time st) = ""
  /\ next_line_number (retTestLineFormat v elapsed_time st)
     = u32 (next_line_number st + 1).
Proof.
  intros Hp Hline Hel Hlf Hroom.
  rewrite retTestLineFormat_text.
  cbn [buf sink next_line_number set_line].
  destruct (strlen_test_line_text (next_line_number st) v elapsed_time
              (tag_str st) Hline Hel) as [Hlen Hname].
  revert Hlen.
  replace (test_line_text (next_line_number st) v elapsed_time (tag_str st))
    with (("T," ++ decimal_field (next_line_number st) 4 ++ ","
           ++ RET_RETVAL_STR v ++ "," ++ decimal_field elapsed_time 6 ++ ","
           ++ tag_str st) ++ String LF "")%string
    by (unfold test_line_text; rewrite !string_app_assoc; reflexivity).
  intros Hlen. rewrite strlen_app in Hlen.
  change (strlen (String LF "")) with 1 in Hlen.
  destruct (retPutString_line_sent
              ("T," ++ decimal_field (next_line_number st) 4 ++ ","
               ++ RET_RETVAL_STR v ++ "," ++ decimal_field elapsed_time 6
               ++ "," ++ tag_str st) st) as [Hs Hb].
  { rewrite !no_line_feed_app.
    rewrite !decimal_field_no_line_feed by lia. rewrite Hlf.
    destruct v; reflexivity. }
  { exact Hp. }
  { lia. }
  rewrite Hs, Hb, !string_app_assoc. auto.
Qed.

Lemma set_mode_same (st : engine) (m : ret_mode_t) :
  mode (param st) = m -> set_param (set_mode m (param st)) st = st.
Proof.
  destruct st as [? ? ? ? ? ? ? [? ? ? ?] ? ? ? ?]. cbn. intros ->.
  reflexivity.
Qed.

Section Leaves.

Variable HAL_GetTick : nat -> Z.

(** The mode switch of retEnter on a find. *)
Lemma retEnter_mode_found (st : engine) (m : Z) (e : ret_env_t) :
  nest st = m -> 1 <= m <= RET_MAX_NEST_SIZE ->
  nth_error (ret_env st) (Z.to_nat (m - 1)) = Some e ->
  mode (param st) <> RET_MODE_SEARCH ->
  tag_token (tag_str st) (test_tag (param st)) = true ->
  retEnter_mode HAL_GetTick st
  = Returns tt
      (env_set (m - 1)
         {| env_tag_ptr := env_tag_ptr e;
            timer := u32 (HAL_GetTick (ticks st)) |}
         (set_ticks (S (ticks st))
            (set_param
               (set_mode RET_MODE_EXE
                  (set_tag_found (s32 (tag_found (param st) + 1))
                     (param st))) st))).
Proof.
  intros Hn Hm He Hmode Htok. unfold retEnter_mode.
  rewrite retFindTagToken_eq, Htok.
  replace (ret_mode_eqb (mode (param st)) RET_MODE_SEARCH) with false
    by (destruct (mode (param st)); [contradiction | |]; reflexivity).
  cbv beta iota. cbn [negb].
  assert (E : (if ret_mode_eqb
                    (mode
                       (param
                          (set_param
                             (set_tag_found (s32 (tag_found (param st) + 1))
                                (param st)) st))) RET_MODE_SKIP
               then set_param
                      (set_mode RET_MODE_EXE
                         (param
                            (set_param
                               (set_tag_found
                                  (s32 (tag_found (param st) + 1))
                                  (param st)) st)))
                      (set_param
                         (set_tag_found (s32 (tag_found (param st) + 1))
                            (param st)) st)
               else set_param
                      (set_tag_found (s32 (tag_found (param st) + 1))
                         (param st)) st)
              = set_param
                  (set_mode RET_MODE_EXE
                     (set_tag_found (s32 (tag_found (param st) + 1))
                        (param st))) st).
  { cbn [param set_param mode set_tag_found].
    destruct (mode (param st)) eqn:Em; [contradiction | |];
      cbn [ret_mode_eqb]; [|reflexivity].
    destruct st as [? ? ? ? ? ? ? [? ? ? ?] ? ? ? ?]. cbn in Em. subst.
    reflexivity. }
  rewrite E. cbn [nest set_param].
  rewrite Hn, u32_small by (unfold RET_MAX_NEST_SIZE in *; lia).
  unfold env_at. cbn [ret_env set_param].
  replace ((0 <=? m - 1) && (m - 1 <? RET_MAX_NEST_SIZE)) with true
    by (symmetry; apply andb_true_intro; split;
        [apply Z.leb_le | apply Z.ltb_lt]; lia).
  rewrite He. reflexivity.
Qed.

(** retExit for a node found in the tag path, that is not the target
    itself, in a run that is not a search. *)
Lemma retExit_found (v : ret_val_t) (st : engine) (n : Z)
  (parent suffix : string) (e : ret_env_t) :
  v <> RET_ERR_TAG ->
  tag_token (tag_str st) (test_tag (param st)) = true ->
  mode (param st) <> RET_MODE_SEARCH ->
  String.eqb (tag_str st) (test_tag (param st)) = false ->
  nest st = n + 1 -> 1 <= n < RET_MAX_NEST_SIZE ->
  tag_str st = (parent ++ suffix)%string ->
  strlen parent < RET_MAX_TAG_STRING_SIZE ->
  nth_error (ret_env st) (Z.to_nat n) = Some e ->
  env_tag_ptr e = strlen parent ->
  List.length (ret_env st) = 6%nat ->
  retExit HAL_GetTick v st
  = Returns tt
      (set_path parent (strlen parent) n
         (retTestLineFormat v (u32 (u32 (HAL_GetTick (ticks st)) - timer e))
            (set_ticks (S (ticks st))
               (set_param
                  (set_tag_found (s32 (tag_found (param st) + 1))
                     (param st)) st)))).
Proof.
  intros Hv Htok Hmode Hne Hn Hr6 Hpath Hfit He Hcur Hlen.
  unfold retExit.
  replace (ret_val_eqb v RET_ERR_TAG) with false
    by (destruct v; try reflexivity; contradiction).
  unfold retExit_report. rewrite retFindTagToken_eq, Htok.
  cbn [param set_param set_tag_found mode nest].
  replace (ret_mode_eqb (mode (param st)) RET_MODE_SEARCH) with false
    by (destruct (mode (param st)); [contradiction | |]; reflexivity).
  cbn [negb].
  rewrite Hn. replace (n + 1 - 1) with n by lia.
  rewrite u32_small by (unfold RET_MAX_NEST_SIZE in *; lia).
  unfold env_at at 1. cbn [ret_env set_param].
  replace ((0 <=? n) && (n <? RET_MAX_NEST_SIZE)) with true
    by (symmetry; apply andb_true_intro; split;
        [apply Z.leb_le | apply Z.ltb_lt]; lia).
  rewrite He. unfold RET_SYS_TICK_FUNC. cbn [ticks set_param].
  rewrite bind_returns.
  pose proof (retTestLineFormat_core v
                (u32 (u32 (HAL_GetTick (ticks st)) - timer e))
                (set_ticks (S (ticks st))
                   (set_param
                      (set_tag_found (s32 (tag_found (param st) + 1))
                         (param st)) st))) as Hc.
  apply core_fields in Hc.
  cbn [tag_str tag_ptr nest is_pause ret_env param ticks trace set_param
       set_ticks] in Hc.
  destruct Hc as (Hs1 & Hp1 & Hn1 & Hq1 & He1 & Hpa1 & _).
  revert Hs1 Hp1 Hn1 Hq1 He1 Hpa1.
  generalize (retTestLineFormat v
                (u32 (u32 (HAL_GetTick (ticks st)) - timer e))
                (set_ticks (S (ticks st))
                   (set_param
                      (set_tag_found (s32 (tag_found (param st) + 1))
                         (param st)) st))) as s1.
  intros s1 Hs1 Hp1 Hn1 Hq1 He1 Hpa1.
  rewrite Hs1, Hpa1. cbn [test_tag set_tag_found]. rewrite Hne.
  replace (nest s1 =? 0) with false
    by (symmetry; apply Z.eqb_neq; lia).
  cbn [negb].
  replace (u32 (nest s1 - 1)) with n
    by (rewrite Hn1, Hn; replace (n + 1 - 1) with n by lia;
        symmetry; apply u32_small; unfold RET_MAX_NEST_SIZE in *; lia).
  rewrite (retRemoveTag_ancestor n parent suffix s1)
    by (unfold slot_cursor; try congruence; try lia;
        rewrite He1, He; cbn; congruence).
  rewrite bind_returns. cbn [nest set_path].
  replace (n =? 0) with false by (symmetry; apply Z.eqb_neq; lia).
  reflexivity.
Qed.


(** A leaf found in the tag path, that is not the target itself and whose
    user logic neither fails nor writes, in a run that is not a search and
    sends its lines one by one: the pass of the loop runs the user logic,
    reads the tick counter twice and sends one T line with the value
    returned by the leaf and the ticks between the two readings; the tag
    path and the depth are as before. *)
Theorem found_leaf_reports_one_line (tg : string) (body : list stmt)
  (result err_flag : ret_val_t) (st : engine) (n : Z) :
  1 <= n < RET_MAX_NEST_SIZE -> frame_inv st -> nest st = n ->
  slot_cursor (Z.to_nat n) st = Some (tag_ptr st) ->
  tag_ptr st + strlen tg + 1 < RET_MAX_TAG_STRING_SIZE ->
  mode (param st) <> RET_MODE_SEARCH ->
  tag_token (tag_str st ++ String RET_TOKEN_DELIMITER "" ++ tg)
    (test_tag (param st)) = true ->
  String.eqb (tag_str st ++ String RET_TOKEN_DELIMITER "" ++ tg)
    (test_tag (param st)) = false ->
  forallb quiet_stmt body = true -> result <> RET_ERR_TAG ->
  is_pause st = true -> 0 <= next_line_number st ->
  no_line_feed (tag_str st ++ String RET_TOKEN_DELIMITER "" ++ tg) = true ->
  next_in st + strlen (tag_str st ++ String RET_TOKEN_DELIMITER "" ++ tg)
  + 23 <= RET_REPORT_BUF_SIZE ->
  exists st',
    loop_body HAL_GetTick (call_func HAL_GetTick)
      (mk_test (Leaf body result) tg) err_flag st
    = Returns (update_err_flag result err_flag) st'
    /\ sink st'
       = (sink st
          ++ [(buf st
               ++ test_line_text (next_line_number st) result
                    (u32 (u32 (HAL_GetTick (S (ticks st)))
                          - u32 (HAL_GetTick (ticks st))))
                    (tag_str st ++ String RET_TOKEN_DELIMITER "" ++ tg))
              %string])%list
    /\ buf st' = ""
    /\ next_line_number st' = u32 (next_line_number st + 1)
    /\ ticks st' = S (S (ticks st))
    /\ (tag_str st', tag_ptr st', nest st', is_pause st')
       = (tag_str st, tag_ptr st, nest st, true)
    /\ mode (param st') = RET_MODE_EXE
    /\ test_tag (param st') = test_tag (param st)
    /\ tag_found (param st') = s32 (s32 (tag_found (param st) + 1) + 1)
    /\ bodies (trace st')
       = (bodies (trace st)
          ++ [(tag_str st ++ String RET_TOKEN_DELIMITER "" ++ tg)%string])
         %list.
Proof.
  intros Hn Hinv Hnest Hcur Hfit Hmode Htok Hne Hq Hres Hp Hline Hlf Hroom.
  unfold slot_cursor in Hcur.
  destruct (nth_error (ret_env st) (Z.to_nat n)) as [e|] eqn:He;
    [|discriminate].
  cbn [option_map] in Hcur. injection Hcur as Hcur.
  destruct Hinv as [Hc Hpb Hlen H0 Hrv].
  assert (Hinv : frame_inv st) by (constructor; assumption).
  rewrite loop_body_in_range by lia.
  destruct (retAddTag_inv tg st Hinv ltac:(lia)) as [[Hov _] | [_ Hadd]];
    [lia|].
  pose proof (retEnter_mode_found
                (set_path (tag_str st ++ String RET_TOKEN_DELIMITER "" ++ tg)
                   (tag_ptr st + strlen tg + 1) (nest st + 1) st)
                (n + 1) e ltac:(cbn [nest set_path]; lia)
                ltac:(unfold RET_MAX_NEST_SIZE in *; lia)
                ltac:(cbn [ret_env set_path];
                      replace (n + 1 - 1) with n by lia; exact He)
                Hmode Htok) as Hsw.
  replace (n + 1 - 1) with n in Hsw by lia.
  cbn [ticks param tag_found set_path] in Hsw.
  rewrite (retEnter_pass HAL_GetTick (call_func HAL_GetTick)
             (mk_test (Leaf body result) tg) st _ _ Hadd Hsw).
  cbn [func].
  match goal with
  | |- context [call_func HAL_GetTick (Leaf body result) ?s] =>
      change (call_func HAL_GetTick (Leaf body result) s)
        with (call_leaf body result s)
  end.
  unfold call_leaf at 1, search_guard.
  cbn [param log env_set set_env set_ticks set_param set_mode mode
       ret_mode_eqb orb tag_str set_path].
  match goal with
  | |- context [run_body body ?s] =>
      destruct (run_body_quiet body s Hq) as (rv & ->)
  end.
  rewrite !bind_returns, catch_returns, bind_returns.
  unfold after_setjmp. cbv zeta.
  rewrite (retExit_found result _ n (tag_str st)
             (String RET_TOKEN_DELIMITER "" ++ tg)
             {| env_tag_ptr := env_tag_ptr e;
                timer := u32 (HAL_GetTick (ticks st)) |} Hres);
    [ | exact Htok | discriminate | exact Hne
      | cbn [nest log set_param set_ticks set_env env_set set_path]; lia
      | exact Hn | reflexivity | exact Hpb
      | cbn [ret_env log set_param set_ticks set_env env_set set_path];
        rewrite nth_error_list_set, Nat.eqb_refl, He; reflexivity
      | cbn [env_tag_ptr]; congruence
      | cbn [ret_env log set_param set_ticks set_env env_set set_path];
        rewrite length_list_set; exact Hlen ].
  cbn [ticks timer param tag_found log set_param set_ticks set_env env_set
       set_path set_retval set_mode set_tag_found].
  match goal with
  | |- context [retTestLineFormat result ?el ?s2] =>
      pose proof (retTestLineFormat_sent result el s2 Hp Hline
                    (proj1 (Z.mod_pos_bound _ 4294967296 eq_refl)) Hlf Hroom)
        as Hsent;
      pose proof (retTestLineFormat_core result el s2) as Hcore;
      revert Hsent Hcore; generalize (retTestLineFormat result el s2) as s3
  end.
  intros s3 (Hs3 & Hb3 & Hl3) Hcore.
  apply core_fields in Hcore.
  cbn [tag_str tag_ptr nest is_pause ret_env param ticks trace buf sink
       next_line_number log set_param set_ticks set_env env_set set_path]
    in *.
  destruct Hcore as (_ & _ & _ & Hq3 & _ & Hpa3 & Ht3 & Htr3).
  eexists. split; [reflexivity|].
  cbn [tag_str tag_ptr nest is_pause ret_env param ticks trace buf sink
       next_line_number set_path].
  rewrite Hs3, Hb3, Hl3, Hq3, Hpa3, Ht3, Htr3.
  cbn [mode test_tag tag_found].
  rewrite !bodies_app, !app_nil_r. cbn [bodies flat_map app].
  rewrite <- Hc, Hp, Hnest. repeat split.
Qed.

End Leaves.

Lemma found_leaf_reports_one_line_witness :
  exists st',
    loop_body tick_each_read (call_func tick_each_read)
      (mk_test (Leaf [SAssert 1 24 "b.c"; SSetRetval 3] RET_FAIL) "B")
      RET_PASS trunk_loop_head_all
    = Returns (update_err_flag RET_FAIL RET_PASS) st'
    /\ sink st'
       = (sink trunk_loop_head_all
          ++ [(buf trunk_loop_head_all
               ++ test_line_text (next_line_number trunk_loop_head_all)
                    RET_FAIL
                    (u32 (u32 (tick_each_read
                                 (S (ticks trunk_loop_head_all)))
                          - u32 (tick_each_read
                                   (ticks trunk_loop_head_all))))
                    (tag_str trunk_loop_head_all
                     ++ String RET_TOKEN_DELIMITER "" ++ "B"))%string])%list
    /\ buf st' = "".
Proof.
  destruct (found_leaf_reports_one_line tick_each_read "B"
              [SAssert 1 24 "b.c"; SSetRetval 3] RET_FAIL RET_PASS
              trunk_loop_head_all 1
              ltac:(vm_compute; split; [discriminate | reflexivity])
              ltac:(constructor; vm_compute; repeat split; reflexivity)
              eq_refl eq_refl eq_refl ltac:(discriminate) eq_refl eq_refl
              eq_refl ltac:(discriminate) eq_refl
              ltac:(vm_compute; discriminate) eq_refl
              ltac:(vm_compute; discriminate))
    as (st' & Hrun & Hsink & Hbuf & _).
  exists st'. split; [exact Hrun|]. split; [exact Hsink | exact Hbuf].
Defined.

(** * Reports, results and unwinding *)

(** ** Info lines in the report buffer *)

(** An info line without pause sends nothing, and is appended to the buffer
    as far as it fits. *)
Lemma retInfoLine_no_pause_report (str : string) (st : engine) :
  sink (retInfoLine str RET_NO_PAUSE st) = sink st
  /\ next_line_number (retInfoLine str RET_NO_PAUSE st)
     = u32 (next_line_number st + 1)
  /\ (next_in st <= RET_REPORT_BUF_SIZE ->
      buf (retInfoLine str RET_NO_PAUSE st)
      = truncate capacity (buf st ++ line_text "I" (next_line_number st) str))
  /\ (next_in st + strlen (line_text "I" (next_line_number st) str)
      <= RET_REPORT_BUF_SIZE ->
      buf (retInfoLine str RET_NO_PAUSE st)
      = (buf st ++ line_text "I" (next_line_number st) str)%string).
Proof.
  split; [apply retFormatLine_no_pause|].
  unfold retInfoLine. rewrite retFormatLine_text.
  cbn [buf next_line_number set_pause set_line].
  split; [reflexivity|].
  assert (Hclip : next_in st <= RET_REPORT_BUF_SIZE ->
                  buf (retPutString
                         (line_text "I" (next_line_number st) str)
                         (set_pause RET_NO_PAUSE st))
                  = truncate capacity
                      (buf st ++ line_text "I" (next_line_number st) str)).
  { intros Hn.
    exact (proj1 (retPutString_clip
                    (line_text "I" (next_line_number st) str)
                    (set_pause RET_NO_PAUSE st) eq_refl Hn)). }
  split; [exact Hclip|].
  intros Hroom.
  pose proof (strlen_nonneg (line_text "I" (next_line_number st) str)).
  rewrite Hclip by lia. apply truncate_all.
  unfold next_in in Hroom. rewrite <- strlen_app in Hroom.
  unfold strlen, RET_REPORT_BUF_SIZE in Hroom.
  change capacity with 4096%nat. lia.
Qed.

(** An append that fits, with the cursor on the terminator. *)
Lemma retAddTag_fits (tag : string) (st : engine) :
  tag_ptr st = strlen (tag_str st) ->
  tag_ptr st + strlen tag + 1 < RET_MAX_TAG_STRING_SIZE ->
  0 <= nest st < RET_MAX_NEST_SIZE ->
  retAddTag tag st
  = Returns RET_PASS
      (set_path (tag_str st ++ String RET_TOKEN_DELIMITER "" ++ tag)
         (tag_ptr st + strlen tag + 1) (nest st + 1) st).
Proof.
  intros Hc Hlt Hn.
  unfold retAddTag. cbn [tag_ptr tag_str nest set_tag_ptr set_path].
  apply Z.ltb_lt in Hlt. rewrite Hlt. cbn [negb].
  pose proof (strlen_nonneg (tag_str st)).
  replace ((0 <=? tag_ptr st) && (tag_ptr st <=? strlen (tag_str st)))
    with true
    by (symmetry; apply andb_true_intro; split; apply Z.leb_le; lia).
  rewrite !strlen_app. change (strlen (String RET_TOKEN_DELIMITER "")) with 1.
  replace (strlen (tag_str st) + (1 + strlen tag))
    with (tag_ptr st + strlen tag + 1) by lia.
  rewrite Hlt. unfold RET_MAX_NEST_SIZE in Hn.
  rewrite (u32_small (nest st + 1)) by lia.
  reflexivity.
Qed.

(** ** Tag overflow *)

(** C6, amended.  When the cursor plus one delimiter plus the length of the
    tag reaches RET_MAX_TAG_STRING_SIZE, retAddTag returns RET_ERR_TAG and
    the state is the one before the call (tag path, cursor and depth
    included); retEnter returns without calling the node's function,
    whatever that function is, after retInfoLineFmt has appended the line
    of RET_TAG_ERR_MSG to the report buffer as far as the buffer has room
    (all of it when it fits, nothing when the buffer is full) and sent
    nothing; the loop records RET_ERR_TAG, sets err_flag and goes on with
    the rest of the list from a state with the same tag path, cursor and
    depth, in which the tag of the next node, when it fits, is appended to
    the tag path as it was. *)
Theorem C6_tag_overflow_skips_node (HAL_GetTick : nat -> Z)
  (call : ret_func_t -> engine -> outcome ret_val_t)
  (test : ret_test_t) (rest : ret_list_t) (err_flag : ret_val_t)
  (st : engine) :
  tag_ptr st + 1 + strlen (tag test) >= RET_MAX_TAG_STRING_SIZE ->
  0 <= nest st < RET_MAX_NEST_SIZE ->
  let line := line_text "I" (next_line_number st) RET_TAG_ERR_MSG in
  let st1 := retInfoLineFmt RET_TAG_ERR_MSG st in
  let st2 := retTestLineFormat RET_ERR_TAG 0
               (log (EvResult (nest st) RET_ERR_TAG) st1) in
  retAddTag (tag test) st = Returns RET_ERR_TAG st
  /\ retEnter HAL_GetTick call test st = Returns RET_ERR_TAG st1
  /\ (next_in st <= RET_REPORT_BUF_SIZE ->
      buf st1 = truncate capacity (buf st ++ line))
  /\ (next_in st + strlen line <= RET_REPORT_BUF_SIZE ->
      buf st1 = (buf st ++ line)%string)
  /\ (next_in st = RET_REPORT_BUF_SIZE -> buf st1 = buf st)
  /\ sink st1 = sink st
  /\ calls (trace st1) = calls (trace st)
  /\ for_loop HAL_GetTick call (test :: rest) err_flag st
     = for_loop HAL_GetTick call rest RET_FAIL st2
  /\ results_at (nest st) (trace st2)
     = (results_at (nest st) (trace st) ++ [RET_ERR_TAG])%list
  /\ tag_str st2 = tag_str st /\ tag_ptr st2 = tag_ptr st
  /\ nest st2 = nest st
  /\ calls (trace st2) = calls (trace st)
  /\ forall next : ret_test_t,
       tag_ptr st = strlen (tag_str st) ->
       tag_ptr st + strlen (tag next) + 1 < RET_MAX_TAG_STRING_SIZE ->
       retAddTag (tag next) st2
       = Returns RET_PASS
           (set_path (tag_str st ++ String RET_TOKEN_DELIMITER "" ++ tag next)
              (tag_ptr st + strlen (tag next) + 1) (nest st + 1) st2).
Proof.
  intros Hover Hnest line st1 st2.
  destruct (tag_overflow_step HAL_GetTick call test rest err_flag st st1 st2
              Hover Hnest eq_refl eq_refl)
    as (Hadd & Henter & Hloop & Hs2 & Hp2 & Hn2 & Hc2).
  pose proof (retInfoLine_no_pause_report RET_TAG_ERR_MSG st) as Hrep.
  change (retInfoLine RET_TAG_ERR_MSG RET_NO_PAUSE st)
    with (retInfoLineFmt RET_TAG_ERR_MSG st) in Hrep.
  destruct Hrep as (Hk & _ & Hb & Hfit).
  pose proof (retInfoLineFmt_core RET_TAG_ERR_MSG st) as H1.
  apply core_fields in H1.
  destruct H1 as (_ & _ & _ & _ & _ & _ & _ & Ht1).
  pose proof (retTestLineFormat_core RET_ERR_TAG 0
                (log (EvResult (nest st) RET_ERR_TAG) st1)) as H2.
  apply core_fields in H2.
  destruct H2 as (_ & _ & _ & _ & _ & _ & _ & Ht2).
  fold st1 in Hb, Hk, Hfit, Ht1. fold st2 in Ht2. fold line in Hb, Hfit.
  split; [exact Hadd|]. split; [exact Henter|]. split; [exact Hb|].
  split; [exact Hfit|]. split.
  { intros Hfull. rewrite Hb by lia.
    assert (Hlen : String.length (buf st) = capacity).
    { unfold next_in, strlen, RET_REPORT_BUF_SIZE in Hfull.
      change capacity with 4096%nat. lia. }
    rewrite <- Hlen. apply truncate_app. }
  split; [exact Hk|]. split; [rewrite Ht1; reflexivity|].
  split; [exact Hloop|]. split.
  { rewrite Ht2, log_results, Ht1, Z.eqb_refl. reflexivity. }
  split; [exact Hs2|]. split; [exact Hp2|]. split; [exact Hn2|].
  split; [exact Hc2|].
  intros next Hcur Hlt.
  rewrite (retAddTag_fits (tag next) st2) by congruence.
  rewrite Hs2, Hp2, Hn2. reflexivity.
Qed.

Lemma C6_tag_overflow_skips_node_witness :
  retEnter tick_each_read (call_func tick_each_read)
    (mk_test (Leaf [] RET_PASS) "a_tag_of_ten")
    (set_path (filler 250) 250 1 power_on)
  = Returns RET_ERR_TAG
      (retInfoLineFmt RET_TAG_ERR_MSG (set_path (filler 250) 250 1 power_on))
  /\ buf (retInfoLineFmt RET_TAG_ERR_MSG
            (set_path (filler 250) 250 1 power_on))
     = ("I,   0,    ,      ,Error: RET_MAX_TAG_STRING_SIZE exceeded"
        ++ String LF "")%string.
Proof.
  assert (H1 : tag_ptr (set_path (filler 250) 250 1 power_on) + 1
               + strlen (tag (mk_test (Leaf [] RET_PASS) "a_tag_of_ten"))
               >= RET_MAX_TAG_STRING_SIZE)
    by (vm_compute; discriminate).
  assert (H2 : 0 <= nest (set_path (filler 250) 250 1 power_on)
               < RET_MAX_NEST_SIZE)
    by (vm_compute; split; [discriminate | reflexivity]).
  destruct (C6_tag_overflow_skips_node tick_each_read
              (call_func tick_each_read)
              (mk_test (Leaf [] RET_PASS) "a_tag_of_ten") [] RET_PASS
              (set_path (filler 250) 250 1 power_on) H1 H2)
    as (_ & Henter & _ & Hfit & _).
  split; [exact Henter|].
  exact (Hfit ltac:(vm_compute; discriminate)).
Defined.

(** The claim as stated fails when the report buffer is full: retPutChar
    drops every character of the info line.  After the first leaf has
    filled the buffer, the node whose tag does not fit is refused (its
    function is not called and RET_ERR_TAG is recorded), but the report
    of the run, one string of 4096 characters, does not hold the text of
    RET_TAG_ERR_MSG. *)
Lemma C6_info_line_dropped :
  match retStart tick_each_read (run_config RET_MODE_EXE RET_ROOT_TAG)
          noisy_then_long_tag_tree power_on with
  | Returns _ st =>
      calls (trace st) = ["@ROOT"; "@ROOT@A"]
      /\ results_at 1 (trace st) = [RET_PASS; RET_ERR_TAG]
      /\ List.map String.length (sink st) = [4096%nat]
      /\ forallb (fun s => match strstr s RET_TAG_ERR_MSG with
                           | None => true
                           | Some _ => false
                           end) (sink st) = true
  | _ => False
  end.
Proof. vm_compute. repeat split. Qed.

(** ** A failing assertion *)






(** ** The frame that catches the unwinding *)

Section Caught.

Variable HAL_GetTick : nat -> Z.

(** The report of retExit leaves the walk where it is. *)
Lemma retExit_report_walk (v : ret_val_t) (st st1 : engine) :
  retExit_report HAL_GetTick v st = Returns tt st1 -> same_walk st st1.
Proof.
  unfold retExit_report.
  pose proof (retFindTagToken_walk st) as Hw.
  destruct (retFindTagToken st) as [s1 found]. cbn [fst] in Hw.
  destruct found.
  - destruct (negb _).
    + destruct (env_at _ _) as [e|]; [|discriminate].
      unfold RET_SYS_TICK_FUNC. intros H. inversion H.
      eapply same_walk_trans; [|apply retTestLineFormat_walk].
      destruct Hw. constructor; assumption.
    + intros H. inversion H.
      eapply same_walk_trans; [exact Hw | apply retFormatLine_walk].
  - intros H. inversion H. subst. exact Hw.
Qed.

(** The state in which the longjmp of retExit arrives: the tag path of the
    node was the target, retRemoveTag(0) has emptied the tag path and set
    the depth to 0, and nothing was recorded. *)
Lemma retExit_jump (v : ret_val_t) (st st' : engine) (k val : Z) :
  retExit HAL_GetTick v st = Longjmp k val st' ->
  slot_cursor 0 st = Some 0 ->
  tag_str st = test_tag (param st)
  /\ nest st' = 0 /\ tag_str st' = "" /\ tag_ptr st' = 0
  /\ test_tag (param st') = test_tag (param st)
  /\ trace st' = trace st.
Proof.
  unfold retExit. destruct (ret_val_eqb v RET_ERR_TAG); [discriminate|].
  destruct (retExit_report_outcome HAL_GetTick v st) as [[st1 E] | E];
    rewrite E; [|discriminate]. cbn [bind].
  pose proof (retExit_report_walk v st st1 E) as Hw.
  destruct Hw as [W1 W2 W3 W4 W5 W6 W7 W8 W9].
  destruct (String.eqb (tag_str st1) (test_tag (param st1))) eqn:Eq.
  - intros H H0. apply String.eqb_eq in Eq.
    unfold retRemoveTag in H.
    change (0 >=? RET_MAX_NEST_SIZE) with false in H. cbv iota in H.
    unfold env_at in H.
    change ((0 <=? 0) && (0 <? RET_MAX_NEST_SIZE)) with true in H.
    cbv iota in H. change (Z.to_nat 0) with O in H.
    unfold slot_cursor in H0. rewrite <- W5 in H0.
    destruct (nth_error (ret_env st1) 0) as [e|]; [|discriminate].
    cbn [option_map] in H0. injection H0 as H0. rewrite H0 in H.
    cbn [Z.leb Z.ltb Z.compare andb RET_MAX_TAG_STRING_SIZE bind] in H.
    unfold longjmp in H.
    change ((0 <=? 0) && (0 <? RET_MAX_NEST_SIZE)) with true in H.
    cbv iota in H. inversion H. subst.
    cbn [nest tag_str tag_ptr param trace set_path Z.to_nat truncate].
    split; [congruence|]. auto 6.
  - destruct (negb _).
    + destruct (retRemoveTag_outcome (u32 (nest st1 - 1)) st1)
        as [[st2 ->] | ->]; discriminate.
    + discriminate.
Qed.

(** retExit in the root frame after an unwinding: nothing is reported for
    a node, and the run ends. *)
Lemma retExit_after_jump (st : engine) :
  nest st = 0 -> tag_str st = "" -> test_tag (param st) <> "" ->
  retExit HAL_GetTick RET_PASS st = Returns tt (retExit_end st).
Proof.
  intros Hn Hs Ht. unfold retExit. cbn [ret_val_eqb].
  unfold retExit_report.
  assert (Hf : retFindTagToken st = (st, false)).
  { unfold retFindTagToken, tag_token. rewrite Hs.
    destruct (test_tag (param st)) as [|c t]; [contradiction|].
    reflexivity. }
  rewrite Hf. cbn [bind]. rewrite Hs.
  destruct (test_tag (param st)) as [|c t] eqn:E; [contradiction|].
  cbn [String.eqb]. rewrite Hn. cbn [Z.eqb negb bind].
  rewrite Hn. reflexivity.
Qed.

End Caught.

(** C10.  When setjmp returns in a frame after a longjmp, the switch of
    retExecuteList turns the value -1 into RET_FAIL and any other value into
    RET_PASS.  The longjmp of retExit is made for a node whose tag path is
    the target, goes to slot 0 and carries the result of the node (1 for
    RET_PASS, setjmp never returning 0), which is never -1.  The frame
    owning slot 0 that catches it records RET_PASS, whatever the result of
    the node, RET_FAIL included, and ends the run: when the jump comes out
    of its call of retEnter (the node is below the root node), err_flag
    stays as it was; when the jump comes out of its own call of retExit
    (the node is the root node), the frame has recorded the result of the
    root node before, and err_flag stays as that result left it. *)
Theorem C10_unwind_recorded_as_pass (HAL_GetTick : nat -> Z)
  (call : ret_func_t -> engine -> outcome ret_val_t)
  (v : ret_val_t) (st st' : engine) (k val : Z) :
  retExit HAL_GetTick v st = Longjmp k val st' ->
  slot_cursor 0 st = Some 0 -> tag_str st <> "" ->
  longjmp_retval (-1) = RET_FAIL
  /\ (forall z, z <> -1 -> longjmp_retval z = RET_PASS)
  /\ k = 0
  /\ val = (if ret_val_eqb v RET_PASS then 1 else ret_val_int v)
  /\ val <> -1
  /\ tag_str st = test_tag (param st)
  /\ (forall slot, catch slot (Longjmp slot val st') = Returns RET_PASS st')
  /\ (forall err_flag, update_err_flag RET_PASS err_flag = err_flag)
  /\ (forall (test : ret_test_t) (err_flag : ret_val_t) (st0 : engine),
        nest st0 = 0 ->
        retEnter HAL_GetTick call test st0 = Longjmp k val st' ->
        loop_body HAL_GetTick call test err_flag st0
        = after_setjmp HAL_GetTick 0 RET_PASS err_flag st'
        /\ loop_body HAL_GetTick call test err_flag st0
           = Returns err_flag
               (retExit_end (log (EvResult 0 RET_PASS) st'))
        /\ results_at 0 (trace (log (EvResult 0 RET_PASS) st'))
           = (results_at 0 (trace st) ++ [RET_PASS])%list)
  /\ (forall (test : ret_test_t) (err_flag : ret_val_t) (st0 s1 : engine),
        nest st0 = 0 ->
        catch 0 (retEnter HAL_GetTick call test st0) = Returns v s1 ->
        st = log (EvResult 0 v) s1 ->
        loop_body HAL_GetTick call test err_flag st0
        = Returns (update_err_flag v err_flag)
            (retExit_end (log (EvResult 0 RET_PASS) st'))
        /\ results_at 0 (trace (log (EvResult 0 RET_PASS) st'))
           = (results_at 0 (trace s1) ++ [v; RET_PASS])%list).
Proof.
  intros Hexit Hcur Hpath.
  destruct (retExit_longjmp HAL_GetTick v st st' k val Hexit)
    as (-> & Hval & Hv).
  destruct (retExit_jump HAL_GetTick v st st' 0 val Hexit Hcur)
    as (Heq & Hn' & Hs' & Hp' & Ht' & Htr').
  assert (Hz : forall z, z <> -1 -> longjmp_retval z = RET_PASS).
  { intros z Hz. unfold longjmp_retval.
    replace (z =? -1) with false by (symmetry; apply Z.eqb_neq; exact Hz).
    reflexivity. }
  assert (Hne : val <> -1) by (rewrite Hval; destruct v; discriminate).
  assert (Hend : retExit HAL_GetTick RET_PASS (log (EvResult 0 RET_PASS) st')
                 = Returns tt (retExit_end (log (EvResult 0 RET_PASS) st'))).
  { apply retExit_after_jump; cbn [nest tag_str param log];
      [assumption | assumption | congruence]. }
  split; [reflexivity|]. split; [exact Hz|]. split; [reflexivity|].
  split; [exact Hval|]. split; [exact Hne|]. split; [exact Heq|].
  split; [intros slot; rewrite catch_own, (Hz val Hne); reflexivity|].
  split; [reflexivity|]. split.
  - intros test err_flag st0 Hn Henter.
    assert (Hloop : loop_body HAL_GetTick call test err_flag st0
                    = after_setjmp HAL_GetTick 0 RET_PASS err_flag st').
    { rewrite loop_body_in_range
        by (rewrite Hn; unfold RET_MAX_NEST_SIZE; lia).
      rewrite Hn, Henter, catch_own, bind_returns, (Hz val Hne).
      reflexivity. }
    split; [exact Hloop|]. split.
    + rewrite Hloop. unfold after_setjmp. rewrite Hend. reflexivity.
    + rewrite log_results, Htr'. reflexivity.
  - intros test err_flag st0 s1 Hn Hcatch Est. split.
    + rewrite loop_body_in_range
        by (rewrite Hn; unfold RET_MAX_NEST_SIZE; lia).
      rewrite Hn, Hcatch, bind_returns. unfold after_setjmp.
      rewrite <- Est, Hexit, Z.eqb_refl. cbv zeta.
      rewrite (Hz val Hne), Hend. reflexivity.
    + rewrite log_results, Htr', Est, log_results, <- app_assoc.
      reflexivity.
Qed.

(** A failed test reached by its whole tag path: its T line says FAIL, the
    root frame records RET_PASS and the run returns RET_PASS.  With the
    tag path of the root node as the target, the root frame records the
    failure of the root node, then RET_PASS for the unwinding of its own
    retExit, and the run returns RET_FAIL. *)
Lemma unwound_runs :
  match retStart tick_each_read (run_config RET_MODE_EXE "@ROOT@A")
          failing_first_tree power_on
        return Prop with
  | Returns r st =>
      r = RET_PASS
      /\ results_at 1 (trace st) = [RET_FAIL]
      /\ results_at 0 (trace st) = [RET_PASS]
  | _ => False
  end
  /\ match retStart tick_each_read (run_config RET_MODE_EXE "@ROOT")
             failing_first_tree power_on
        return Prop with
     | Returns r st =>
         r = RET_FAIL
         /\ results_at 1 (trace st) = [RET_FAIL; RET_PASS]
         /\ results_at 0 (trace st) = [RET_FAIL; RET_PASS]
     | _ => False
     end.
Proof. vm_compute. repeat split. Qed.

Lemma C10_unwind_recorded_as_pass_witness :
  (loop_body tick_each_read (call_func tick_each_read)
     (mk_test failing_first_tree RET_ROOT_TAG) RET_PASS root_loop_head
   = Returns RET_PASS
       (retExit_end (log (EvResult 0 RET_PASS) failed_leaf_unwound))
   /\ results_at 0 (trace (log (EvResult 0 RET_PASS) failed_leaf_unwound))
      = (results_at 0 (trace failed_leaf_exit) ++ [RET_PASS])%list)
  /\ (loop_body tick_each_read (call_func tick_each_read)
        (mk_test failing_first_tree RET_ROOT_TAG) RET_PASS
        root_path_loop_head
      = Returns (update_err_flag RET_FAIL RET_PASS)
          (retExit_end (log (EvResult 0 RET_PASS) root_node_unwound))
      /\ results_at 0 (trace (log (EvResult 0 RET_PASS) root_node_unwound))
         = (results_at 0 (trace root_node_exit)
            ++ [RET_FAIL; RET_PASS])%list).
Proof.
  split.
  - assert (H1 : retExit tick_each_read RET_FAIL failed_leaf_exit
                 = Longjmp 0 1 failed_leaf_unwound)
      by (vm_compute; reflexivity).
    assert (H2 : slot_cursor 0 failed_leaf_exit = Some 0) by reflexivity.
    assert (H3 : tag_str failed_leaf_exit <> "")
      by (vm_compute; discriminate).
    assert (H4 : retEnter tick_each_read (call_func tick_each_read)
                   (mk_test failing_first_tree RET_ROOT_TAG) root_loop_head
                 = Longjmp 0 1 failed_leaf_unwound)
      by (vm_compute; reflexivity).
    destruct (C10_unwind_recorded_as_pass tick_each_read
                (call_func tick_each_read) RET_FAIL failed_leaf_exit
                failed_leaf_unwound 0 1 H1 H2 H3)
      as (_ & _ & _ & _ & _ & _ & _ & _ & HA & _).
    destruct (HA (mk_test failing_first_tree RET_ROOT_TAG) RET_PASS
                root_loop_head eq_refl H4) as (_ & Hrun & Hres).
    split; [exact Hrun | exact Hres].
  - assert (H1 : retExit tick_each_read RET_FAIL
                   (log (EvResult 0 RET_FAIL) root_node_exit)
                 = Longjmp 0 1 root_node_unwound)
      by (vm_compute; reflexivity).
    assert (H2 : slot_cursor 0 (log (EvResult 0 RET_FAIL) root_node_exit)
                 = Some 0) by reflexivity.
    assert (H3 : tag_str (log (EvResult 0 RET_FAIL) root_node_exit) <> "")
      by (vm_compute; discriminate).
    assert (H4 : catch 0 (retEnter tick_each_read (call_func tick_each_read)
                            (mk_test failing_first_tree RET_ROOT_TAG)
                            root_path_loop_head)
                 = Returns RET_FAIL root_node_exit)
      by (vm_compute; reflexivity).
    destruct (C10_unwind_recorded_as_pass tick_each_read
                (call_func tick_each_read) RET_FAIL
                (log (EvResult 0 RET_FAIL) root_node_exit)
                root_node_unwound 0 1 H1 H2 H3)
      as (_ & _ & _ & _ & _ & _ & _ & _ & _ & HB).
    exact (HB (mk_test failing_first_tree RET_ROOT_TAG) RET_PASS
             root_path_loop_head root_node_exit eq_refl H4 eq_refl).
Defined.

(** ** The last lines of a report *)












(** ** The final report *)




(** ** What the nodes of a list produce *)





Section Values.

Variable HAL_GetTick : nat -> Z.

Section ValueFrames.

Variable call : ret_func_t -> engine -> outcome ret_val_t.





End ValueFrames.



End Values.

(** ** Aggregate result and visit order *)




(** ** Elapsed time on the T line *)

(** The six columns of the elapsed time. *)
Lemma elapsed_field (elapsed : Z) :
  0 <= elapsed ->
  exists (k : nat) (digits : string),
    decimal_field elapsed 6 = (blanks k ++ digits)%string
    /\ Z.of_nat k + strlen digits = 6
    /\ unsigned_value digits
       = Some (if elapsed <? 1000000 then elapsed else elapsed mod 1000000)
    /\ (1000000 <= elapsed -> k = O).
Proof.
  intros He. unfold decimal_field. change (Z.to_nat 6) with 6%nat.
  destruct (retDecimalDigits_loop_field 5 elapsed "" He)
    as (k & d & Hrun & Hlen & Hpos & Hval & Hfit).
  rewrite !string_app_nil_r in Hrun.
  exists k, d. split; [exact Hrun|].
  change (Z.of_nat 6) with 6 in Hlen. split; [exact Hlen|].
  assert (Hu : unsigned_value d = Some (elapsed mod 10 ^ strlen d)).
  { unfold unsigned_value. destruct d as [|c d].
    - exfalso. revert Hpos. clear. cbv. auto.
    - rewrite (Hval 0). reflexivity. }
  assert (Hk : 1000000 <= elapsed -> k = O).
  { intros Hbig. destruct Hfit as [Hfit | Hk]; [|exact Hk].
    exfalso.
    assert (10 ^ strlen d <= 10 ^ 6)
      by (apply Z.pow_le_mono_r; lia).
    change (10 ^ 6) with 1000000 in *. lia. }
  split; [|exact Hk].
  rewrite Hu. f_equal.
  destruct (elapsed <? 1000000) eqn:E.
  - apply Z.ltb_lt in E. apply Z.mod_small.
    destruct Hfit as [Hfit | Hk0]; [lia|].
    replace (strlen d) with 6 by lia. change (10 ^ 6) with 1000000. lia.
  - apply Z.ltb_ge in E. rewrite (Hk E) in Hlen.
    replace (strlen d) with 6 by lia. reflexivity.
Qed.

(** retExit for a node found in the tag path, that is not the target
    itself, in a run that is not a search: the T line of the node carries,
    in its six-column field, the number of ticks since the start time that
    retEnter stored in the slot of the node, taken modulo 2^32 (so that a
    wrap of the tick counter in between does not show) and printed by
    retDecimalDigits: the number itself when it is below 1000000, its last
    six digits otherwise.  The line is appended to the buffer as far as it
    fits while lines are not sent one by one, and sent with the pending
    text when they are and the line fits. *)
Theorem retExit_reports_elapsed_ticks (HAL_GetTick : nat -> Z)
  (v : ret_val_t) (st : engine) (n : Z) (parent suffix : string)
  (e : ret_env_t) (started : Z) :
  v <> RET_ERR_TAG ->
  tag_token (tag_str st) (test_tag (param st)) = true ->
  mode (param st) <> RET_MODE_SEARCH ->
  String.eqb (tag_str st) (test_tag (param st)) = false ->
  nest st = n + 1 -> 1 <= n < RET_MAX_NEST_SIZE ->
  tag_str st = (parent ++ suffix)%string ->
  strlen parent < RET_MAX_TAG_STRING_SIZE ->
  nth_error (ret_env st) (Z.to_nat n) = Some e ->
  env_tag_ptr e = strlen parent ->
  List.length (ret_env st) = 6%nat ->
  timer e = u32 started ->
  0 <= HAL_GetTick (ticks st) - started < 4294967296 ->
  next_in st <= RET_REPORT_BUF_SIZE ->
  let elapsed := HAL_GetTick (ticks st) - started in
  let line := test_line_text (next_line_number st) v elapsed (tag_str st) in
  exists st',
    retExit HAL_GetTick v st = Returns tt st'
    /\ (is_pause st = false ->
        buf st' = truncate capacity (buf st ++ line)
        /\ sink st' = sink st)
    /\ (is_pause st = true -> 0 <= next_line_number st ->
        no_line_feed (tag_str st) = true ->
        next_in st + strlen (tag_str st) + 23 <= RET_REPORT_BUF_SIZE ->
        sink st' = (sink st ++ [(buf st ++ line)%string])%list
        /\ buf st' = "")
    /\ exists (k : nat) (digits : string),
         decimal_field elapsed 6 = (blanks k ++ digits)%string
         /\ Z.of_nat k + strlen digits = 6
         /\ unsigned_value digits
            = Some (if elapsed <? 1000000 then elapsed
                    else elapsed mod 1000000)
         /\ (1000000 <= elapsed -> k = O).
Proof.
  intros Hv Htok Hmode Hne Hn Hr Hpath Hfit He Hcur Hlen Htimer Hwrap Hroom
    elapsed line.
  rewrite (retExit_found HAL_GetTick v st n parent suffix e Hv Htok Hmode
             Hne Hn Hr Hpath Hfit He Hcur Hlen).
  rewrite Htimer, u32_sub_wrap by exact Hwrap. fold elapsed.
  eexists. split; [reflexivity|].
  cbn [buf sink set_path].
  set (sx := set_ticks (S (ticks st))
               (set_param
                  (set_tag_found (s32 (tag_found (param st) + 1)) (param st))
                  st)).
  change (test_line_text (next_line_number st) v elapsed (tag_str st))
    with (test_line_text (next_line_number sx) v elapsed (tag_str sx))
    in line.
  split; [|split].
  - intros Hp. rewrite retTestLineFormat_text.
    cbn [buf sink set_line].
    destruct (retPutString_clip line sx Hp Hroom) as (Hb & Hs & _).
    split; [exact Hb | exact Hs].
  - intros Hp Hline Hlf Hroom2.
    destruct (retTestLineFormat_sent v elapsed sx Hp Hline
                ltac:(unfold elapsed; lia) Hlf Hroom2) as (Hs & Hb & _).
    split; [exact Hs | exact Hb].
  - apply elapsed_field. unfold elapsed. lia.
Qed.

Lemma retExit_reports_elapsed_ticks_witness :
  exists st',
    retExit (fun _ => 4296201863) RET_PASS
      (set_path "@ROOT@A" 7 2 trunk_loop_head_all)
    = Returns tt st'
    /\ sink st'
       = ["T,   0,PASS,234567,@ROOT@A" ++ String LF ""]%string.
Proof.
  destruct (retExit_reports_elapsed_ticks (fun _ => 4296201863) RET_PASS
              (set_path "@ROOT@A" 7 2 trunk_loop_head_all) 1
              "@ROOT" "@A" {| env_tag_ptr := 5; timer := 0 |} 4294967296
              ltac:(discriminate) eq_refl ltac:(discriminate) eq_refl
              eq_refl ltac:(vm_compute; split; [discriminate | reflexivity])
              eq_refl eq_refl eq_refl eq_refl eq_refl eq_refl
              ltac:(vm_compute; split; [discriminate | reflexivity])
              ltac:(vm_compute; discriminate))
    as (st' & Hrun & _ & Hsent & _).
  exists st'. split; [exact Hrun|].
  exact (proj1 (Hsent eq_refl ltac:(vm_compute; discriminate) eq_refl
                  ltac:(vm_compute; discriminate))).
Defined.
